(** * Runtime module patching (LLaVA-CoT, src/inference)

    A shallow embedding of the runtime patch tools of the repository:
    - [fixed_patch.py]   : class [TransformersRuntimePatcher] (the patch manager),
    - [simple_patch.py]  : the content-rewriting variant,
    - [runtime_patch.py] : the first, file-loading variant,
    - [patch_example.py] : the [patched_mllama_processor] context manager.

    Python objects that the code mutates and shares (module objects, the
    dictionaries held by a patcher, the per-target record dictionaries) live in
    typed stores and are referred to by location; functions that can raise run
    in a state-and-exception monad, and a [try ... except Exception] wrapper
    turns them into total functions returning a boolean.

    What lies outside the repository is a parameter, the [Host]: the files,
    the modules the import system can find, and the namespace that running a
    source text produces.  Console output is left out.

    The sections on the three variants take module objects to be plain
    namespaces and an import to load and register a module, and running the
    replacement's top-level code to fill the new module and do nothing else.
    Statements about every path through an apply or a restore, the failing
    ones included, are made over the runtime as a parameter ([Python],
    [Protocol]): there the attribute operations, the imports and the
    replacement's code can do and raise anything, short of reaching into a
    patcher's own dictionaries. *)

From stdpp Require Import gmap strings list fin_maps.
From Stdlib Require Import Ascii String.

#[local] Set Warnings "-register-all".
#[local] Open Scope string_scope.

(** ** Values and objects *)

(** Python values bound to attribute names.  Classes, functions and other
    objects the patcher only moves around are opaque, compared by identity. *)
Inductive pyval :=
  | VNone
  | VBool (b : bool)
  | VInt (n : Z)
  | VStr (s : string)
  | VObj (id : nat)
  | VDict (d : gmap string pyval).

(** The namespace of a module object: attribute name to value. *)
Abbreviation module := (gmap string pyval).

(** A backup snapshot: attribute name to saved value. *)
Abbreviation snapshot := (gmap string pyval).

Definition loc := positive.

(** The record dictionary written at fixed_patch.py:102-106. *)
Record PatchRecord := mkRecord {
  source_file : string;
  patch_count : nat;
  backup_available : bool
}.

(** Exceptions, all subclasses of Python's [Exception].  [SystemError] stands
    for a reference to an object that is not in its store, which Python itself
    never produces. *)
Inductive Exn :=
  | FileNotFoundError
  | ImportError
  | KeyError
  | AttributeError
  | TypeError
  | ExecError
  | SystemError.

(** The process state the patch tools read and write. *)
Record State := mkState {
  sys_modules : gmap string loc;                   (* sys.modules *)
  modules : gmap loc module;                       (* module objects *)
  dicts : gmap loc (gmap string loc);              (* dicts: path -> record object *)
  records : gmap loc PatchRecord;                  (* record dict objects *)
  ledgers : gmap loc (gmap string snapshot)        (* dicts: path -> backup dict *)
}.

(** What the host provides: the file system, the import machinery and the
    result of running a source text as the top-level code of a new module. *)
Record Host := mkHost {
  host_files : gmap string string;              (* path -> text of the file *)
  host_here : string;                           (* Path(__file__).parent *)
  host_loader_found : string → bool;            (* spec_from_file_location finds a loader *)
  host_run : string → Exn + module;             (* namespace after running a text *)
  host_importable : string → option module;     (* modules found by the import system *)
  host_obj_hasattr : pyval → string → bool      (* hasattr on a class or other object *)
}.

(** A [TransformersRuntimePatcher] instance: its two attributes refer to the
    dictionaries created by [__init__]. *)
Record Patcher := mkPatcher {
  applied_patches : loc;
  backup_modules : loc
}.

Definition set_sys_modules (f : gmap string loc → gmap string loc) (s : State) : State :=
  mkState (f (sys_modules s)) (modules s) (dicts s) (records s) (ledgers s).
Definition set_modules (f : gmap loc module → gmap loc module) (s : State) : State :=
  mkState (sys_modules s) (f (modules s)) (dicts s) (records s) (ledgers s).
Definition set_dicts (f : gmap loc (gmap string loc) → gmap loc (gmap string loc))
    (s : State) : State :=
  mkState (sys_modules s) (modules s) (f (dicts s)) (records s) (ledgers s).
Definition set_records (f : gmap loc PatchRecord → gmap loc PatchRecord) (s : State) : State :=
  mkState (sys_modules s) (modules s) (dicts s) (f (records s)) (ledgers s).
Definition set_ledgers (f : gmap loc (gmap string snapshot) → gmap loc (gmap string snapshot))
    (s : State) : State :=
  mkState (sys_modules s) (modules s) (dicts s) (records s) (f (ledgers s)).

(** ** Strings *)

(** [name.startswith('_')] *)
Definition startswith_underscore (name : string) : bool :=
  match name with
  | String "_" _ => true
  | _ => false
  end.

Definition is_public (name : string) : bool := negb (startswith_underscore name).

(** [s.startswith(p)] *)
Fixpoint startswith (p s : string) : bool :=
  match p, s with
  | EmptyString, _ => true
  | String a p', String b s' => if Ascii.eqb a b then startswith p' s' else false
  | String _ _, EmptyString => false
  end.

(** [s.replace(old, new)] for a non-empty [old]: occurrences are replaced from
    left to right, without overlap.  [skip] counts the characters of a match
    still to be dropped. *)
Fixpoint replace_from (old new : string) (skip : nat) (s : string) : string :=
  match s with
  | EmptyString => EmptyString
  | String c s' =>
      match skip with
      | S k => replace_from old new k s'
      | O =>
          if startswith old s
          then new ++ replace_from old new (String.length old - 1) s'
          else String c (replace_from old new 0 s')
      end
  end.

Definition str_replace (old new s : string) : string := replace_from old new 0 s.

(** [old in s] *)
Fixpoint contains (old s : string) : bool :=
  startswith old s ||
  match s with
  | EmptyString => false
  | String _ s' => contains old s'
  end.

(** [s.split(c)] *)
Fixpoint str_split (c : ascii) (s : string) : list string :=
  match s with
  | EmptyString => [EmptyString]
  | String a s' =>
      if Ascii.eqb a c then EmptyString :: str_split c s'
      else match str_split c s' with
           | h :: t => String a h :: t
           | [] => [String a EmptyString]
           end
  end.

(** ** The state-and-exception monad *)

Definition M (A : Type) : Type := State → (Exn + A) * State.

Definition ret {A} (a : A) : M A := λ s, (inr a, s).

Definition bind {A B} (c : M A) (k : A → M B) : M B :=
  λ s, match c s with
       | (inl e, s') => (inl e, s')
       | (inr a, s') => k a s'
       end.

Definition raise {A} (e : Exn) : M A := λ s, (inl e, s).

Definition get_state : M State := λ s, (inr s, s).

Definition modify (f : State → State) : M unit := λ s, (inr tt, f s).

(** [try: c  except Exception as e: h e] *)
Definition try_except {A} (c : M A) (h : Exn → M A) : M A :=
  λ s, match c s with
       | (inl e, s') => h e s'
       | r => r
       end.

Declare Scope py_scope.
Delimit Scope py_scope with py.
Notation "x <- c ;; k" := (bind c (λ x, k))
  (at level 100, c at next level, right associativity) : py_scope.
Notation "c ;;; k" := (bind c (λ _, k))
  (at level 100, right associativity) : py_scope.
#[local] Open Scope py_scope.

(** [for x in l: body x] *)
Fixpoint for_each {A} (l : list A) (body : A → M unit) : M unit :=
  match l with
  | [] => ret tt
  | x :: l' => body x ;;; for_each l' body
  end.

(** The wrapper shared by the public entry points:
    [try: ... return b  except Exception: return False]. *)
Definition returning_False_on_exception (body : M bool) : State → bool * State :=
  λ s, match body s with
       | (inl _, s') => (false, s')
       | (inr b, s') => (b, s')
       end.

(** ** Object primitives *)

Definition module_at (l : loc) : M module :=
  s <- get_state ;;
  match modules s !! l with
  | Some m => ret m
  | None => raise SystemError
  end.

(** [dir(mod)] for a plain module, one that does not define [__dir__]: the
    names bound in the module (Python sorts them; on plain modules the loops
    below do not depend on the order).  [dir_pep562] below honours [__dir__]. *)
Definition dir (l : loc) : M (list string) :=
  m <- module_at l ;; ret (map_to_list m).*1.

Definition getattr (l : loc) (name : string) : M pyval :=
  m <- module_at l ;;
  match m !! name with
  | Some v => ret v
  | None => raise AttributeError
  end.

Definition hasattr (l : loc) (name : string) : M bool :=
  m <- module_at l ;; ret (bool_decide (is_Some (m !! name))).

Definition setattr (l : loc) (name : string) (v : pyval) : M unit :=
  m <- module_at l ;; modify (set_modules <[l := <[name := v]> m]>).

Definition delattr (l : loc) (name : string) : M unit :=
  m <- module_at l ;;
  match m !! name with
  | Some _ => modify (set_modules <[l := delete name m]>)
  | None => raise AttributeError
  end.

(** A new module object with the given namespace. *)
Definition new_module (m : module) : M loc :=
  s <- get_state ;;
  let l := fresh (dom (modules s)) in
  modify (set_modules <[l := m]>) ;;; ret l.

(** Dictionaries from module path to record object. *)
Definition dict_at (d : loc) : M (gmap string loc) :=
  s <- get_state ;;
  match dicts s !! d with
  | Some m => ret m
  | None => raise SystemError
  end.

(** [{}] *)
Definition new_dict (m : gmap string loc) : M loc :=
  s <- get_state ;;
  let d := fresh (dom (dicts s)) in
  modify (set_dicts <[d := m]>) ;;; ret d.

(** [key in d] *)
Definition dict_contains (d : loc) (key : string) : M bool :=
  m <- dict_at d ;; ret (bool_decide (is_Some (m !! key))).

(** [d[key]] *)
Definition dict_getitem (d : loc) (key : string) : M loc :=
  m <- dict_at d ;;
  match m !! key with
  | Some r => ret r
  | None => raise KeyError
  end.

(** [d[key] = r] *)
Definition dict_setitem (d : loc) (key : string) (r : loc) : M unit :=
  m <- dict_at d ;; modify (set_dicts <[d := <[key := r]> m]>).

(** [del d[key]] *)
Definition dict_delitem (d : loc) (key : string) : M unit :=
  m <- dict_at d ;;
  match m !! key with
  | Some _ => modify (set_dicts <[d := delete key m]>)
  | None => raise KeyError
  end.

(** [list(d.keys())] *)
Definition dict_keys (d : loc) : M (list string) :=
  m <- dict_at d ;; ret (map_to_list m).*1.

(** [d.copy()]: a new dictionary object with the same bindings. *)
Definition dict_copy (d : loc) : M loc :=
  m <- dict_at d ;; new_dict m.

(** Record dictionaries. *)
Definition new_record (r : PatchRecord) : M loc :=
  s <- get_state ;;
  let l := fresh (dom (records s)) in
  modify (set_records <[l := r]>) ;;; ret l.

Definition record_at (l : loc) : M PatchRecord :=
  s <- get_state ;;
  match records s !! l with
  | Some r => ret r
  | None => raise SystemError
  end.

(** Dictionaries from module path to backup dictionary. *)
Definition ledger_at (b : loc) : M (gmap string snapshot) :=
  s <- get_state ;;
  match ledgers s !! b with
  | Some m => ret m
  | None => raise SystemError
  end.

(** [b[path] = snap] *)
Definition ledger_setitem (b : loc) (path : string) (snap : snapshot) : M unit :=
  m <- ledger_at b ;; modify (set_ledgers <[b := <[path := snap]> m]>).

(** [b[path]] *)
Definition ledger_getitem (b : loc) (path : string) : M snapshot :=
  m <- ledger_at b ;;
  match m !! path with
  | Some snap => ret snap
  | None => raise KeyError
  end.

(** [b[path][name] = v] *)
Definition ledger_store (b : loc) (path name : string) (v : pyval) : M unit :=
  snap <- ledger_getitem b path ;; ledger_setitem b path (<[name := v]> snap).

(** [del b[path]] *)
Definition ledger_delitem (b : loc) (path : string) : M unit :=
  m <- ledger_at b ;;
  match m !! path with
  | Some _ => modify (set_ledgers <[b := delete path m]>)
  | None => raise KeyError
  end.

(** ** The host: files and imports *)

Section HostPrimitives.

Context (host : Host).

(** [Path(p).exists()] *)
Definition path_exists (p : string) : M bool :=
  ret (bool_decide (is_Some (host_files host !! p))).

(** [open(p).read()] *)
Definition read_file (p : string) : M string :=
  match host_files host !! p with
  | Some text => ret text
  | None => raise FileNotFoundError
  end.

(** [importlib.import_module(path)] and the [import] statement, as far as the
    registry goes: the module registered under [path], or else the module the
    import system finds, which is then registered.  What else an import does
    (it runs the code of the packages it loads and binds a submodule on its
    parent) is left to [py_import] below. *)
Definition import_module (path : string) : M loc :=
  s <- get_state ;;
  match sys_modules s !! path with
  | Some l => _ <- module_at l ;; ret l
  | None =>
      match host_importable host path with
      | Some m =>
          l <- new_module m ;;
          modify (set_sys_modules <[path := l]>) ;;; ret l
      | None => raise ImportError
      end
  end.

(** [importlib.util.module_from_spec(spec)]: a new, not yet executed module. *)
Definition module_from_spec : M loc := new_module ∅.

(** Running [text] as the top-level code of the module [l] fills the
    module's namespace, or raises what the code raises. *)
Definition exec_text (text : string) (l : loc) : M unit :=
  match host_run host text with
  | inr m => _ <- module_at l ;; modify (set_modules <[l := m]>)
  | inl e => raise e
  end.

(** [spec.loader.exec_module(mod)] for a spec made from the file [p] *)
Definition exec_module (p : string) (l : loc) : M unit :=
  text <- read_file p ;; exec_text text l.

(** [current_dir / "processing_mllama.py"] *)
Definition default_custom_file : string := host_here host ++ "/processing_mllama.py".

Definition mllama_path : string := "transformers.models.mllama.processing_mllama".

(** [import transformers; print(transformers.__version__)] *)
Definition import_transformers : M unit :=
  transformers <- import_module "transformers" ;;
  _ <- getattr transformers "__version__" ;;
  ret tt.

(** The loops shared by fixed_patch.py and simple_patch.py. *)

(** [for attr_name in dir(target): if not attr_name.startswith('_'):
       store(attr_name, getattr(target, attr_name))] *)
Definition for_public_attrs (l : loc) (body : string → pyval → M unit) : M unit :=
  names <- dir l ;;
  for_each names (λ attr_name,
    if negb (startswith_underscore attr_name)
    then v <- getattr l attr_name ;; body attr_name v
    else ret tt).

(** fixed_patch.py:88-92 and simple_patch.py:81-85: copy every public attribute
    of the custom module onto the target, counting them. *)
Fixpoint apply_attrs (custom target : loc) (names : list string) (patch_count : nat) : M nat :=
  match names with
  | [] => ret patch_count
  | attr_name :: rest =>
      if negb (startswith_underscore attr_name)
      then v <- getattr custom attr_name ;;
           setattr target attr_name v ;;;
           apply_attrs custom target rest (patch_count + 1)
      else apply_attrs custom target rest patch_count
  end.

Definition transplant (custom target : loc) : M nat :=
  names <- dir custom ;; apply_attrs custom target names 0.

(** [for attr_name, original_value in backup.items():
       setattr(target, attr_name, original_value)] *)
Definition restore_attrs (target : loc) (backup : snapshot) : M unit :=
  for_each (map_to_list backup) (λ '(attr_name, original_value),
    setattr target attr_name original_value).

End HostPrimitives.

(** [f()] for a function that returns normally on every input *)
Definition call {A} (f : State → A * State) : M A :=
  λ s, (inr (f s).1, (f s).2).

(** [try: c  except ImportError: h] *)
Definition except_ImportError {A} (c : M A) (h : M A) : M A :=
  try_except c (λ e, match e with ImportError => h | _ => raise e end).

(** ** fixed_patch.py: [TransformersRuntimePatcher] *)

Module Fixed.

Section WithHost.

Context (host : Host).

(** [__init__] *)
Definition init (s : State) : Patcher * State :=
  let a := fresh (dom (dicts s)) in
  let b := fresh (dom (ledgers s)) in
  (mkPatcher a b, set_ledgers <[b := ∅]> (set_dicts <[a := ∅]> s)).

(** fixed_patch.py:64-71 *)
Definition import_parents (module_path : string) : M unit :=
  let parent_modules := removelast (str_split "." module_path) in
  for_each (seq 0 (List.length parent_modules)) (λ i,
    let parent_path := String.concat "." (take (i + 1) parent_modules) in
    s <- get_state ;;
    if bool_decide (is_Some (sys_modules s !! parent_path)) then ret tt
    else
      except_ImportError
        (l <- import_module host parent_path ;;
         modify (set_sys_modules <[parent_path := l]>))
        (ret tt)).

(** fixed_patch.py:80-109, from the backup to the record. *)
Definition install_patch (self : Patcher) (module_path custom_file_path : string)
    (backup : bool) (target_module custom_module : loc) : M bool :=
  (if backup then
     ledger_setitem (backup_modules self) module_path ∅ ;;;
     for_public_attrs target_module (λ attr_name v,
       ledger_store (backup_modules self) module_path attr_name v)
   else ret tt) ;;;
  patch_count <- transplant custom_module target_module ;;
  setattr target_module "_runtime_patched" (VBool true) ;;;
  setattr target_module "_patch_source" (VStr custom_file_path) ;;;
  modify (set_sys_modules <[module_path := target_module]>) ;;;
  r <- new_record (mkRecord custom_file_path patch_count backup) ;;
  dict_setitem (applied_patches self) module_path r ;;;
  ret true.

(** fixed_patch.py:33-109, the body of the [try]. *)
Definition patch_module_from_file_body (self : Patcher)
    (module_path custom_file_path : string) (backup : bool) : M bool :=
  custom_exists <- path_exists host custom_file_path ;;
  if negb custom_exists then raise FileNotFoundError else
  except_ImportError (import_transformers host) (raise ImportError) ;;;
  target_module <- except_ImportError (import_module host module_path) (raise ImportError) ;;
  if negb (host_loader_found host custom_file_path) then raise ImportError else
  custom_module <- module_from_spec ;;
  import_parents module_path ;;;
  try_except (exec_module host custom_file_path custom_module) (λ _, raise ImportError) ;;;
  install_patch self module_path custom_file_path backup target_module custom_module.

Definition patch_module_from_file (self : Patcher)
    (module_path custom_file_path : string) (backup : bool) : State → bool * State :=
  returning_False_on_exception (patch_module_from_file_body self module_path custom_file_path backup).

Definition patch_mllama_processor (self : Patcher) (custom_file_path : option string)
    : State → bool * State :=
  let custom_file_path :=
    match custom_file_path with
    | None => default_custom_file host
    | Some p => p
    end in
  patch_module_from_file self mllama_path custom_file_path true.

Definition restore_module_body (self : Patcher) (module_path : string) : M bool :=
  patched <- dict_contains (applied_patches self) module_path ;;
  if negb patched then ret false else
  r <- dict_getitem (applied_patches self) module_path ;;
  rec <- record_at r ;;
  if negb (backup_available rec) then ret false else
  s <- get_state ;;
  match sys_modules s !! module_path with
  | None => raise KeyError
  | Some target_module =>
      backup <- ledger_getitem (backup_modules self) module_path ;;
      restore_attrs target_module backup ;;;
      has_flag <- hasattr target_module "_runtime_patched" ;;
      (if has_flag then delattr target_module "_runtime_patched" else ret tt) ;;;
      has_source <- hasattr target_module "_patch_source" ;;
      (if has_source then delattr target_module "_patch_source" else ret tt) ;;;
      dict_delitem (applied_patches self) module_path ;;;
      ledger_delitem (backup_modules self) module_path ;;;
      ret true
  end.

Definition restore_module (self : Patcher) (module_path : string) : State → bool * State :=
  returning_False_on_exception (restore_module_body self module_path).

(** [restore_all] has no handler of its own; [restore_module] never raises. *)
Fixpoint restore_each (self : Patcher) (paths : list string) (success : bool) : M bool :=
  match paths with
  | [] => ret success
  | module_path :: rest =>
      ok <- call (restore_module self module_path) ;;
      restore_each self rest (if negb ok then false else success)
  end.

Definition restore_all (self : Patcher) : M bool :=
  paths <- dict_keys (applied_patches self) ;;
  restore_each self paths true.

Definition list_patches (self : Patcher) : M loc :=
  dict_copy (applied_patches self).

Definition verify_patch_body (module_path : string) : M bool :=
  s <- get_state ;;
  match sys_modules s !! module_path with
  | Some module => hasattr module "_runtime_patched"
  | None => ret false
  end.

Definition verify_patch (module_path : string) : State → bool * State :=
  returning_False_on_exception (verify_patch_body module_path).

End WithHost.

End Fixed.

(** ** simple_patch.py *)

Module Simple.

(** simple_patch.py:35-55: the five literal replacements. *)
Definition rewrite_imports (content : string) : string :=
  let content := str_replace
    "from ...feature_extraction_utils import BatchFeature"
    "from transformers.feature_extraction_utils import BatchFeature" content in
  let content := str_replace
    "from ...image_utils import ImageInput"
    "from transformers.image_utils import ImageInput" content in
  let content := str_replace
    "from ...processing_utils import ImagesKwargs, ProcessingKwargs, ProcessorMixin, Unpack"
    "from transformers.processing_utils import ImagesKwargs, ProcessingKwargs, ProcessorMixin, Unpack"
    content in
  let content := str_replace
    "from ...tokenization_utils_base import"
    "from transformers.tokenization_utils_base import" content in
  let content := str_replace
    "from .image_processing_mllama import make_list_of_images"
    "from transformers.models.mllama.image_processing_mllama import make_list_of_images"
    content in
  content.

Section WithHost.

Context (host : Host).

(** simple_patch.py:75-78, the backup dictionary is a local variable. *)
Fixpoint backup_attrs (target : loc) (names : list string) (backup : snapshot) : M snapshot :=
  match names with
  | [] => ret backup
  | attr_name :: rest =>
      if negb (startswith_underscore attr_name)
      then v <- getattr target attr_name ;;
           backup_attrs target rest (<[attr_name := v]> backup)
      else backup_attrs target rest backup
  end.

(** The rewritten text goes through a temporary file that is removed again
    on every path (simple_patch.py:61-70, 94-99); the module is run from the
    text. *)
Definition patch_mllama_processor_simple_body : M bool :=
  import_transformers host ;;;
  target_module <- import_module host mllama_path ;;
  let custom_file := default_custom_file host in
  custom_exists <- path_exists host custom_file ;;
  if negb custom_exists then raise FileNotFoundError else
  content <- read_file host custom_file ;;
  let content := rewrite_imports content in
  custom_module <- module_from_spec ;;
  exec_text host content custom_module ;;;
  names <- dir target_module ;;
  backup <- backup_attrs target_module names ∅ ;;
  patch_count <- transplant custom_module target_module ;;
  setattr target_module "_runtime_patched" (VBool true) ;;;
  setattr target_module "_backup" (VDict backup) ;;;
  ret true.

Definition patch_mllama_processor_simple : State → bool * State :=
  returning_False_on_exception patch_mllama_processor_simple_body.

Definition restore_mllama_processor_simple_body : M bool :=
  target_module <- import_module host mllama_path ;;
  has_flag <- hasattr target_module "_runtime_patched" ;;
  if negb has_flag then ret false else
  has_backup <- hasattr target_module "_backup" ;;
  if negb has_backup then ret false else
  backup <- getattr target_module "_backup" ;;
  match backup with
  | VDict backup =>
      restore_attrs target_module backup ;;;
      delattr target_module "_runtime_patched" ;;;
      delattr target_module "_backup" ;;;
      ret true
  | _ => raise AttributeError
  end.

Definition restore_mllama_processor_simple : State → bool * State :=
  returning_False_on_exception restore_mllama_processor_simple_body.

Definition verify_patch_simple_body : M bool :=
  target_module <- import_module host mllama_path ;;
  hasattr target_module "_runtime_patched".

Definition verify_patch_simple : State → bool * State :=
  returning_False_on_exception verify_patch_simple_body.

End WithHost.

End Simple.

(** ** runtime_patch.py *)

Module Runtime.

Section WithHost.

Context (host : Host).

(** [original_module._original_backup[attr_name] = v] *)
Definition original_backup_store (original_module : loc) (attr_name : string) (v : pyval)
    : M unit :=
  b <- getattr original_module "_original_backup" ;;
  match b with
  | VDict d => setattr original_module "_original_backup" (VDict (<[attr_name := v]> d))
  | _ => raise TypeError
  end.

Definition patch_mllama_processor_body : M bool :=
  let custom_processor_path := default_custom_file host in
  custom_exists <- path_exists host custom_processor_path ;;
  if negb custom_exists then raise FileNotFoundError else
  custom_module <- module_from_spec ;;
  exec_module host custom_processor_path custom_module ;;;
  original_module <- import_module host mllama_path ;;
  setattr original_module "_original_backup" (VDict ∅) ;;;
  names <- dir custom_module ;;
  let custom_attrs := List.filter (λ attr, negb (startswith_underscore attr)) names in
  for_each custom_attrs (λ attr_name,
    present <- hasattr original_module attr_name ;;
    (if present
     then v <- getattr original_module attr_name ;;
          original_backup_store original_module attr_name v
     else ret tt) ;;;
    v <- getattr custom_module attr_name ;;
    setattr original_module attr_name v) ;;;
  modify (set_sys_modules <[mllama_path := original_module]>) ;;;
  ret true.

Definition patch_mllama_processor : State → bool * State :=
  returning_False_on_exception patch_mllama_processor_body.

Definition restore_original_processor_body : M bool :=
  module <- import_module host mllama_path ;;
  has_backup <- hasattr module "_original_backup" ;;
  if has_backup then
    b <- getattr module "_original_backup" ;;
    match b with
    | VDict backup =>
        restore_attrs module backup ;;;
        delattr module "_original_backup" ;;;
        ret true
    | _ => raise AttributeError
    end
  else ret false.

Definition restore_original_processor : State → bool * State :=
  returning_False_on_exception restore_original_processor_body.

(** runtime_patch.py:86-103: the marker is looked up on the class
    [MllamaProcessor] of the target module. *)
Definition verify_patch_body : M bool :=
  module <- import_module host mllama_path ;;
  MllamaProcessor <- try_except (getattr module "MllamaProcessor") (λ _, raise ImportError) ;;
  ret (host_obj_hasattr host MllamaProcessor "_is_custom_patched").

Definition verify_patch : State → bool * State :=
  returning_False_on_exception verify_patch_body.

End WithHost.

End Runtime.

(** ** patch_example.py: the context manager *)

Module Example.

(** How the body of a [with] statement is left. *)
Inductive body_exit (R : Type) :=
  | Completes
  | Returns (r : R)
  | Raises (e : Exn).
Arguments Completes {R}.
Arguments Returns {R} r.
Arguments Raises {R} e.

(** A context manager made by [@contextmanager] from a generator of the
    shape [try: ...; yield y  finally: ...]: the code up to the [yield], which
    gives the yielded value and the generator's local variables, and the
    [finally] block. *)
Record context_manager (Σ Y L : Type) := mkContextManager {
  cm_enter : Σ → (Y * L) * Σ;
  cm_finally : L → Σ → Σ
}.
Arguments cm_enter {Σ Y L} _ _.
Arguments cm_finally {Σ Y L} _ _ _.

(** [with cm as y: body y].  However the body is left, [__exit__] resumes the
    generator (or throws the body's exception into it at the [yield]), the
    [finally] block runs, and the way the body was left is passed on. *)
Definition with_statement {Σ Y L R : Type} (cm : context_manager Σ Y L)
    (body : Y → Σ → body_exit R * Σ) (s : Σ) : body_exit R * Σ :=
  let '((y, locals), s) := cm_enter cm s in
  let '(out, s) := body y s in
  (out, cm_finally cm locals s).

Section ContextManager.

(** The class [TransformersRuntimePatcher] comes from [advanced_patch], which
    is not among the sources: its three operations are parameters, over any
    type of process state. *)
Context {Σ P : Type}.
Context (new_patcher : Σ → P * Σ).
Context (patch_mllama_processor : P → option string → Σ → bool * Σ).
Context (restore_module : P → string → Σ → bool * Σ).

(** patch_example.py:33-46 *)
Definition enter (custom_file_path : option string) (s : Σ) : (bool * (P * bool)) * Σ :=
  let '(patcher, s) := new_patcher s in
  let '(patch_applied, s) := patch_mllama_processor patcher custom_file_path s in
  ((patch_applied, (patcher, patch_applied)), s).

(** patch_example.py:48-55 *)
Definition finally_block (locals : P * bool) (s : Σ) : Σ :=
  let '(patcher, patch_applied) := locals in
  if patch_applied
  then (restore_module patcher mllama_path s).2
  else s.

Definition patched_mllama_processor (custom_file_path : option string)
    : context_manager Σ bool (P * bool) :=
  mkContextManager _ _ _ (enter custom_file_path) finally_block.

End ContextManager.

(** Calls into the patcher, recorded to count them. *)
Inductive call :=
  | CallApply (custom_file_path : option string)
  | CallRestore (module_path : string).

Section Recording.

Context {Σ P R : Type}.

Definition recording_apply (f : P → option string → Σ → bool * Σ)
    (p : P) (c : option string) (s : Σ * list call) : bool * (Σ * list call) :=
  ((f p c s.1).1, ((f p c s.1).2, (s.2 ++ [CallApply c])%list)).

Definition recording_restore (f : P → string → Σ → bool * Σ)
    (p : P) (path : string) (s : Σ * list call) : bool * (Σ * list call) :=
  ((f p path s.1).1, ((f p path s.1).2, (s.2 ++ [CallRestore path])%list)).

Definition recording_new (f : Σ → P * Σ) (s : Σ * list call) : P * (Σ * list call) :=
  ((f s.1).1, ((f s.1).2, s.2)).

(** A body has no access to the record of calls. *)
Definition recording_body (body : bool → Σ → body_exit R * Σ)
    (y : bool) (s : Σ * list call) : body_exit R * (Σ * list call) :=
  ((body y s.1).1, ((body y s.1).2, s.2)).

End Recording.

End Example.

(** ** Vocabulary of the statements *)

(** The public attributes of a namespace: the names not starting with ['_']. *)
Definition public_part (m : module) : module :=
  filter (λ kv, is_public kv.1 = true) m.

(** The namespace of the module object registered under [path]. *)
Definition live_module (s : State) (path : string) : option module :=
  sys_modules s !! path ≫= λ l, modules s !! l.

(** The patcher's [applied_patches] dictionary, its records, and its
    [backup_modules] dictionary, read through the stores. *)
Definition record_refs (self : Patcher) (s : State) : gmap string loc :=
  default ∅ (dicts s !! applied_patches self).

Definition patch_records (self : Patcher) (s : State) : gmap string PatchRecord :=
  omap (λ r, records s !! r) (record_refs self s).

Definition backup_ledger (self : Patcher) (s : State) : gmap string snapshot :=
  default ∅ (ledgers s !! backup_modules self).

(** The target's namespace after a patch from the file [f] whose module has
    the namespace [c], and after a restore from the snapshot [snap]. *)
Definition patched_namespace (f : string) (c t : module) : module :=
  <["_patch_source" := VStr f]> (<["_runtime_patched" := VBool true]> (public_part c ∪ t)).

Definition restored_namespace (snap t : module) : module :=
  delete "_patch_source" (delete "_runtime_patched" (snap ∪ t)).

(** Imports only add: module objects and registry entries that exist stay as
    they are, and the patcher's dictionaries are not touched. *)
Definition grows (s s' : State) : Prop :=
  sys_modules s ⊆ sys_modules s' ∧ modules s ⊆ modules s' ∧
  dicts s' = dicts s ∧ records s' = records s ∧ ledgers s' = ledgers s.

(** What running the file [f] yields. *)
Definition custom_namespace (host : Host) (f : string) : option module :=
  host_files host !! f ≫= λ text,
  match host_run host text with
  | inr c => Some c
  | inl _ => None
  end.

(** One step of the transplant on namespaces. *)
Definition copy_public (acc : module) (kv : string * pyval) : module :=
  if is_public kv.1 then <[kv.1 := kv.2]> acc else acc.

(** The state after the steps of fixed_patch.py:80-106 that do not touch
    [applied_patches], from a state in which the target has the namespace [t]
    and the custom module the namespace [c]. *)
Definition installed (self : Patcher) (module_path custom_file_path : string)
    (backup : bool) (target : loc) (c t : module) (s : State) : State :=
  mkState
    (<[module_path := target]> (sys_modules s))
    (<[target := patched_namespace custom_file_path c t]> (modules s))
    (dicts s)
    (<[fresh (dom (records s)) := mkRecord custom_file_path (size (public_part c)) backup]>
       (records s))
    (if backup
     then <[backup_modules self := <[module_path := public_part t]> (backup_ledger self s)]>
            (ledgers s)
     else ledgers s).

(** The state after a restore of the target [target] from [snap]. *)
Definition restored (self : Patcher) (module_path : string) (target : loc)
    (snap t : module) (s : State) : State :=
  mkState
    (sys_modules s)
    (<[target := restored_namespace snap t]> (modules s))
    (<[applied_patches self := delete module_path (record_refs self s)]> (dicts s))
    (records s)
    (<[backup_modules self := delete module_path (backup_ledger self s)]> (ledgers s)).

(** ** Sequences of public operations of the patch manager *)

Inductive manager_op :=
  | OpApply (module_path custom_file_path : string) (backup : bool)
  | OpRestore (module_path : string)
  | OpRestoreAll
  | OpVerify (module_path : string)
  | OpListPatches.

(** Every apply in the sequence keeps the default [backup=True]. *)
Definition default_backup (op : manager_op) : bool :=
  match op with
  | OpApply _ _ backup => backup
  | _ => true
  end.

(** ** The Python runtime as a parameter

    What [dir], [getattr], [hasattr], [setattr] and [delattr] do depends on
    the object: a module can define [__dir__] and [__getattr__] (PEP 562), and
    [sys.modules] can hold any object.  An import runs the code of the packages
    it loads, binds a loaded submodule on its parent package and can raise any
    exception, and so can running the replacement file.  For the statements
    that have to hold on every path through an apply or a restore, the patch
    manager is embedded over these operations as parameters. *)

(** The operations of the runtime that fixed_patch.py calls on module objects
    and on the import system. *)
Record Python := mkPython {
  py_import : string → M loc;
  py_exec : string → loc → M unit;
  py_dir : loc → M (list string);
  py_getattr : loc → string → M pyval;
  py_hasattr : loc → string → M bool;
  py_setattr : loc → string → pyval → M unit;
  py_delattr : loc → string → M unit
}.

(** Plain module objects and an import that only loads: the runtime of the
    sections above. *)
Definition plain (host : Host) : Python :=
  mkPython (import_module host) (exec_module host) dir getattr hasattr setattr delattr.

(** A computation that leaves the dictionaries of every patcher as they
    are. *)
Definition keeps_private {A} (c : M A) : Prop :=
  ∀ s, dicts (c s).2 = dicts s ∧ records (c s).2 = records s ∧ ledgers (c s).2 = ledgers s.

(** A runtime whose operations do not reach into the dictionaries of a
    patcher: the code they run has no reference to them. *)
Record frames (py : Python) : Prop := mkFrames {
  frames_import : ∀ path, keeps_private (py_import py path);
  frames_exec : ∀ f l, keeps_private (py_exec py f l);
  frames_dir : ∀ l, keeps_private (py_dir py l);
  frames_getattr : ∀ l name, keeps_private (py_getattr py l name);
  frames_hasattr : ∀ l name, keeps_private (py_hasattr py l name);
  frames_setattr : ∀ l name v, keeps_private (py_setattr py l name v);
  frames_delattr : ∀ l name, keeps_private (py_delattr py l name)
}.

(** fixed_patch.py, [TransformersRuntimePatcher], over a runtime [py]: the
    definitions of [Fixed], line for line, with the operations of [py]. *)
Module Protocol.

Section WithPython.

Context (host : Host) (py : Python).

Definition import_transformers : M unit :=
  transformers <- py_import py "transformers" ;;
  _ <- py_getattr py transformers "__version__" ;;
  ret tt.

Definition for_public_attrs (l : loc) (body : string → pyval → M unit) : M unit :=
  names <- py_dir py l ;;
  for_each names (λ attr_name,
    if negb (startswith_underscore attr_name)
    then v <- py_getattr py l attr_name ;; body attr_name v
    else ret tt).

Fixpoint apply_attrs (custom target : loc) (names : list string) (patch_count : nat) : M nat :=
  match names with
  | [] => ret patch_count
  | attr_name :: rest =>
      if negb (startswith_underscore attr_name)
      then v <- py_getattr py custom attr_name ;;
           py_setattr py target attr_name v ;;;
           apply_attrs custom target rest (patch_count + 1)
      else apply_attrs custom target rest patch_count
  end.

Definition transplant (custom target : loc) : M nat :=
  names <- py_dir py custom ;; apply_attrs custom target names 0.

Definition restore_attrs (target : loc) (backup : snapshot) : M unit :=
  for_each (map_to_list backup) (λ '(attr_name, original_value),
    py_setattr py target attr_name original_value).

Definition import_parents (module_path : string) : M unit :=
  let parent_modules := removelast (str_split "." module_path) in
  for_each (seq 0 (List.length parent_modules)) (λ i,
    let parent_path := String.concat "." (take (i + 1) parent_modules) in
    s <- get_state ;;
    if bool_decide (is_Some (sys_modules s !! parent_path)) then ret tt
    else
      except_ImportError
        (l <- py_import py parent_path ;;
         modify (set_sys_modules <[parent_path := l]>))
        (ret tt)).

Definition install_patch (self : Patcher) (module_path custom_file_path : string)
    (backup : bool) (target_module custom_module : loc) : M bool :=
  (if backup then
     ledger_setitem (backup_modules self) module_path ∅ ;;;
     for_public_attrs target_module (λ attr_name v,
       ledger_store (backup_modules self) module_path attr_name v)
   else ret tt) ;;;
  patch_count <- transplant custom_module target_module ;;
  py_setattr py target_module "_runtime_patched" (VBool true) ;;;
  py_setattr py target_module "_patch_source" (VStr custom_file_path) ;;;
  modify (set_sys_modules <[module_path := target_module]>) ;;;
  r <- new_record (mkRecord custom_file_path patch_count backup) ;;
  dict_setitem (applied_patches self) module_path r ;;;
  ret true.

Definition patch_module_from_file_body (self : Patcher)
    (module_path custom_file_path : string) (backup : bool) : M bool :=
  custom_exists <- path_exists host custom_file_path ;;
  if negb custom_exists then raise FileNotFoundError else
  except_ImportError import_transformers (raise ImportError) ;;;
  target_module <- except_ImportError (py_import py module_path) (raise ImportError) ;;
  if negb (host_loader_found host custom_file_path) then raise ImportError else
  custom_module <- module_from_spec ;;
  import_parents module_path ;;;
  try_except (py_exec py custom_file_path custom_module) (λ _, raise ImportError) ;;;
  install_patch self module_path custom_file_path backup target_module custom_module.

Definition patch_module_from_file (self : Patcher)
    (module_path custom_file_path : string) (backup : bool) : State → bool * State :=
  returning_False_on_exception (patch_module_from_file_body self module_path custom_file_path backup).

Definition restore_module_body (self : Patcher) (module_path : string) : M bool :=
  patched <- dict_contains (applied_patches self) module_path ;;
  if negb patched then ret false else
  r <- dict_getitem (applied_patches self) module_path ;;
  rec <- record_at r ;;
  if negb (backup_available rec) then ret false else
  s <- get_state ;;
  match sys_modules s !! module_path with
  | None => raise KeyError
  | Some target_module =>
      backup <- ledger_getitem (backup_modules self) module_path ;;
      restore_attrs target_module backup ;;;
      has_flag <- py_hasattr py target_module "_runtime_patched" ;;
      (if has_flag then py_delattr py target_module "_runtime_patched" else ret tt) ;;;
      has_source <- py_hasattr py target_module "_patch_source" ;;
      (if has_source then py_delattr py target_module "_patch_source" else ret tt) ;;;
      dict_delitem (applied_patches self) module_path ;;;
      ledger_delitem (backup_modules self) module_path ;;;
      ret true
  end.

Definition restore_module (self : Patcher) (module_path : string) : State → bool * State :=
  returning_False_on_exception (restore_module_body self module_path).

Fixpoint restore_each (self : Patcher) (paths : list string) (success : bool) : M bool :=
  match paths with
  | [] => ret success
  | module_path :: rest =>
      ok <- call (restore_module self module_path) ;;
      restore_each self rest (if negb ok then false else success)
  end.

Definition restore_all (self : Patcher) : M bool :=
  paths <- dict_keys (applied_patches self) ;;
  restore_each self paths true.

Definition verify_patch_body (module_path : string) : M bool :=
  s <- get_state ;;
  match sys_modules s !! module_path with
  | Some module => py_hasattr py module "_runtime_patched"
  | None => ret false
  end.

Definition verify_patch (module_path : string) : State → bool * State :=
  returning_False_on_exception (verify_patch_body module_path).

(** Sequences of public operations. *)
Definition run_op (self : Patcher) (op : manager_op) (s : State) : State :=
  match op with
  | OpApply module_path custom_file_path backup =>
      (patch_module_from_file self module_path custom_file_path backup s).2
  | OpRestore module_path => (restore_module self module_path s).2
  | OpRestoreAll => (restore_all self s).2
  | OpVerify module_path => (verify_patch module_path s).2
  | OpListPatches => (Fixed.list_patches self s).2
  end.

Definition run_ops (self : Patcher) (ops : list manager_op) (s : State) : State :=
  foldl (λ s op, run_op self op s) s ops.

End WithPython.

End Protocol.

(** ** What a caller can do with the mapping returned by [list_patches] *)

(** Operations on the returned dictionary itself. *)
Inductive mapping_op :=
  | MapSet (key : string) (r : loc)        (* d[key] = r *)
  | MapDel (key : string)                  (* del d[key] *)
  | MapClear.                              (* d.clear() *)

Definition run_mapping_op (d : loc) (op : mapping_op) : M unit :=
  match op with
  | MapSet key r => dict_setitem d key r
  | MapDel key => dict_delitem d key
  | MapClear => _ <- dict_at d ;; modify (set_dicts <[d := ∅]>)
  end.

(** [d[key]['patch_count'] = n]: an update of a record reached through the
    returned dictionary. *)
Definition set_patch_count (d : loc) (key : string) (n : nat) : M unit :=
  r <- dict_getitem d key ;;
  rec <- record_at r ;;
  modify (set_records <[r := mkRecord (source_file rec) n (backup_available rec)]>).

(** ** A concrete host and process *)

Module Scenario.

Definition target_ns : module :=
  <["foo" := VInt 1]> (<["bar" := VStr "x"]> (<["__name__" := VStr "pkg.mod"]> ∅)).

(** The replacement defines [foo = 2]. *)
Definition replacement_ns : module :=
  <["foo" := VInt 2]> (<["__name__" := VStr "custom_pkg_mod"]> ∅).

(** A replacement that also defines a name the target does not have. *)
Definition extended_ns : module :=
  <["foo" := VInt 2]> (<["baz" := VInt 3]> (<["__name__" := VStr "custom_pkg_mod"]> ∅)).

Definition host : Host :=
  mkHost
    (<["/patch/replacement.py" := "foo = 2"]>
       (<["/patch/extended.py" := "foo = 2; baz = 3"]> ∅))
    "/patch"
    (λ _, true)
    (λ text,
       if String.eqb text "foo = 2" then inr replacement_ns
       else if String.eqb text "foo = 2; baz = 3" then inr extended_ns
       else inl ExecError)
    (λ _, None)
    (λ _ _, false).

Definition world : State :=
  mkState
    (<["pkg.mod" := 1%positive]> (<["pkg" := 2%positive]> (<["transformers" := 3%positive]> ∅)))
    (<[1%positive := target_ns]>
       (<[2%positive := ∅]> (<[3%positive := <["__version__" := VStr "4.45.0"]> ∅]> ∅)))
    ∅ ∅ ∅.

Definition self : Patcher := (Fixed.init world).1.
Definition s0 : State := (Fixed.init world).2.

Definition apply (f : string) (s : State) : bool * State :=
  Fixed.patch_module_from_file host self "pkg.mod" f true s.

(** One apply; two applies in succession; apply then restore. *)
Definition s1 : State := (apply "/patch/replacement.py" s0).2.
Definition s2 : State := (apply "/patch/replacement.py" s1).2.
Definition s1_extended : State := (apply "/patch/extended.py" s0).2.
Definition s_restored : State := (Fixed.restore_module self "pkg.mod" s1_extended).2.

End Scenario.

(** A process in which a custom module has been loaded next to the target;
    its namespace holds a name it defines and two it imports. *)
Module Loaded.

Definition custom_ns : module :=
  <["MllamaProcessor" := VObj 10]>
    (<["BatchFeature" := VObj 11]> (<["os" := VObj 12]> (<["_logger" := VObj 13]> ∅))).

Definition target : loc := 1%positive.
Definition custom : loc := 4%positive.

Definition s : State := set_modules <[custom := custom_ns]> Scenario.s0.

End Loaded.

(** The relation between the two dictionaries of a patcher that every public
    operation keeps: both dictionaries exist, every record referred to exists,
    and a path whose record says [backup_available] has a backup.  With
    [strict], every record says [backup_available]. *)
Definition ledger_invariant (strict : bool) (self : Patcher) (s : State) : Prop :=
  ∃ (A : gmap string loc) (L : gmap string snapshot),
    dicts s !! applied_patches self = Some A ∧
    ledgers s !! backup_modules self = Some L ∧
    (∀ p rl, A !! p = Some rl → is_Some (records s !! rl)) ∧
    (∀ p rl rec, A !! p = Some rl → records s !! rl = Some rec →
                 backup_available rec = true → is_Some (L !! p)) ∧
    (strict = true →
     ∀ p rl rec, A !! p = Some rl → records s !! rl = Some rec →
                 backup_available rec = true).

(** A sequence with an apply that switches the backup off. *)
Module NoBackup.

Definition ops : list manager_op :=
  [OpApply "pkg.mod" "/patch/replacement.py" false].

Definition self : Patcher := (Fixed.init Scenario.world).1.

Definition s : State :=
  Protocol.run_ops Scenario.host (plain Scenario.host) self ops (Fixed.init Scenario.world).2.

End NoBackup.

(** A caller lists the patches of the patched process and writes into the
    record it finds in the returned dictionary. *)
Module Listing.

Definition d : loc := 2%positive.

Definition s_listed : State := (Fixed.list_patches Scenario.self Scenario.s1).2.

Definition s_mutated : State := (set_patch_count d "pkg.mod" 99 s_listed).2.

End Listing.

(** The mllama processor module and a replacement file next to the patch
    scripts.  The replacement's relative import only runs once it has been
    rewritten. *)
Module Mllama.

Definition original_ns : module :=
  <["MllamaProcessor" := VObj 1]>
    (<["make_list_of_images" := VObj 2]>
       (<["__name__" := VStr "transformers.models.mllama.processing_mllama"]> ∅)).

Definition custom_ns : module :=
  <["MllamaProcessor" := VObj 10]>
    (<["ImageInput" := VObj 11]> (<["__name__" := VStr "custom_processing_mllama"]> ∅)).

Definition source : string :=
  "from ...image_utils import ImageInput; class MllamaProcessor: pass".

Definition host : Host :=
  mkHost
    (<["/patch/processing_mllama.py" := source]> ∅)
    "/patch"
    (λ _, true)
    (λ text,
       if String.eqb text
            "from transformers.image_utils import ImageInput; class MllamaProcessor: pass"
       then inr custom_ns
       else inl ImportError)
    (λ _, None)
    (λ _ _, false).

(** A host on which the replacement has no relative import. *)
Definition host_plain : Host :=
  mkHost
    (<["/patch/processing_mllama.py" := "class MllamaProcessor: pass"]> ∅)
    "/patch"
    (λ _, true)
    (λ text,
       if String.eqb text "class MllamaProcessor: pass" then inr custom_ns
       else inl ImportError)
    (λ _, None)
    (λ _ _, false).

Definition s0 : State :=
  mkState
    (<[mllama_path := 1%positive]> (<["transformers" := 2%positive]> ∅))
    (<[1%positive := original_ns]>
       (<[2%positive := <["__version__" := VStr "4.45.0"]> ∅]> ∅))
    ∅ ∅ ∅.

Definition simple_once : State := (Simple.patch_mllama_processor_simple host s0).2.
Definition simple_twice : State := (Simple.patch_mllama_processor_simple host simple_once).2.
Definition simple_restored : State := (Simple.restore_mllama_processor_simple host simple_once).2.

Definition runtime_once : State := (Runtime.patch_mllama_processor host_plain s0).2.
Definition runtime_twice : State := (Runtime.patch_mllama_processor host_plain runtime_once).2.
Definition runtime_restored : State :=
  (Runtime.restore_original_processor host_plain runtime_once).2.

End Mllama.

(** The value bound to [name] on the module registered under [path]. *)
Definition live_attr (s : State) (path name : string) : option pyval :=
  match live_module s path with
  | Some m => m !! name
  | None => None
  end.

(** A [with] block on the fixed patcher whose body raises. *)
Module Scoped.

Definition body (patch_success : bool) (s : State) : Example.body_exit unit * State :=
  (Example.Raises ExecError, s).

Definition run : Example.body_exit unit * State :=
  Example.with_statement
    (Example.patched_mllama_processor
       Fixed.init (Fixed.patch_mllama_processor Mllama.host_plain) Fixed.restore_module None)
    body Mllama.s0.

End Scoped.

(** What [restore_module] needs to go through for a path: a record that
    says [backup_available], the module registered and present, and a snapshot. *)
Definition restorable (self : Patcher) (p : string) (s : State) : Prop :=
  ∃ (A : gmap string loc) rl rec target (t : module) (L : gmap string snapshot)
    (snap : snapshot),
    dicts s !! applied_patches self = Some A ∧ A !! p = Some rl ∧
    records s !! rl = Some rec ∧ backup_available rec = true ∧
    sys_modules s !! p = Some target ∧ modules s !! target = Some t ∧
    ledgers s !! backup_modules self = Some L ∧ L !! p = Some snap.

(** The target's namespace after [patch_mllama_processor_simple], from the
    namespace [t], with [c] the namespace of the custom module. *)
Definition simple_patched_namespace (c t : module) : module :=
  <["_backup" := VDict (public_part t)]>
    (<["_runtime_patched" := VBool true]> (public_part c ∪ t)).

(** The target's namespace after [restore_mllama_processor_simple]. *)
Definition simple_restored_namespace (backup t : module) : module :=
  delete "_backup" (delete "_runtime_patched" (backup ∪ t)).

(** What running the rewritten text of the default custom file yields. *)
Definition rewritten_namespace (host : Host) : option module :=
  host_files host !! default_custom_file host ≫= λ text,
  match host_run host (Simple.rewrite_imports text) with
  | inr c => Some c
  | inl _ => None
  end.

(** One turn of the loop of runtime_patch.py:43-49 on the namespace of the
    original module: the old value, if there is one, goes into
    [_original_backup], then the name is bound to the new value. *)
Definition runtime_step (n : module) (kv : string * pyval) : module :=
  match n !! kv.1, n !! "_original_backup" with
  | Some w, Some (VDict d) =>
      <[kv.1 := kv.2]> (<["_original_backup" := VDict (<[kv.1 := w]> d)]> n)
  | _, _ => <[kv.1 := kv.2]> n
  end.

(** What runtime_patch.py saves: the attributes of the target whose names are
    public names of the custom module. *)
Definition runtime_backup (c t : module) : module :=
  filter (λ kv, is_Some (public_part c !! kv.1)) t.

(** The target's namespace after [Runtime.patch_mllama_processor]. *)
Definition runtime_patched_namespace (c t : module) : module :=
  public_part c ∪ <["_original_backup" := VDict (runtime_backup c t)]> t.

(** ** The decorators and the example driver *)


Module Decorators.

Section WithHost.

Context (host : Host) {R : Type}.



End WithHost.

End Decorators.

Module CompleteExample.

(** complete_example.py:23-37, step 1 of [main]: the simple patch, and the
    patch manager's [patch_mllama_processor] of fixed_patch.py when the simple
    one fails.  The result says whether [main] goes on. *)
Definition apply_patch_step (host : Host) (global_patcher : Patcher) : State → bool * State :=
  returning_False_on_exception
    (simple_ok <- call (Simple.patch_mllama_processor_simple host) ;;
     if negb simple_ok then
       fixed_ok <- call (Fixed.patch_mllama_processor host global_patcher None) ;;
       if negb fixed_ok then ret false else ret true
     else ret true).

End CompleteExample.

(** The module-level patcher of fixed_patch.py on the mllama process, and a
    decorated function that raises. *)
Module Global.

Definition patcher : Patcher := (Fixed.init Mllama.s0).1.
Definition s0 : State := (Fixed.init Mllama.s0).2.



End Global.

(** A process in which the mllama processor module and its parent packages
    are loaded, and a replacement file next to the patch scripts that defines a
    class [MllamaProcessor] and nothing else. *)
Module Packaged.

Definition processor_ns : module :=
  <["MllamaProcessor" := VObj 1]>
    (<["make_list_of_images" := VObj 2]>
       (<["__name__" := VStr "transformers.models.mllama.processing_mllama"]> ∅)).

Definition replacement_ns : module :=
  <["MllamaProcessor" := VObj 10]> (<["__name__" := VStr "custom_processing_mllama"]> ∅).

Definition host : Host :=
  mkHost
    (<["/patch/processing_mllama.py" := "class MllamaProcessor: pass"]> ∅)
    "/patch"
    (λ _, true)
    (λ text,
       if String.eqb text "class MllamaProcessor: pass" then inr replacement_ns
       else inl ExecError)
    (λ _, None)
    (λ _ _, false).

Definition s0 : State :=
  mkState
    (<["transformers" := 1%positive]>
       (<["transformers.models" := 2%positive]>
          (<["transformers.models.mllama" := 3%positive]>
             (<[mllama_path := 4%positive]> ∅))))
    (<[1%positive := <["__name__" := VStr "transformers"]>
                       (<["__version__" := VStr "4.45.0"]> ∅)]>
       (<[2%positive := <["__name__" := VStr "transformers.models"]> ∅]>
          (<[3%positive := <["__name__" := VStr "transformers.models.mllama"]> ∅]>
             (<[4%positive := processor_ns]> ∅))))
    ∅ ∅ ∅.

Definition runtime_once : State := (Runtime.patch_mllama_processor host s0).2.

(** The module-level patcher of fixed_patch.py in this process. *)
Definition patcher : Patcher := (Fixed.init s0).1.
Definition started : State := (Fixed.init s0).2.

End Packaged.

(** ** Vocabulary of the statements about the import rewriter *)

(** No occurrence of [old] in [a ++ b] starts inside [a]. *)
Fixpoint no_match_in (old a b : string) : bool :=
  match a with
  | EmptyString => true
  | String _ a' => negb (startswith old (a ++ b)) && no_match_in old a' b
  end.

(** [old] neither occurs in [mid] nor can begin in it: no end part of [mid]
    begins with [old] or is itself a beginning of [old]. *)
Fixpoint clear_of (old mid : string) : bool :=
  match mid with
  | EmptyString => true
  | String _ mid' =>
      negb (startswith old mid) && negb (startswith mid old) && clear_of old mid'
  end.

(** simple_patch.py:36-55, the statements replaced and their replacements,
    in the order of the calls. *)
Definition rewritten_statements : list (string * string) :=
  [("from ...feature_extraction_utils import BatchFeature",
    "from transformers.feature_extraction_utils import BatchFeature");
   ("from ...image_utils import ImageInput",
    "from transformers.image_utils import ImageInput");
   ("from ...processing_utils import ImagesKwargs, ProcessingKwargs, ProcessorMixin, Unpack",
    "from transformers.processing_utils import ImagesKwargs, ProcessingKwargs, ProcessorMixin, Unpack");
   ("from ...tokenization_utils_base import",
    "from transformers.tokenization_utils_base import");
   ("from .image_processing_mllama import make_list_of_images",
    "from transformers.models.mllama.image_processing_mllama import make_list_of_images")].

(** ** A small program logic for the private dictionaries *)

Definition same_private (s0 s : State) : Prop :=
  dicts s = dicts s0 ∧ records s = records s0 ∧ ledgers s = ledgers s0.

Definition private_closed (P : State → Prop) : Prop :=
  ∀ s s', same_private s s' → P s → P s'.

Definition hoare {A} (P : State → Prop) (c : M A) (Q : Exn + A → State → Prop) : Prop :=
  ∀ s, P s → Q (c s).1 (c s).2.

(** The patcher's dictionaries after the backup step of an apply that
    started in [s0]. *)
Definition backed (self : Patcher) (p : string) (b : bool) (s0 s : State) : Prop :=
  if b then
    ∃ (L : gmap string snapshot) (snap : snapshot),
      ledgers s0 !! backup_modules self = Some L ∧
      ledgers s = <[backup_modules self := <[p := snap]> L]> (ledgers s0)
  else ledgers s = ledgers s0.

Definition staged (self : Patcher) (p : string) (b : bool) (s0 s : State) : Prop :=
  dicts s = dicts s0 ∧ records s = records s0 ∧ backed self p b s0 s.

(** What an apply that returns [False] can have done to the dictionaries,
    and what one that returns [True] has done. *)
Definition apply_failed (self : Patcher) (p : string) (b : bool) (s0 s1 : State) : Prop :=
  dicts s1 = dicts s0 ∧ records s1 = records s0 ∧
  (ledgers s1 = ledgers s0 ∨ (b = true ∧ backed self p true s0 s1)).

Definition apply_done (self : Patcher) (p f : string) (b : bool) (s0 s1 : State) : Prop :=
  ∃ (A : gmap string loc) rl n,
    dicts s0 !! applied_patches self = Some A ∧
    records s0 !! rl = None ∧
    dicts s1 = <[applied_patches self := <[p := rl]> A]> (dicts s0) ∧
    records s1 = <[rl := mkRecord f n b]> (records s0) ∧
    backed self p b s0 s1.

Definition restore_done (self : Patcher) (p : string) (s0 s1 : State) : Prop :=
  ∃ (A : gmap string loc) (L : gmap string snapshot) rl rec,
    dicts s0 !! applied_patches self = Some A ∧ A !! p = Some rl ∧
    records s0 !! rl = Some rec ∧ backup_available rec = true ∧
    ledgers s0 !! backup_modules self = Some L ∧ is_Some (L !! p) ∧
    dicts s1 = <[applied_patches self := delete p A]> (dicts s0) ∧
    records s1 = records s0 ∧
    ledgers s1 = <[backup_modules self := delete p L]> (ledgers s0).

(** [sorted(names)] *)
Fixpoint insert_sorted (x : string) (l : list string) : list string :=
  match l with
  | [] => [x]
  | y :: l' => if String.leb x y then x :: l else y :: insert_sorted x l'
  end.

Definition sorted (l : list string) : list string := foldr insert_sorted [] l.

(** [dir(mod)] for a module that can define [__dir__] (PEP 562): the names
    that function returns, sorted.  [call] gives what calling a function object
    returns. *)
Definition dir_pep562 (call : pyval → Exn + list string) (l : loc) : M (list string) :=
  m <- module_at l ;;
  match m !! "__dir__" with
  | Some f =>
      match call f with
      | inr names => ret (sorted names)
      | inl e => raise e
      end
  | None => ret (map_to_list m).*1
  end.

Definition pep562 (host : Host) (call : pyval → Exn + list string) : Python :=
  mkPython (import_module host) (exec_module host) (dir_pep562 call)
    getattr hasattr setattr delattr.

(** A replacement file that defines [__dir__], listing a name it does not
    bind, next to the replacement of the scenario. *)
Module Hooked.

Definition replacement_ns : module :=
  <["foo" := VInt 2]>
    (<["__dir__" := VObj 20]> (<["__name__" := VStr "custom_pkg_mod"]> ∅)).

Definition call (f : pyval) : Exn + list string :=
  match f with
  | VObj 20 => inr ["foo"; "ghost"]
  | _ => inl TypeError
  end.

Definition host : Host :=
  mkHost
    (<["/patch/replacement.py" := "foo = 2"]>
       (<["/patch/hooked.py" := "foo = 2; __dir__ = lambda: ['foo', 'ghost']"]> ∅))
    "/patch"
    (λ _, true)
    (λ text,
       if String.eqb text "foo = 2" then inr Scenario.replacement_ns
       else if String.eqb text "foo = 2; __dir__ = lambda: ['foo', 'ghost']"
            then inr replacement_ns
            else inl ExecError)
    (λ _, None)
    (λ _ _, false).

Definition python : Python := pep562 host call.

Definition self : Patcher := (Fixed.init Scenario.world).1.
Definition s0 : State := (Fixed.init Scenario.world).2.

(** An apply of the replacement whose [__dir__] lists a name it does not
    bind. *)
Definition failed : bool * State :=
  Protocol.patch_module_from_file host python self "pkg.mod" "/patch/hooked.py" true s0.

(** A successful apply, then that one, then [list_patches]. *)
Definition ops : list manager_op :=
  [OpApply "pkg.mod" "/patch/replacement.py" true;
   OpApply "pkg.mod" "/patch/hooked.py" true;
   OpListPatches].

End Hooked.

(** * Properties *)

(** ** The monad *)

Lemma bind_ok {A B} (c : M A) (k : A → M B) s a s1 :
  c s = (inr a, s1) → bind c k s = k a s1.
Proof. unfold bind. by intros ->. Qed.

Lemma bind_raise {A B} (c : M A) (k : A → M B) s e s1 :
  c s = (inl e, s1) → bind c k s = (inl e, s1).
Proof. unfold bind. by intros ->. Qed.

Lemma bind_inv {A B} (c : M A) (k : A → M B) s r s2 :
  bind c k s = (r, s2) →
  (∃ e, c s = (inl e, s2) ∧ r = inl e) ∨
  (∃ a s1, c s = (inr a, s1) ∧ k a s1 = (r, s2)).
Proof.
  unfold bind. destruct (c s) as [[e|a] s1]; intros H.
  - left. exists e. by inversion H.
  - right. by exists a, s1.
Qed.

Lemma bind_inr {A B} (c : M A) (k : A → M B) s b s2 :
  bind c k s = (inr b, s2) → ∃ a s1, c s = (inr a, s1) ∧ k a s1 = (inr b, s2).
Proof. intros H. apply bind_inv in H as [(e & _ & ?)|?]; [done|done]. Qed.

Lemma returning_true {body s s1} :
  returning_False_on_exception body s = (true, s1) → body s = (inr true, s1).
Proof.
  unfold returning_False_on_exception.
  destruct (body s) as [[e|b] s']; intros H; inversion H; by subst.
Qed.

Lemma state_eta s :
  mkState (sys_modules s) (modules s) (dicts s) (records s) (ledgers s) = s.
Proof. by destruct s. Qed.

(** ** Object primitives *)

Lemma module_at_ok l m s : modules s !! l = Some m → module_at l s = (inr m, s).
Proof. intros H. unfold module_at, bind, get_state, ret. by rewrite H. Qed.

Lemma getattr_ok l m name v s :
  modules s !! l = Some m → m !! name = Some v → getattr l name s = (inr v, s).
Proof.
  intros Hl Hn. unfold getattr. rewrite (bind_ok _ _ _ _ _ (module_at_ok _ _ _ Hl)).
  by rewrite Hn.
Qed.

Lemma setattr_ok l m name v s :
  modules s !! l = Some m →
  setattr l name v s = (inr tt, set_modules <[l := <[name := v]> m]> s).
Proof.
  intros Hl. unfold setattr. by rewrite (bind_ok _ _ _ _ _ (module_at_ok _ _ _ Hl)).
Qed.

Lemma hasattr_ok l m name s :
  modules s !! l = Some m →
  hasattr l name s = (inr (bool_decide (is_Some (m !! name))), s).
Proof.
  intros Hl. unfold hasattr. by rewrite (bind_ok _ _ _ _ _ (module_at_ok _ _ _ Hl)).
Qed.

Lemma dir_ok l m s :
  modules s !! l = Some m → dir l s = (inr (map_to_list m).*1, s).
Proof.
  intros Hl. unfold dir. by rewrite (bind_ok _ _ _ _ _ (module_at_ok _ _ _ Hl)).
Qed.

(** Removing a marker when it is there. *)
Lemma clear_marker_ok {B} l m name (k : M B) s :
  modules s !! l = Some m →
  (has <- hasattr l name ;; (if has then delattr l name else ret tt) ;;; k)%py s
  = k (set_modules <[l := delete name m]> s).
Proof.
  intros Hl. rewrite (bind_ok _ _ _ _ _ (hasattr_ok _ _ name _ Hl)).
  case_bool_decide as Hn.
  - destruct Hn as [v Hv].
    apply (bind_ok _ (λ _, k) _ tt). unfold delattr.
    rewrite (bind_ok _ _ _ _ _ (module_at_ok _ _ _ Hl)). by rewrite Hv.
  - apply eq_None_not_Some in Hn. rewrite delete_id by done.
    unfold set_modules. rewrite insert_id by done. by rewrite state_eta.
Qed.

Lemma set_modules_twice f g s : set_modules f (set_modules g s) = set_modules (f ∘ g) s.
Proof. done. Qed.

Lemma set_modules_insert_id l m s :
  modules s !! l = Some m → set_modules <[l := m]> s = s.
Proof. intros H. unfold set_modules. rewrite insert_id by done. apply state_eta. Qed.

(** ** The attribute loops *)

Lemma foldl_copy_public (l : list (string * pyval)) (t : module) :
  NoDup l.*1 →
  foldl copy_public t l = list_to_map (filter (λ kv, is_public kv.1 = true) l) ∪ t.
Proof.
  revert t. induction l as [|[k v] l IH]; intros t Hnd; simpl.
  - by rewrite (left_id_L ∅ (∪)).
  - inversion Hnd as [|?? Hk Hnd']; subst. rewrite IH by done.
    unfold copy_public; simpl. rewrite filter_cons. simpl.
    destruct (is_public k) eqn:Hp; case_decide; try done; simpl.
    + rewrite <- insert_union_r, insert_union_l; [done|].
      apply not_elem_of_list_to_map_1. intros Hin. apply Hk.
      apply list_elem_of_fmap in Hin as (kv & -> & Hin).
      apply list_elem_of_fmap. exists kv. split; [done|].
      by apply list_elem_of_filter in Hin as [_ ?].
Qed.

Lemma foldl_copy_public_map (c t : module) :
  foldl copy_public t (map_to_list c) = public_part c ∪ t.
Proof.
  rewrite foldl_copy_public by apply NoDup_fst_map_to_list.
  unfold public_part. by rewrite map_filter_alt.
Qed.

Lemma count_public_map (c : module) :
  List.length (filter (λ kv : string * pyval, is_public kv.1 = true) (map_to_list c))
  = size (public_part c).
Proof.
  unfold public_part. rewrite map_filter_alt, map_size_list_to_map; [done|].
  eapply NoDup_fmap_fst.
  - intros k v1 v2 [_ H1]%list_elem_of_filter [_ H2]%list_elem_of_filter.
    apply elem_of_map_to_list in H1, H2. congruence.
  - apply NoDup_filter, NoDup_map_to_list.
Qed.

Lemma foldl_insert_map (b t : module) :
  foldl (λ acc kv, <[kv.1 := kv.2]> acc) t (map_to_list b) = b ∪ t.
Proof.
  rewrite <- (list_to_map_to_list b) at 2.
  pose proof (NoDup_fst_map_to_list b) as Hnd.
  revert t Hnd. induction (map_to_list b) as [|[k v] l IH]; intros t Hnd; simpl.
  - by rewrite (left_id_L ∅ (∪)).
  - inversion Hnd as [|?? Hk Hnd']; subst. rewrite IH by done.
    rewrite <- insert_union_r, insert_union_l; [done|].
    by apply not_elem_of_list_to_map_1.
Qed.

Lemma apply_attrs_ok custom target (c : module) (l : list (string * pyval)) :
  custom ≠ target →
  (∀ k v, (k, v) ∈ l → c !! k = Some v) →
  ∀ t patch_count s,
    modules s !! custom = Some c →
    modules s !! target = Some t →
    apply_attrs custom target l.*1 patch_count s
    = (inr (patch_count + List.length (filter (λ kv, is_public kv.1 = true) l)),
       set_modules <[target := foldl copy_public t l]> s).
Proof.
  intros Hne. induction l as [|[k v] l IH]; intros Hl t n s Hc Ht; simpl.
  - rewrite Nat.add_0_r. by rewrite set_modules_insert_id.
  - rewrite filter_cons. unfold copy_public at 2. simpl.
    assert (c !! k = Some v) as Hk by (apply Hl; left).
    assert (∀ k v, (k, v) ∈ l → c !! k = Some v) as Hl' by (intros; apply Hl; by right).
    destruct (is_public k) eqn:Hp; unfold is_public in Hp; simpl.
    + rewrite Hp.
      rewrite (bind_ok _ _ _ _ _ (getattr_ok _ _ _ _ _ Hc Hk)).
      rewrite (bind_ok _ _ _ _ _ (setattr_ok _ _ _ _ _ Ht)).
      rewrite (IH Hl' (<[k := v]> t)); simpl.
      * rewrite set_modules_twice. unfold set_modules; simpl.
        rewrite insert_insert_eq. do 2 f_equal. lia.
      * by rewrite lookup_insert_ne.
      * by rewrite lookup_insert_eq.
    + rewrite Hp. by apply IH.
Qed.

Lemma transplant_ok custom target (c t : module) s :
  custom ≠ target →
  modules s !! custom = Some c →
  modules s !! target = Some t →
  transplant custom target s
  = (inr (size (public_part c)), set_modules <[target := public_part c ∪ t]> s).
Proof.
  intros Hne Hc Ht. unfold transplant.
  rewrite (bind_ok _ _ _ _ _ (dir_ok _ _ _ Hc)).
  assert (∀ k v, (k, v) ∈ map_to_list c → c !! k = Some v) as Hl
    by (by intros ?? ?%elem_of_map_to_list).
  rewrite (apply_attrs_ok custom target c _ Hne Hl t 0 s Hc Ht).
  by rewrite foldl_copy_public_map, count_public_map.
Qed.

Lemma restore_loop_ok target (l : list (string * pyval)) :
  ∀ t s,
    modules s !! target = Some t →
    for_each l (λ '(attr_name, original_value), setattr target attr_name original_value) s
    = (inr tt, set_modules <[target := foldl (λ acc kv, <[kv.1 := kv.2]> acc) t l]> s).
Proof.
  induction l as [|[k v] l IH]; intros t s Ht; simpl.
  - by rewrite set_modules_insert_id.
  - rewrite (bind_ok _ _ _ _ _ (setattr_ok _ _ _ _ _ Ht)).
    rewrite (IH (<[k := v]> t)); simpl.
    + rewrite set_modules_twice. unfold set_modules; simpl. by rewrite insert_insert_eq.
    + by rewrite lookup_insert_eq.
Qed.

Lemma restore_attrs_ok target (backup t : module) s :
  modules s !! target = Some t →
  restore_attrs target backup s = (inr tt, set_modules <[target := backup ∪ t]> s).
Proof.
  intros Ht. unfold restore_attrs. rewrite (restore_loop_ok _ _ t) by done.
  by rewrite foldl_insert_map.
Qed.

Lemma ledger_store_ok b path name v (L : gmap string snapshot) (snap : snapshot) s :
  ledgers s !! b = Some L → L !! path = Some snap →
  ledger_store b path name v s
  = (inr tt, set_ledgers <[b := <[path := <[name := v]> snap]> L]> s).
Proof.
  intros Hb Hp. unfold ledger_store, ledger_getitem, ledger_setitem, ledger_at,
    bind, get_state, ret, modify. by rewrite Hb, Hp, Hb.
Qed.

Lemma ledger_loop_ok target b path (t : module) (l : list (string * pyval)) :
  (∀ k v, (k, v) ∈ l → t !! k = Some v) →
  ∀ (L : gmap string snapshot) (snap : snapshot) s,
    modules s !! target = Some t →
    ledgers s !! b = Some L → L !! path = Some snap →
    for_each l.*1 (λ attr_name,
      if negb (startswith_underscore attr_name)
      then (v <- getattr target attr_name ;; ledger_store b path attr_name v)%py
      else ret tt) s
    = (inr tt, set_ledgers <[b := <[path := foldl copy_public snap l]> L]> s).
Proof.
  induction l as [|[k v] l IH]; intros Hl L snap s Ht Hb Hp; simpl.
  - unfold ret, set_ledgers. rewrite (insert_id L), insert_id by done.
    by rewrite state_eta.
  - assert (t !! k = Some v) as Hk by (apply Hl; left).
    assert (∀ k v, (k, v) ∈ l → t !! k = Some v) as Hl' by (intros; apply Hl; by right).
    unfold copy_public at 2. simpl.
    destruct (is_public k) eqn:Hpub; unfold is_public in Hpub; rewrite Hpub.
    + erewrite bind_ok; last first.
      { rewrite (bind_ok _ _ _ _ _ (getattr_ok _ _ _ _ _ Ht Hk)).
        by apply ledger_store_ok. }
      rewrite (IH Hl' (<[path := <[k := v]> snap]> L) (<[k := v]> snap)); simpl.
      * unfold set_ledgers; simpl. by rewrite !insert_insert_eq.
      * done.
      * by rewrite lookup_insert_eq.
      * by rewrite lookup_insert_eq.
    + erewrite bind_ok; [|done]. by apply IH.
Qed.

Lemma ledger_backup_ok target b path (t : module) (L : gmap string snapshot) s :
  modules s !! target = Some t →
  ledgers s !! b = Some L →
  (ledger_setitem b path ∅ ;;;
   for_public_attrs target (λ attr_name v, ledger_store b path attr_name v))%py s
  = (inr tt, set_ledgers <[b := <[path := public_part t]> L]> s).
Proof.
  intros Ht Hb.
  erewrite bind_ok; last first.
  { unfold ledger_setitem, ledger_at, bind, get_state, ret, modify. by rewrite Hb. }
  unfold for_public_attrs.
  erewrite bind_ok; last by apply dir_ok.
  rewrite (ledger_loop_ok target b path t _
             (λ k v H, proj1 (elem_of_map_to_list _ _ _) H)
             (<[path := ∅]> L) ∅); simpl.
  - rewrite foldl_copy_public_map, (right_id_L ∅ (∪)).
    unfold set_ledgers; simpl. by rewrite !insert_insert_eq.
  - done.
  - by rewrite lookup_insert_eq.
  - by rewrite lookup_insert_eq.
Qed.

(** ** fixed_patch.py: the install step *)

Lemma new_record_ok r s :
  new_record r s
  = (inr (fresh (dom (records s))), set_records <[fresh (dom (records s)) := r]> s).
Proof. reflexivity. Qed.

Lemma new_module_ok m s :
  new_module m s
  = (inr (fresh (dom (modules s))), set_modules <[fresh (dom (modules s)) := m]> s).
Proof. reflexivity. Qed.

Lemma new_dict_ok m s :
  new_dict m s
  = (inr (fresh (dom (dicts s))), set_dicts <[fresh (dom (dicts s)) := m]> s).
Proof. reflexivity. Qed.

Lemma install_patch_ok self p f b target custom (c t : module) s :
  custom ≠ target →
  modules s !! target = Some t →
  modules s !! custom = Some c →
  (b = true → is_Some (ledgers s !! backup_modules self)) →
  Fixed.install_patch self p f b target custom s
  = match dicts s !! applied_patches self with
    | Some A =>
        (inr true,
         set_dicts <[applied_patches self := <[p := fresh (dom (records s))]> A]>
           (installed self p f b target c t s))
    | None => (inl SystemError, installed self p f b target c t s)
    end.
Proof.
  intros Hne Ht Hc Hb. unfold Fixed.install_patch.
  set (s1 := if b then set_ledgers <[backup_modules self :=
                <[p := public_part t]> (backup_ledger self s)]> s else s).
  assert (modules s1 = modules s ∧ sys_modules s1 = sys_modules s ∧
          dicts s1 = dicts s ∧ records s1 = records s) as (Hm & Hsys & Hd & Hr)
    by (unfold s1; by destruct b).
  erewrite (bind_ok _ _ s tt s1); last first.
  { unfold s1. destruct b; [|done].
    destruct (Hb eq_refl) as [L HL]. unfold backup_ledger. rewrite HL. simpl.
    by apply ledger_backup_ok. }
  erewrite bind_ok; last first.
  { apply (transplant_ok custom target c t); [done|by rewrite Hm..]. }
  erewrite bind_ok; last first.
  { eapply setattr_ok. simpl. by rewrite lookup_insert_eq. }
  erewrite bind_ok; last first.
  { eapply setattr_ok. simpl. by rewrite lookup_insert_eq. }
  erewrite bind_ok; last reflexivity.
  erewrite bind_ok; last apply new_record_ok.
  unfold dict_setitem, dict_at, bind, get_state, ret, raise, modify. simpl.
  rewrite Hd.
  assert (set_sys_modules <[p:=target]>
            (set_modules <[target:=<["_patch_source":=VStr f]>
                 (<["_runtime_patched":=VBool true]> (public_part c ∪ t))]>
               (set_modules <[target:=<["_runtime_patched":=VBool true]> (public_part c ∪ t)]>
                  (set_modules <[target:=public_part c ∪ t]> s1)))
          = mkState (<[p := target]> (sys_modules s))
              (<[target := patched_namespace f c t]> (modules s))
              (dicts s) (records s) (ledgers s1)) as ->.
  { unfold set_sys_modules, set_modules; simpl.
    rewrite Hsys, Hm, Hd, Hr, !insert_insert_eq. done. }
  assert (ledgers s1 = if b then <[backup_modules self :=
            <[p := public_part t]> (backup_ledger self s)]> (ledgers s) else ledgers s)
    as -> by (unfold s1; by destruct b).
  simpl. rewrite Hr. by destruct (dicts s !! applied_patches self).
Qed.

Lemma install_patch_no_ledger self p f target custom s :
  ledgers s !! backup_modules self = None →
  Fixed.install_patch self p f true target custom s = (inl SystemError, s).
Proof.
  intros Hb. unfold Fixed.install_patch.
  apply bind_raise, bind_raise.
  unfold ledger_setitem, ledger_at, bind, get_state, raise. by rewrite Hb.
Qed.

(** ** Imports only add *)

Lemma grows_refl s : grows s s.
Proof. by unfold grows. Qed.

Lemma grows_trans s1 s2 s3 : grows s1 s2 → grows s2 s3 → grows s1 s3.
Proof.
  intros (? & ? & ? & ? & ?) (? & ? & ? & ? & ?).
  unfold grows. split_and!; try congruence; by etrans.
Qed.

Lemma grows_new_module m s : grows s (set_modules <[fresh (dom (modules s)) := m]> s).
Proof.
  unfold grows; simpl. split_and!; try done.
  apply insert_subseteq, not_elem_of_dom, is_fresh.
Qed.

Lemma grows_live_module s s' path m :
  grows s s' → live_module s path = Some m → live_module s' path = Some m.
Proof.
  intros (Hsys & Hm & _) H. unfold live_module in *.
  destruct (sys_modules s !! path) as [l|] eqn:Hl; [|done]. simpl in H.
  rewrite (lookup_weaken _ _ _ _ Hl Hsys). simpl.
  by apply (lookup_weaken _ _ _ _ H Hm).
Qed.

Lemma import_module_inv host path s r s1 :
  import_module host path s = (r, s1) →
  match r with
  | inl _ => s1 = s
  | inr l => grows s s1 ∧ sys_modules s1 !! path = Some l ∧ is_Some (modules s1 !! l)
  end.
Proof.
  unfold import_module, bind, get_state. simpl.
  destruct (sys_modules s !! path) as [l|] eqn:Hl.
  - unfold module_at, bind, get_state, ret, raise.
    destruct (modules s !! l) eqn:Hm; intros [= <- <-]; [|done].
    split_and!; [apply grows_refl|done|by rewrite Hm].
  - destruct (host_importable host path) as [m|]; [|by intros [= <- <-]].
    unfold ret. intros [= <- <-]. simpl.
    split_and!.
    + eapply grows_trans; [apply (grows_new_module m)|].
      unfold grows; simpl. split_and!; try done. by apply insert_subseteq.
    + by rewrite lookup_insert_eq.
    + rewrite lookup_insert_eq. by eexists.
Qed.

Lemma import_guard_inv host path s r s1 :
  except_ImportError (import_module host path) (raise ImportError) s = (r, s1) →
  match r with
  | inl _ => s1 = s
  | inr l => grows s s1 ∧ sys_modules s1 !! path = Some l ∧ is_Some (modules s1 !! l)
  end.
Proof.
  unfold except_ImportError, try_except.
  destruct (import_module host path s) as [[e|l] s'] eqn:H;
    apply import_module_inv in H.
  - subst s'. destruct e; by intros [= <- <-].
  - by intros [= <- <-].
Qed.

Lemma import_transformers_grows host s r s1 :
  except_ImportError (import_transformers host) (raise ImportError) s = (r, s1) →
  grows s s1.
Proof.
  unfold except_ImportError, try_except, import_transformers.
  destruct (bind _ _ s) as [[e|[]] s'] eqn:H.
  - assert (grows s s') as Hg.
    { apply bind_inv in H as [(e' & H & _)|(l & s2 & H & H')].
      - apply import_module_inv in H as ->. apply grows_refl.
      - apply import_module_inv in H as (Hg & _).
        unfold getattr, module_at, bind, get_state, ret, raise in H'.
        destruct (modules s2 !! l) as [m|]; [destruct (m !! "__version__")|];
          by simplify_eq. }
    destruct e; by intros [= <- <-].
  - intros [= <- <-].
    apply bind_inr in H as (l & s2 & H & H').
    apply import_module_inv in H as (Hg & _).
    unfold getattr, module_at, bind, get_state, ret, raise in H'.
    destruct (modules s2 !! l) as [m|]; [destruct (m !! "__version__")|];
      by simplify_eq.
Qed.

Lemma for_each_grows {A} (body : A → M unit) (l : list A) :
  (∀ x s r s1, body x s = (r, s1) → grows s s1) →
  ∀ s r s1, for_each l body s = (r, s1) → grows s s1.
Proof.
  intros Hbody. induction l as [|x l IH]; intros s r s1; simpl.
  - intros [= <- <-]. apply grows_refl.
  - intros [(e & H & _)|(a & s' & H & Hrest)]%bind_inv.
    + by eapply Hbody.
    + eapply grows_trans; [by eapply Hbody|by eapply IH].
Qed.

Lemma import_parents_grows host path s r s1 :
  Fixed.import_parents host path s = (r, s1) → grows s s1.
Proof.
  unfold Fixed.import_parents. apply for_each_grows.
  clear. intros i s r s1. unfold bind at 1, get_state.
  case_bool_decide as Hin; [intros [= <- <-]; apply grows_refl|].
  unfold except_ImportError, try_except.
  destruct (bind _ _ s) as [[e|[]] s'] eqn:H.
  - apply bind_inv in H as [(e' & H & _)|(l & s2 & H & H')].
    + apply import_module_inv in H. subst s'.
      destruct e; intros [= <- <-]; apply grows_refl.
    + by unfold modify in H'.
  - apply bind_inr in H as (l & s2 & H & [= <-]).
    apply import_module_inv in H as (Hg & Hl & _).
    intros [= <- <-]. eapply grows_trans; [done|].
    unfold grows; simpl. split_and!; try done. by rewrite insert_id.
Qed.

Lemma exec_module_inv host f l s r s1 :
  exec_module host f l s = (r, s1) →
  match r with
  | inl _ => s1 = s
  | inr _ => ∃ c, custom_namespace host f = Some c ∧ is_Some (modules s !! l) ∧
                  s1 = set_modules <[l := c]> s
  end.
Proof.
  unfold exec_module, read_file, exec_text, custom_namespace.
  destruct (host_files host !! f) as [text|]; simpl.
  - unfold bind at 1, ret. destruct (host_run host text) as [e|c].
    + by intros [= <- <-].
    + unfold module_at, bind, get_state, ret, raise, modify.
      destruct (modules s !! l) eqn:Hl; intros [= <- <-]; [|done].
      exists c. split_and!; [done|by eexists|done].
  - unfold bind, raise. by intros [= <- <-].
Qed.

(** ** fixed_patch.py: [patch_module_from_file] *)

(** Either the loading steps fail, and the state has only grown, or they
    yield the target and the executed custom module, and the outcome is that
    of the install step. *)
Lemma patch_body_inv host self p f b s r s1 :
  Fixed.patch_module_from_file_body host self p f b s = (r, s1) →
  (∃ e, r = inl e ∧ grows s s1 ∧ (host_files host !! f = None → s1 = s)) ∨
  (∃ s' target custom t c,
     grows s s' ∧ sys_modules s' !! p = Some target ∧
     modules s' !! target = Some t ∧ modules s' !! custom = Some c ∧
     custom ≠ target ∧ custom_namespace host f = Some c ∧
     Fixed.install_patch self p f b target custom s' = (r, s1)).
Proof.
  unfold Fixed.patch_module_from_file_body, path_exists.
  unfold bind at 1, ret at 1.
  case_bool_decide as Hf; simpl.
  2:{ intros [= <- <-]. left. eexists. split_and!; [done|apply grows_refl|done]. }
  assert (host_files host !! f ≠ None) as Hf' by (by apply not_eq_None_Some).
  intros [(e & H & ->)|(tr & sA & HA & H)]%bind_inv.
  { apply import_transformers_grows in H. left. by eexists. }
  apply import_transformers_grows in HA as HgA.
  apply bind_inv in H as [(e & H & ->)|(target & sB & HB & H)].
  { apply import_guard_inv in H as ->. left. by eexists. }
  apply import_guard_inv in HB as (HgB & Hp & [t Ht]).
  destruct (host_loader_found host f); simpl in H.
  2:{ injection H as <- <-. left. eexists.
      split_and!; [done|by eapply grows_trans|done]. }
  unfold module_from_spec in H. unfold bind at 1 in H. rewrite new_module_ok in H.
  set (custom := fresh (dom (modules sB))) in *.
  set (sC := set_modules <[custom := ∅]> sB) in *.
  assert (modules sB !! custom = None) as Hfresh by apply not_elem_of_dom, is_fresh.
  assert (grows sB sC) as HgC by apply grows_new_module.
  apply bind_inv in H as [(e & H & ->)|([] & sD & HD & H)].
  { apply import_parents_grows in H. left. eexists.
    split_and!; [done|by repeat (eapply grows_trans; [eassumption|])|done]. }
  apply import_parents_grows in HD as HgD.
  assert (grows sB sD) as HgBD by (by eapply grows_trans).
  apply bind_inv in H as [(e & H & ->)|([] & sE & HE & H)].
  { unfold try_except in H.
    destruct (exec_module host f custom sD) as [[e'|[]] s'] eqn:Hex; [|done].
    apply exec_module_inv in Hex as ->. injection H as <- <-. left. eexists.
    split_and!; [done|by repeat (eapply grows_trans; [eassumption|])|done]. }
  unfold try_except in HE.
  destruct (exec_module host f custom sD) as [[e'|[]] s'] eqn:Hex; [done|].
  injection HE as ->.
  apply exec_module_inv in Hex as (c & Hc & _ & ->).
  assert (custom ≠ target) as Hne by (intros ->; congruence).
  destruct HgBD as (HsysBD & HmBD & HdBD & HrBD & HlBD).
  right. exists (set_modules <[custom := c]> sD), target, custom, t, c.
  split_and!; simpl; try done.
  - eapply grows_trans; [by eapply grows_trans|].
    unfold grows; simpl. split_and!; try done.
    apply map_subseteq_spec. intros l m Hl.
    rewrite lookup_insert_ne by (intros <-; congruence).
    by apply (lookup_weaken _ _ _ _ Hl HmBD).
  - by apply (lookup_weaken _ _ _ _ Hp HsysBD).
  - rewrite lookup_insert_ne by done. by apply (lookup_weaken _ _ _ _ Ht HmBD).
  - by rewrite lookup_insert_eq.
Qed.

Lemma patch_success host self p f b s s1 :
  Fixed.patch_module_from_file host self p f b s = (true, s1) →
  ∃ s' target custom t c A,
    grows s s' ∧ sys_modules s' !! p = Some target ∧
    modules s' !! target = Some t ∧ modules s' !! custom = Some c ∧
    custom ≠ target ∧ custom_namespace host f = Some c ∧
    dicts s !! applied_patches self = Some A ∧
    (b = true → is_Some (ledgers s !! backup_modules self)) ∧
    s1 = set_dicts <[applied_patches self := <[p := fresh (dom (records s))]> A]>
           (installed self p f b target c t s').
Proof.
  intros H%returning_true.
  apply patch_body_inv in H as [(e & ? & _)|H]; [done|].
  destruct H as (s' & target & custom & t & c & Hg & Hp & Ht & Hc & Hne & Hns & H).
  pose proof Hg as (_ & _ & Hd & Hr & Hl).
  assert (b = true → is_Some (ledgers s' !! backup_modules self)) as Hb.
  { intros ->. destruct (ledgers s' !! backup_modules self) eqn:HL; [by eexists|].
    by rewrite install_patch_no_ledger in H. }
  rewrite (install_patch_ok self p f b target custom c t) in H by done.
  rewrite Hd, Hr in H.
  destruct (dicts s !! applied_patches self) as [A|] eqn:HA; [|done].
  injection H as <-. rewrite Hl in Hb.
  by exists s', target, custom, t, c, A.
Qed.

(** ** fixed_patch.py: [restore_module] *)

Lemma restore_attrs_dangling target (backup : snapshot) s r s1 :
  modules s !! target = None →
  restore_attrs target backup s = (r, s1) → s1 = s.
Proof.
  intros Ht. unfold restore_attrs.
  destruct (map_to_list backup) as [|[k v] l]; simpl; [by intros [= <- <-]|].
  unfold setattr, module_at, bind, get_state, raise. rewrite Ht. by intros [= <- <-].
Qed.

Lemma bind_get_state {B} (k : State → M B) s : bind get_state k s = k s s.
Proof. done. Qed.

Lemma dict_contains_ok d key (A : gmap string loc) s :
  dicts s !! d = Some A →
  dict_contains d key s = (inr (bool_decide (is_Some (A !! key))), s).
Proof. intros H. unfold dict_contains, dict_at, bind, get_state, ret. by rewrite H. Qed.

Lemma dict_contains_dangling d key s :
  dicts s !! d = None → dict_contains d key s = (inl SystemError, s).
Proof. intros H. unfold dict_contains, dict_at, bind, get_state, raise. by rewrite H. Qed.

Lemma dict_getitem_ok d key (A : gmap string loc) r s :
  dicts s !! d = Some A → A !! key = Some r → dict_getitem d key s = (inr r, s).
Proof. intros H Hk. unfold dict_getitem, dict_at, bind, get_state, ret. by rewrite H, Hk. Qed.

Lemma dict_delitem_ok d key (A : gmap string loc) r s :
  dicts s !! d = Some A → A !! key = Some r →
  dict_delitem d key s = (inr tt, set_dicts <[d := delete key A]> s).
Proof.
  intros H Hk. unfold dict_delitem, dict_at, bind, get_state, ret, modify.
  by rewrite H, Hk.
Qed.

Lemma record_at_ok l rec s : records s !! l = Some rec → record_at l s = (inr rec, s).
Proof. intros H. unfold record_at, bind, get_state, ret. by rewrite H. Qed.

Lemma record_at_dangling l s : records s !! l = None → record_at l s = (inl SystemError, s).
Proof. intros H. unfold record_at, bind, get_state, raise. by rewrite H. Qed.

Lemma ledger_getitem_ok b path (L : gmap string snapshot) snap s :
  ledgers s !! b = Some L → L !! path = Some snap →
  ledger_getitem b path s = (inr snap, s).
Proof.
  intros H Hk. unfold ledger_getitem, ledger_at, bind, get_state, ret. by rewrite H, Hk.
Qed.

Lemma ledger_getitem_missing b path s :
  ledgers s !! b ≫= (λ L, L !! path) = None →
  ∃ e, ledger_getitem b path s = (inl e, s).
Proof.
  unfold ledger_getitem, ledger_at, bind, get_state, ret, raise.
  destruct (ledgers s !! b) as [L|]; simpl; [|by eexists].
  intros ->. by eexists.
Qed.

Lemma ledger_delitem_ok b path (L : gmap string snapshot) snap s :
  ledgers s !! b = Some L → L !! path = Some snap →
  ledger_delitem b path s = (inr tt, set_ledgers <[b := delete path L]> s).
Proof.
  intros H Hk. unfold ledger_delitem, ledger_at, bind, get_state, ret, modify.
  by rewrite H, Hk.
Qed.

Lemma hasattr_dangling l name s :
  modules s !! l = None → hasattr l name s = (inl SystemError, s).
Proof. intros H. unfold hasattr, module_at, bind, get_state, raise. by rewrite H. Qed.

Lemma restore_body_inv self p s r s1 :
  Fixed.restore_module_body self p s = (r, s1) →
  (s1 = s ∧ r ≠ inr true) ∨
  (∃ A rl rec target t L snap,
     dicts s !! applied_patches self = Some A ∧ A !! p = Some rl ∧
     records s !! rl = Some rec ∧ backup_available rec = true ∧
     sys_modules s !! p = Some target ∧ modules s !! target = Some t ∧
     ledgers s !! backup_modules self = Some L ∧ L !! p = Some snap ∧
     r = inr true ∧ s1 = restored self p target snap t s).
Proof.
  unfold Fixed.restore_module_body.
  destruct (dicts s !! applied_patches self) as [A|] eqn:HA.
  2:{ rewrite (bind_raise _ _ _ _ _ (dict_contains_dangling _ _ _ HA)).
      intros [= <- <-]. by left. }
  rewrite (bind_ok _ _ _ _ _ (dict_contains_ok _ p _ _ HA)).
  case_bool_decide as Hin; simpl; [|intros [= <- <-]; by left].
  destruct Hin as [rl Hrl].
  rewrite (bind_ok _ _ _ _ _ (dict_getitem_ok _ _ _ _ _ HA Hrl)).
  destruct (records s !! rl) as [rec|] eqn:Hrec.
  2:{ rewrite (bind_raise _ _ _ _ _ (record_at_dangling _ _ Hrec)).
      intros [= <- <-]. by left. }
  rewrite (bind_ok _ _ _ _ _ (record_at_ok _ _ _ Hrec)).
  destruct (backup_available rec) eqn:Hav; simpl; [|intros [= <- <-]; by left].
  rewrite bind_get_state.
  destruct (sys_modules s !! p) as [target|] eqn:Hp; [|intros [= <- <-]; by left].
  destruct (ledgers s !! backup_modules self ≫= (λ L, L !! p)) as [snap|] eqn:Hsnap.
  2:{ destruct (ledger_getitem_missing _ _ _ Hsnap) as [e He].
      rewrite (bind_raise _ _ _ _ _ He). intros [= <- <-]. by left. }
  destruct (ledgers s !! backup_modules self) as [L|] eqn:HL; [|done].
  simpl in Hsnap.
  rewrite (bind_ok _ _ _ _ _ (ledger_getitem_ok _ _ _ _ _ HL Hsnap)).
  destruct (modules s !! target) as [t|] eqn:Ht.
  - rewrite (bind_ok _ _ _ _ _ (restore_attrs_ok _ snap _ _ Ht)).
    erewrite clear_marker_ok by (simpl; by rewrite lookup_insert_eq).
    erewrite clear_marker_ok by (simpl; by rewrite lookup_insert_eq).
    erewrite bind_ok; last by eapply dict_delitem_ok.
    erewrite bind_ok; last by eapply ledger_delitem_ok.
    intros [= <- <-].
    right. exists A, rl, rec, target, t, L, snap. split_and!; try done.
    unfold restored, restored_namespace, record_refs, backup_ledger,
      set_dicts, set_ledgers, set_modules; simpl.
    rewrite HA, HL; simpl. by rewrite !insert_insert_eq.
  - intros [(e & H & ->)|([] & s2 & H & H')]%bind_inv.
    + apply restore_attrs_dangling in H; [by left|done].
    + apply restore_attrs_dangling in H as ->; [|done].
      rewrite (bind_raise _ _ _ _ _ (hasattr_dangling _ _ _ Ht)) in H'.
      injection H' as <- <-. by left.
Qed.

Lemma restore_success self p s s1 :
  Fixed.restore_module self p s = (true, s1) →
  ∃ A rl rec target t L snap,
    dicts s !! applied_patches self = Some A ∧ A !! p = Some rl ∧
    records s !! rl = Some rec ∧ backup_available rec = true ∧
    sys_modules s !! p = Some target ∧ modules s !! target = Some t ∧
    ledgers s !! backup_modules self = Some L ∧ L !! p = Some snap ∧
    s1 = restored self p target snap t s.
Proof.
  intros H%returning_true. apply restore_body_inv in H as [[_ ?]|H]; [done|].
  destruct H as (A & rl & rec & target & t & L & snap & H).
  exists A, rl, rec, target, t, L, snap. tauto.
Qed.

Lemma restore_failure self p s s1 :
  Fixed.restore_module self p s = (false, s1) → s1 = s.
Proof.
  unfold Fixed.restore_module, returning_False_on_exception.
  destruct (Fixed.restore_module_body self p s) as [r s2] eqn:H.
  apply restore_body_inv in H as [[-> _]|H].
  - destruct r; intros H; by inversion H.
  - destruct H as (A & rl & rec & target & t & L & snap & H).
    destruct H as (_ & _ & _ & _ & _ & _ & _ & _ & -> & _). by intros [= ].
Qed.

(** ** Namespaces *)

Lemma lookup_public_part (m : module) name :
  public_part m !! name = if is_public name then m !! name else None.
Proof.
  unfold public_part. destruct (is_public name) eqn:Hp.
  - destruct (m !! name) as [v|] eqn:Hm.
    + by apply map_lookup_filter_Some.
    + apply map_lookup_filter_None. left. done.
  - apply map_lookup_filter_None. right. intros v _. simpl. by rewrite Hp.
Qed.

Lemma lookup_patched_namespace f (c t : module) name :
  is_public name = true →
  patched_namespace f c t !! name
  = match c !! name with Some v => Some v | None => t !! name end.
Proof.
  intros Hp. unfold patched_namespace.
  rewrite !lookup_insert_ne by (intros <-; done).
  rewrite lookup_union, lookup_public_part, Hp.
  by destruct (c !! name), (t !! name).
Qed.

Lemma public_part_patched_namespace f (c t : module) :
  public_part (patched_namespace f c t) = public_part c ∪ public_part t.
Proof.
  apply map_eq. intros name.
  rewrite lookup_union, !lookup_public_part.
  destruct (is_public name) eqn:Hp; [|done].
  rewrite lookup_patched_namespace by done.
  by destruct (c !! name), (t !! name).
Qed.

Lemma lookup_restored_namespace (snap t : module) name :
  is_public name = true →
  restored_namespace snap t !! name
  = match snap !! name with Some v => Some v | None => t !! name end.
Proof.
  intros Hp. unfold restored_namespace.
  rewrite !lookup_delete_ne by (intros <-; done).
  rewrite lookup_union. by destruct (snap !! name), (t !! name).
Qed.

(** ** What a successful apply and a successful restore leave behind *)

Lemma patch_success_view host self p f b s s1 :
  Fixed.patch_module_from_file host self p f b s = (true, s1) →
  ∃ t c rl,
    custom_namespace host f = Some c ∧
    (∀ m, live_module s p = Some m → t = m) ∧
    live_module s1 p = Some (patched_namespace f c t) ∧
    backup_ledger self s1
    = (if b then <[p := public_part t]> (backup_ledger self s) else backup_ledger self s) ∧
    records s !! rl = None ∧
    records s1 = <[rl := mkRecord f (size (public_part c)) b]> (records s) ∧
    is_Some (dicts s !! applied_patches self) ∧
    dicts s1 = <[applied_patches self := <[p := rl]> (record_refs self s)]> (dicts s).
Proof.
  intros H. apply patch_success in H
    as (s' & target & custom & t & c & A & Hg & Hp & Ht & Hc & Hne & Hns & HA & Hb & ->).
  pose proof Hg as (_ & _ & Hd & Hr & Hl).
  exists t, c, (fresh (dom (records s))). split_and!; try done.
  - intros m Hm. apply (grows_live_module _ _ _ _ Hg) in Hm.
    unfold live_module in Hm. rewrite Hp in Hm. simpl in Hm. congruence.
  - unfold live_module; simpl. rewrite lookup_insert_eq. simpl.
    by rewrite lookup_insert_eq.
  - unfold backup_ledger; simpl. rewrite Hl.
    destruct b; [|done]. rewrite lookup_insert_eq. simpl.
    unfold backup_ledger. by rewrite Hl.
  - apply not_elem_of_dom, is_fresh.
  - simpl. by rewrite Hr.
  - simpl. unfold record_refs. by rewrite Hd, HA.
Qed.

Lemma restore_success_view self p s s1 :
  Fixed.restore_module self p s = (true, s1) →
  ∃ t snap rl rec,
    live_module s p = Some t ∧
    backup_ledger self s !! p = Some snap ∧
    record_refs self s !! p = Some rl ∧ records s !! rl = Some rec ∧
    backup_available rec = true ∧
    live_module s1 p = Some (restored_namespace snap t) ∧
    backup_ledger self s1 = delete p (backup_ledger self s) ∧
    record_refs self s1 = delete p (record_refs self s) ∧
    records s1 = records s.
Proof.
  intros H. apply restore_success in H
    as (A & rl & rec & target & t & L & snap & HA & Hrl & Hrec & Hav & Hp & Ht & HL & Hs & ->).
  exists t, snap, rl, rec.
  unfold live_module, backup_ledger, record_refs; simpl.
  rewrite HA, HL, Hp; simpl. rewrite !lookup_insert_eq; simpl.
  split_and!; try done.
  - unfold backup_ledger. by rewrite HL.
  - unfold record_refs. by rewrite HA.
Qed.

(** ** Claims about the patch manager *)

(** How the snapshot is lost on a second apply: fixed_patch.py:80-85 resets
    the entry of the path and reads the target again on every apply with
    [backup=True], so after two successful applies the snapshot holds the
    public attributes the target had after the first patch. *)
Lemma second_apply_replaces_snapshot host self p f1 f2 s s1 s2 :
  Fixed.patch_module_from_file host self p f1 true s = (true, s1) →
  Fixed.patch_module_from_file host self p f2 true s1 = (true, s2) →
  ∃ snap1 c1 m1,
    backup_ledger self s1 !! p = Some snap1 ∧
    custom_namespace host f1 = Some c1 ∧
    live_module s1 p = Some m1 ∧
    backup_ledger self s2 !! p = Some (public_part m1) ∧
    public_part m1 = public_part c1 ∪ snap1.
Proof.
  intros H1 H2.
  apply patch_success_view in H1
    as (t & c & rl & Hc & _ & Hlive & Hb & _).
  apply patch_success_view in H2
    as (t2 & c2 & rl2 & _ & Ht2 & _ & Hb2 & _).
  pose proof (Ht2 _ Hlive) as ->.
  exists (public_part t), c, (patched_namespace f1 c t). split_and!; try done.
  - by rewrite Hb, lookup_insert_eq.
  - by rewrite Hb2, lookup_insert_eq.
  - apply public_part_patched_namespace.
Qed.

(** C1: the claim holds of the design the code documents (the snapshot is
    commented as the backup of the original module, [restore_module] as the
    return to the original state) and the code breaks it.  With [foo = 1] on
    the target and [foo = 2] in the replacement, two applies in succession both
    succeed; the snapshot of the first holds [foo = 1], the second apply
    overwrites it with [foo = 2], and the restore that follows succeeds and
    leaves [foo = 2] on the target: the original value is lost. *)
Theorem C1_second_apply_loses_original :
  (Scenario.apply "/patch/replacement.py" Scenario.s0).1 = true ∧
  (Scenario.apply "/patch/replacement.py" Scenario.s1).1 = true ∧
  backup_ledger Scenario.self Scenario.s1 !! "pkg.mod"
    = Some (<["foo" := VInt 1]> (<["bar" := VStr "x"]> ∅)) ∧
  backup_ledger Scenario.self Scenario.s2 !! "pkg.mod"
    = Some (<["foo" := VInt 2]> (<["bar" := VStr "x"]> ∅)) ∧
  backup_ledger Scenario.self Scenario.s2 !! "pkg.mod"
    ≠ backup_ledger Scenario.self Scenario.s1 !! "pkg.mod" ∧
  live_attr Scenario.s0 "pkg.mod" "foo" = Some (VInt 1) ∧
  (Fixed.restore_module Scenario.self "pkg.mod" Scenario.s2).1 = true ∧
  live_attr (Fixed.restore_module Scenario.self "pkg.mod" Scenario.s2).2 "pkg.mod" "foo"
    = Some (VInt 2).
Proof.
  split_and!; try (vm_compute; reflexivity).
  intros H.
  assert (backup_ledger Scenario.self Scenario.s2 !! "pkg.mod" ≫= (λ m, m !! "foo")
          = backup_ledger Scenario.self Scenario.s1 !! "pkg.mod" ≫= (λ m, m !! "foo")) as H'
    by (by rewrite H).
  vm_compute in H'. discriminate H'.
Qed.

(** What a restore after an apply does: [restore_module] writes back the
    names of the snapshot and deletes the two markers, and nothing else
    (fixed_patch.py:144-152), so a public name that only the replacement had is
    still bound afterwards. *)
Lemma restore_rebinds_saved_names host self p f b s s1 s2 m0 :
  live_module s p = Some m0 →
  Fixed.patch_module_from_file host self p f b s = (true, s1) →
  Fixed.restore_module self p s1 = (true, s2) →
  ∃ c m2,
    custom_namespace host f = Some c ∧
    live_module s2 p = Some m2 ∧
    (∀ name, is_public name = true → is_Some (m0 !! name) → m2 !! name = m0 !! name) ∧
    (∀ name, is_public name = true → m0 !! name = None → m2 !! name = c !! name) ∧
    m2 !! "_runtime_patched" = None ∧ m2 !! "_patch_source" = None.
Proof.
  intros Hm0 H1 H2.
  apply patch_success_view in H1
    as (t & c & rl & Hc & Ht & Hlive & Hb & Hfresh & Hrec & _ & Hd).
  pose proof (Ht _ Hm0) as ->.
  apply restore_success_view in H2
    as (t1 & snap & rl' & rec & Hlive1 & Hsnap & Hrl & Hrec' & Hav & Hlive2 & _).
  assert (t1 = patched_namespace f c m0) as -> by congruence.
  assert (rl' = rl) as ->.
  { unfold record_refs in Hrl. rewrite Hd, lookup_insert_eq in Hrl. simpl in Hrl.
    rewrite lookup_insert_eq in Hrl. congruence. }
  rewrite Hrec, lookup_insert_eq in Hrec'. injection Hrec' as <-. simpl in Hav. subst b.
  rewrite Hb, lookup_insert_eq in Hsnap. injection Hsnap as <-.
  exists c, (restored_namespace (public_part m0) (patched_namespace f c m0)).
  split_and!; try done.
  - intros name Hp [v Hv].
    rewrite lookup_restored_namespace, lookup_public_part, Hp by done. by rewrite Hv.
  - intros name Hp Hn.
    rewrite lookup_restored_namespace, lookup_public_part, Hp, Hn by done.
    rewrite lookup_patched_namespace, Hn by done. by destruct (c !! name).
  - unfold restored_namespace. rewrite lookup_delete_ne by done. apply lookup_delete_eq.
  - unfold restored_namespace. apply lookup_delete_eq.
Qed.

(** C2: the claim holds of the design the code documents ([restore_module]
    is the return of the module to its original state, and it does remove the
    two markers the patch added) and the code breaks it for the names the
    transplant added.  The target has [foo] and [bar], the replacement defines
    [foo] and [baz]; apply and restore both succeed, [foo] and [bar] have their
    old values again, and [baz], which the target never had, is still bound:
    the public attributes after the restore are not those before the patch. *)
Theorem C2_restore_leaves_added_name :
  (Scenario.apply "/patch/extended.py" Scenario.s0).1 = true ∧
  (Fixed.restore_module Scenario.self "pkg.mod" Scenario.s1_extended).1 = true ∧
  live_attr Scenario.s_restored "pkg.mod" "foo" = live_attr Scenario.s0 "pkg.mod" "foo" ∧
  live_attr Scenario.s_restored "pkg.mod" "bar" = live_attr Scenario.s0 "pkg.mod" "bar" ∧
  live_attr Scenario.s_restored "pkg.mod" "_runtime_patched" = None ∧
  live_module Scenario.s0 "pkg.mod" ≫= (λ m, m !! "baz") = None ∧
  live_module Scenario.s_restored "pkg.mod" ≫= (λ m, m !! "baz") = Some (VInt 3) ∧
  public_part <$> live_module Scenario.s_restored "pkg.mod"
    ≠ public_part <$> live_module Scenario.s0 "pkg.mod".
Proof.
  split_and!; try (vm_compute; reflexivity).
  intros H.
  assert ((public_part <$> live_module Scenario.s_restored "pkg.mod") ≫= (λ m, m !! "baz")
          = (public_part <$> live_module Scenario.s0 "pkg.mod") ≫= (λ m, m !! "baz")) as H'
    by (by rewrite H).
  vm_compute in H'. discriminate H'.
Qed.

(** C6: when the replacement file does not exist, apply returns [False]
    (the exception is caught inside the call) and the whole state, so every
    attribute of the target module, is as before; the target not being
    patched before, [verify_patch] returns false afterwards. *)
Theorem C6_missing_file host self p f b s :
  host_files host !! f = None →
  (Fixed.verify_patch p s).1 = false →
  Fixed.patch_module_from_file host self p f b s = (false, s) ∧
  live_module (Fixed.patch_module_from_file host self p f b s).2 p = live_module s p ∧
  (Fixed.verify_patch p (Fixed.patch_module_from_file host self p f b s).2).1 = false.
Proof.
  intros Hf Hv.
  assert (Fixed.patch_module_from_file host self p f b s = (false, s)) as ->.
  { unfold Fixed.patch_module_from_file, returning_False_on_exception,
      Fixed.patch_module_from_file_body, path_exists.
    unfold bind at 1, ret at 1. rewrite Hf.
    rewrite bool_decide_eq_false_2 by (by intros [? ?]). done. }
  done.
Qed.

Lemma C6_witness :
  Fixed.patch_module_from_file Scenario.host Scenario.self "pkg.mod" "/patch/missing.py" true
    Scenario.s0 = (false, Scenario.s0) ∧
  live_module (Fixed.patch_module_from_file Scenario.host Scenario.self "pkg.mod"
                 "/patch/missing.py" true Scenario.s0).2 "pkg.mod"
    = live_module Scenario.s0 "pkg.mod" ∧
  (Fixed.verify_patch "pkg.mod"
     (Fixed.patch_module_from_file Scenario.host Scenario.self "pkg.mod"
        "/patch/missing.py" true Scenario.s0).2).1 = false.
Proof.
  apply (C6_missing_file Scenario.host Scenario.self "pkg.mod" "/patch/missing.py" true
           Scenario.s0); vm_compute; reflexivity.
Defined.

(** C7: [restore_module] on a path that has no patch record returns [False]
    without raising and leaves the state as it was: the backup ledger, the
    patch records and the target module are all unchanged. *)
Theorem C7_restore_never_patched self p s :
  record_refs self s !! p = None →
  Fixed.restore_module self p s = (false, s) ∧
  backup_ledger self (Fixed.restore_module self p s).2 = backup_ledger self s ∧
  patch_records self (Fixed.restore_module self p s).2 = patch_records self s ∧
  live_module (Fixed.restore_module self p s).2 p = live_module s p.
Proof.
  intros Hp.
  assert (Fixed.restore_module self p s = (false, s)) as ->; [|done].
  unfold Fixed.restore_module, returning_False_on_exception, Fixed.restore_module_body.
  unfold record_refs in Hp.
  destruct (dicts s !! applied_patches self) as [A|] eqn:HA; simpl in Hp.
  - rewrite (bind_ok _ _ _ _ _ (dict_contains_ok _ p _ _ HA)), Hp.
    by rewrite bool_decide_eq_false_2 by (by intros [? ?]).
  - by rewrite (bind_raise _ _ _ _ _ (dict_contains_dangling _ _ _ HA)).
Qed.

Lemma C7_witness :
  Fixed.restore_module Scenario.self "pkg.mod" Scenario.s0 = (false, Scenario.s0) ∧
  backup_ledger Scenario.self (Fixed.restore_module Scenario.self "pkg.mod" Scenario.s0).2
    = backup_ledger Scenario.self Scenario.s0 ∧
  patch_records Scenario.self (Fixed.restore_module Scenario.self "pkg.mod" Scenario.s0).2
    = patch_records Scenario.self Scenario.s0 ∧
  live_module (Fixed.restore_module Scenario.self "pkg.mod" Scenario.s0).2 "pkg.mod"
    = live_module Scenario.s0 "pkg.mod".
Proof.
  apply (C7_restore_never_patched Scenario.self "pkg.mod" Scenario.s0).
  vm_compute; reflexivity.
Defined.

(** C10: the transplant walks the whole directory of the custom module:
    every public name bound there, wherever its value comes from, is bound to
    the same value on the target afterwards, and the returned count is the
    number of public names of the custom module. *)
Theorem C10_transplant_every_public_name custom target (c t : module) s :
  custom ≠ target →
  modules s !! custom = Some c →
  modules s !! target = Some t →
  ∃ s1 t1,
    transplant custom target s = (inr (size (public_part c)), s1) ∧
    modules s1 !! target = Some t1 ∧
    (∀ name v, c !! name = Some v → is_public name = true → t1 !! name = Some v) ∧
    size (public_part c)
    = List.length (filter (λ name, is_public name = true) (map_to_list c).*1).
Proof.
  intros Hne Hc Ht.
  exists (set_modules <[target := public_part c ∪ t]> s), (public_part c ∪ t).
  split_and!.
  - by apply transplant_ok.
  - simpl. by rewrite lookup_insert_eq.
  - intros name v Hv Hp. apply lookup_union_Some_raw. left.
    by rewrite lookup_public_part, Hp.
  - rewrite <- count_public_map.
    induction (map_to_list c) as [|[k v] l IH]; [done|].
    rewrite fmap_cons, !filter_cons. simpl.
    destruct (decide (is_public k = true)); simpl; by rewrite IH.
Qed.

Lemma C10_witness :
  ∃ s1 t1,
    transplant Loaded.custom Loaded.target Loaded.s
    = (inr (size (public_part Loaded.custom_ns)), s1) ∧
    modules s1 !! Loaded.target = Some t1 ∧
    (∀ name v, Loaded.custom_ns !! name = Some v → is_public name = true →
               t1 !! name = Some v) ∧
    size (public_part Loaded.custom_ns)
    = List.length (filter (λ name, is_public name = true) (map_to_list Loaded.custom_ns).*1).
Proof.
  apply (C10_transplant_every_public_name Loaded.custom Loaded.target
           Loaded.custom_ns Scenario.target_ns Loaded.s).
  - vm_compute. discriminate.
  - vm_compute; reflexivity.
  - vm_compute; reflexivity.
Defined.

(** ** The import rewriter *)

Lemma replace_from_absent old new s :
  contains old s = false → replace_from old new 0 s = s.
Proof.
  induction s as [|c s IH]; simpl; [done|].
  intros [H1 H2]%orb_false_elim.
  change (startswith old (String c s) = false) in H1. rewrite H1.
  by rewrite IH.
Qed.

(** The rewrite leaves a text in which none of the five statements occurs
    as it is. *)
Lemma rewrite_imports_fail_open content :
  contains "from ...feature_extraction_utils import BatchFeature" content = false →
  contains "from ...image_utils import ImageInput" content = false →
  contains "from ...processing_utils import ImagesKwargs, ProcessingKwargs, ProcessorMixin, Unpack"
    content = false →
  contains "from ...tokenization_utils_base import" content = false →
  contains "from .image_processing_mllama import make_list_of_images" content = false →
  Simple.rewrite_imports content = content.
Proof.
  intros H1 H2 H3 H4 H5. unfold Simple.rewrite_imports, str_replace.
  by rewrite (replace_from_absent _ _ _ H1), (replace_from_absent _ _ _ H2),
    (replace_from_absent _ _ _ H3), (replace_from_absent _ _ _ H4),
    (replace_from_absent _ _ _ H5).
Qed.

Lemma replace_from_skip old new a b :
  replace_from old new (String.length a) (a ++ b) = replace_from old new 0 b.
Proof. induction a as [|c a IH]; simpl; [done|]. exact IH. Qed.

Lemma startswith_refl_app old b : startswith old (old ++ b) = true.
Proof. induction old as [|c old IH]; simpl; [done|]. by rewrite Ascii.eqb_refl. Qed.

Lemma replace_from_match c old new b :
  replace_from (String c old) new 0 (String c old ++ b)
  = new ++ replace_from (String c old) new 0 b.
Proof.
  change (String c old ++ b) with (String c (old ++ b)).
  cbn [replace_from].
  change (String c (old ++ b)) with (String c old ++ b).
  rewrite startswith_refl_app. cbn [String.length]. rewrite Nat.sub_1_r. cbn [Nat.pred].
  by rewrite replace_from_skip.
Qed.

Lemma replace_from_no_match old new a b :
  no_match_in old a b = true →
  replace_from old new 0 (a ++ b) = a ++ replace_from old new 0 b.
Proof.
  induction a as [|c a IH]; [done|].
  cbn [no_match_in]. intros [H1 H2]%andb_prop. apply negb_true_iff in H1.
  change (String c a ++ b) with (String c (a ++ b)) in *.
  cbn [replace_from]. rewrite H1. by rewrite IH.
Qed.

Lemma string_app_assoc (a b c : string) : (a ++ b) ++ c = a ++ (b ++ c).
Proof.
  induction a as [|x a IH]; [done|].
  change (String x ((a ++ b) ++ c) = String x (a ++ b ++ c)). by rewrite IH.
Qed.

Lemma no_match_in_app old a1 a2 b :
  no_match_in old a1 (a2 ++ b) = true → no_match_in old a2 b = true →
  no_match_in old (a1 ++ a2) b = true.
Proof.
  intros H1 H2. induction a1 as [|c a1 IH]; [done|].
  cbn [no_match_in] in H1. apply andb_prop in H1 as [H1 H1'].
  change (String c a1 ++ a2) with (String c (a1 ++ a2)).
  cbn [no_match_in]. apply andb_true_intro. split; [|by apply IH].
  change (String c (a1 ++ a2)) with (String c a1 ++ a2).
  by rewrite string_app_assoc.
Qed.

Lemma startswith_trans p old s :
  startswith p old = true → startswith old s = true → startswith p s = true.
Proof.
  revert old s. induction p as [|a p IH]; intros old s; [done|].
  destruct old as [|b old]; [done|]. destruct s as [|c s]; [done|].
  simpl. destruct (Ascii.eqb a b) eqn:Hab; [|done].
  apply Ascii.eqb_eq in Hab as ->.
  destruct (Ascii.eqb b c); [apply IH|done].
Qed.

Lemma startswith_cons a p b s :
  startswith (String a p) (String b s) = if Ascii.eqb a b then startswith p s else false.
Proof. done. Qed.

(** A text that does not begin with [from .] still does not once a text
    beginning with [f] is put after it. *)
Lemma from_dot_straddle w rest :
  w ≠ "" → startswith "from ." w = false →
  startswith "from ." (w ++ String "f" rest) = false.
Proof.
  intros Hw H.
  destruct w as [|c1 w]; [done|]. clear Hw.
  change (String c1 w ++ String "f" rest) with (String c1 (w ++ String "f" rest)).
  rewrite startswith_cons in *. destruct (Ascii.eqb "f" c1); [|done].
  destruct w as [|c2 w]; [done|].
  change (String c2 w ++ String "f" rest) with (String c2 (w ++ String "f" rest)).
  rewrite startswith_cons in *. destruct (Ascii.eqb "r" c2); [|done].
  destruct w as [|c3 w]; [done|].
  change (String c3 w ++ String "f" rest) with (String c3 (w ++ String "f" rest)).
  rewrite startswith_cons in *. destruct (Ascii.eqb "o" c3); [|done].
  destruct w as [|c4 w]; [done|].
  change (String c4 w ++ String "f" rest) with (String c4 (w ++ String "f" rest)).
  rewrite startswith_cons in *. destruct (Ascii.eqb "m" c4); [|done].
  destruct w as [|c5 w]; [done|].
  change (String c5 w ++ String "f" rest) with (String c5 (w ++ String "f" rest)).
  rewrite startswith_cons in *. destruct (Ascii.eqb " " c5); [|done].
  destruct w as [|c6 w]; [done|].
  change (String c6 w ++ String "f" rest) with (String c6 (w ++ String "f" rest)).
  rewrite startswith_cons in *. destruct (Ascii.eqb "." c6); [|done].
  done.
Qed.

Lemma no_match_before old pre rest :
  startswith "from ." old = true →
  contains "from ." pre = false →
  no_match_in old pre (String "f" rest) = true.
Proof.
  intros Hold. induction pre as [|c pre IH]; [done|].
  cbn [contains]. intros [H1 H2]%orb_false_elim.
  cbn [no_match_in]. apply andb_true_intro. split; [|by apply IH].
  apply negb_true_iff.
  destruct (startswith old (String c pre ++ String "f" rest)) eqn:Hs; [|done].
  apply (startswith_trans _ _ _ Hold) in Hs.
  by rewrite from_dot_straddle in Hs.
Qed.

(** One replacement goes past a text without [from .] and a stretch [mid]
    in which the statement does not occur. *)
Lemma str_replace_past old new pre mid rest :
  startswith "from ." old = true →
  contains "from ." pre = false →
  startswith "f" mid = true →
  no_match_in old mid rest = true →
  str_replace old new (pre ++ mid ++ rest) = pre ++ mid ++ str_replace old new rest.
Proof.
  intros Hold Hpre Hmid Hno. unfold str_replace.
  rewrite <- !string_app_assoc. apply replace_from_no_match.
  apply no_match_in_app; [|done].
  destruct mid as [|c mid]; [done|]. rewrite startswith_cons in Hmid.
  destruct (Ascii.eqb "f" c) eqn:Hc; [|done]. apply Ascii.eqb_eq in Hc as <-.
  by apply no_match_before.
Qed.

(** One replacement at an occurrence after a text without [from .]. *)
Lemma str_replace_at old new pre rest :
  startswith "from ." old = true →
  contains "from ." pre = false →
  str_replace old new (pre ++ old ++ rest) = pre ++ new ++ str_replace old new rest.
Proof.
  intros Hold Hpre. unfold str_replace.
  destruct old as [|c old]; [done|].
  rewrite replace_from_no_match.
  - by rewrite replace_from_match.
  - pose proof Hold as Hc. rewrite startswith_cons in Hc.
    destruct (Ascii.eqb "f" c) eqn:E; [|done].
    apply Ascii.eqb_eq in E as <-.
    change (String "f" old ++ rest) with (String "f" (old ++ rest)).
    by apply no_match_before.
Qed.


Lemma startswith_apart old mid rest :
  startswith old mid = false → startswith mid old = false →
  startswith old (mid ++ rest) = false.
Proof.
  revert mid. induction old as [|a old IH]; intros mid; [done|].
  destruct mid as [|b mid]; [done|].
  change (String b mid ++ rest) with (String b (mid ++ rest)).
  rewrite !startswith_cons. rewrite (Ascii.eqb_sym b a).
  destruct (Ascii.eqb a b); [apply IH|done].
Qed.

Lemma clear_of_no_match old mid rest :
  clear_of old mid = true → no_match_in old mid rest = true.
Proof.
  induction mid as [|c mid IH]; [done|].
  cbn [clear_of no_match_in].
  intros [[H1 H2]%andb_prop H3]%andb_prop.
  apply negb_true_iff in H1, H2.
  apply andb_true_intro. split; [|by apply IH].
  apply negb_true_iff. by apply startswith_apart.
Qed.

(** One replacement at the first occurrence. *)
Lemma str_replace_first old new pre post :
  old ≠ "" →
  no_match_in old pre (old ++ post) = true →
  str_replace old new (pre ++ old ++ post) = pre ++ new ++ str_replace old new post.
Proof.
  intros Hold Hno. unfold str_replace.
  destruct old as [|c old]; [done|].
  rewrite replace_from_no_match by done. by rewrite replace_from_match.
Qed.

Ltac past := rewrite str_replace_past; [|reflexivity|assumption|reflexivity|reflexivity].
Ltac hit := rewrite str_replace_at; [|reflexivity|assumption].

Lemma rewrite_imports_fold content :
  Simple.rewrite_imports content
  = foldl (λ text on, str_replace on.1 on.2 text) content rewritten_statements.
Proof. reflexivity. Qed.

Lemma rewrite_imports_at i old new pre post :
  rewritten_statements !! i = Some (old, new) →
  contains "from ." pre = false →
  Simple.rewrite_imports (pre ++ old ++ post) = pre ++ new ++ Simple.rewrite_imports post.
Proof.
  intros Hi Hpre. unfold Simple.rewrite_imports. cbv zeta.
  destruct i as [|[|[|[|[|i]]]]]; simplify_eq/=.
  - hit. past. past. past. past. reflexivity.
  - past. hit. past. past. past. reflexivity.
  - past. past. hit. past. past. reflexivity.
  - past. past. past. hit. past. reflexivity.
  - past. past. past. past. hit. reflexivity.
Qed.

Lemma rewrite_imports_past pre mid post :
  contains "from ." pre = false →
  startswith "f" mid = true →
  forallb (λ on : string * string, clear_of on.1 mid) rewritten_statements = true →
  Simple.rewrite_imports (pre ++ mid ++ post) = pre ++ mid ++ Simple.rewrite_imports post.
Proof.
  intros Hpre Hmid Hclear. unfold Simple.rewrite_imports. cbv zeta.
  cbn [forallb rewritten_statements fst] in Hclear.
  repeat (apply andb_prop in Hclear as [? Hclear]).
  repeat (rewrite str_replace_past;
          [|reflexivity|assumption|assumption|by apply clear_of_no_match]).
  reflexivity.
Qed.

(** C4, as amended: the import rewriter takes no target path.  It is five
    replacements in a row, each of every occurrence of one fixed statement of
    the mllama processor, leftmost first, by its absolute form under
    [transformers], the imported names after it kept as they are.  On a whole
    text: an occurrence of one of the five statements after a text without
    [from .] is replaced, and the rest is rewritten in the same way; a stretch
    that begins with [f] and in which none of the five occurs or begins is
    left as it is, and so is a text in which none of the five occurs; so
    [from ...util import helper] stays as it is. *)
Theorem C4_rewrite_fixed_statements :
  (∀ content,
     Simple.rewrite_imports content
     = foldl (λ text on, str_replace on.1 on.2 text) content rewritten_statements) ∧
  (∀ old new pre post,
     old ≠ "" →
     no_match_in old pre (old ++ post) = true →
     str_replace old new (pre ++ old ++ post) = pre ++ new ++ str_replace old new post) ∧
  (∀ old new content, contains old content = false → str_replace old new content = content) ∧
  (∀ i old new pre post,
     rewritten_statements !! i = Some (old, new) →
     contains "from ." pre = false →
     Simple.rewrite_imports (pre ++ old ++ post)
     = pre ++ new ++ Simple.rewrite_imports post) ∧
  (∀ pre mid post,
     contains "from ." pre = false →
     startswith "f" mid = true →
     forallb (λ on : string * string, clear_of on.1 mid) rewritten_statements = true →
     Simple.rewrite_imports (pre ++ mid ++ post)
     = pre ++ mid ++ Simple.rewrite_imports post) ∧
  (∀ content,
     contains "from ...feature_extraction_utils import BatchFeature" content = false →
     contains "from ...image_utils import ImageInput" content = false →
     contains
       "from ...processing_utils import ImagesKwargs, ProcessingKwargs, ProcessorMixin, Unpack"
       content = false →
     contains "from ...tokenization_utils_base import" content = false →
     contains "from .image_processing_mllama import make_list_of_images" content = false →
     Simple.rewrite_imports content = content).
Proof.
  split_and!.
  - exact rewrite_imports_fold.
  - exact str_replace_first.
  - intros old new content. apply replace_from_absent.
  - exact rewrite_imports_at.
  - exact rewrite_imports_past.
  - exact rewrite_imports_fail_open.
Qed.

Lemma C4_witness :
  Simple.rewrite_imports "import os; from ...image_utils import ImageInput; x = 1"
  = "import os; from transformers.image_utils import ImageInput; x = 1" ∧
  Simple.rewrite_imports "import os; from ...util import helper; x = 1"
  = "import os; from ...util import helper; x = 1".
Proof.
  split.
  - change (Simple.rewrite_imports
              ("import os; " ++ "from ...image_utils import ImageInput" ++ "; x = 1")
            = "import os; " ++ "from transformers.image_utils import ImageInput"
                ++ Simple.rewrite_imports "; x = 1").
    apply (proj1 (proj2 (proj2 (proj2 C4_rewrite_fixed_statements))) 1);
      [reflexivity|vm_compute; reflexivity].
  - change (Simple.rewrite_imports
              ("import os; " ++ "from ...util import helper" ++ "; x = 1")
            = "import os; " ++ "from ...util import helper"
                ++ Simple.rewrite_imports "; x = 1").
    apply (proj1 (proj2 (proj2 (proj2 (proj2 C4_rewrite_fixed_statements)))));
      vm_compute; reflexivity.
Defined.

(** C4 as stated fails: for the text [from ...util import helper] the
    rewriter does not produce [from a.util import helper]. *)
Lemma C4_counterexample :
  Simple.rewrite_imports "from ...util import helper" = "from ...util import helper" ∧
  Simple.rewrite_imports "from ...util import helper" ≠ "from a.util import helper".
Proof. split; vm_compute; [reflexivity|discriminate]. Qed.

(** ** The two dictionaries of the patch manager *)

(** On plain modules the patch manager over a runtime is the patch manager of
    the sections above. *)
Lemma plain_apply host self p f b s :
  Protocol.patch_module_from_file host (plain host) self p f b s
  = Fixed.patch_module_from_file host self p f b s.
Proof. reflexivity. Qed.

Lemma plain_restore host self p s :
  Protocol.restore_module (plain host) self p s = Fixed.restore_module self p s.
Proof. reflexivity. Qed.

Lemma plain_restore_all host self s :
  Protocol.restore_all (plain host) self s = Fixed.restore_all self s.
Proof. reflexivity. Qed.

Lemma plain_verify host p s :
  Protocol.verify_patch (plain host) p s = Fixed.verify_patch p s.
Proof. reflexivity. Qed.

(** *** Computations that leave the dictionaries alone *)

Lemma same_private_refl s : same_private s s.
Proof. done. Qed.

Lemma same_private_trans s0 s1 s2 :
  same_private s0 s1 → same_private s1 s2 → same_private s0 s2.
Proof. intros (? & ? & ?) (? & ? & ?). split_and!; congruence. Qed.

Lemma kp_ret {A} (a : A) : keeps_private (ret a).
Proof. done. Qed.

Lemma kp_raise {A} e : keeps_private (@raise A e).
Proof. done. Qed.

Lemma kp_get_state : keeps_private get_state.
Proof. done. Qed.

Lemma kp_bind {A B} (c : M A) (k : A → M B) :
  keeps_private c → (∀ a, keeps_private (k a)) → keeps_private (bind c k).
Proof.
  intros Hc Hk s. unfold bind. specialize (Hc s).
  destruct (c s) as [[e|a] s1]; simpl in *; [done|].
  specialize (Hk a s1). destruct Hk as (? & ? & ?), Hc as (? & ? & ?).
  split_and!; congruence.
Qed.

Lemma kp_try_except {A} (c : M A) (h : Exn → M A) :
  keeps_private c → (∀ e, keeps_private (h e)) → keeps_private (try_except c h).
Proof.
  intros Hc Hh s. unfold try_except. specialize (Hc s).
  destruct (c s) as [[e|a] s1]; simpl in *; [|done].
  specialize (Hh e s1). destruct Hh as (? & ? & ?), Hc as (? & ? & ?).
  split_and!; congruence.
Qed.

Lemma kp_except_ImportError {A} (c h : M A) :
  keeps_private c → keeps_private h → keeps_private (except_ImportError c h).
Proof.
  intros Hc Hh. apply kp_try_except; [done|]. intros []; first [done|apply kp_raise].
Qed.

Lemma kp_for_each {A} (body : A → M unit) (l : list A) :
  (∀ x, keeps_private (body x)) → keeps_private (for_each l body).
Proof.
  intros Hb. induction l as [|x l IH]; simpl; [apply kp_ret|].
  apply kp_bind; [apply Hb|done].
Qed.

Lemma kp_set_sys_modules f : keeps_private (modify (set_sys_modules f)).
Proof. done. Qed.

Lemma kp_set_modules f : keeps_private (modify (set_modules f)).
Proof. done. Qed.

Lemma kp_module_at l : keeps_private (module_at l).
Proof. intros s. unfold module_at, bind, get_state, ret, raise. by destruct (modules s !! l). Qed.

Lemma kp_new_module m : keeps_private (new_module m).
Proof. done. Qed.

Ltac kp_step :=
  first
    [ apply kp_ret | apply kp_raise | apply kp_get_state
    | apply kp_set_sys_modules | apply kp_set_modules
    | apply kp_new_module | apply kp_module_at
    | apply kp_bind | apply kp_except_ImportError | apply kp_try_except
    | apply kp_for_each
    | match goal with |- ∀ _, _ => intro end
    | match goal with |- keeps_private (if ?b then _ else _) => destruct b end
    | match goal with |- keeps_private (match ?x with _ => _ end) => destruct x end
    | progress cbv beta zeta ].

Ltac kp_basic := repeat kp_step.

Ltac kp_frames H :=
  first
    [ apply (frames_import _ H) | apply (frames_exec _ H)
    | apply (frames_dir _ H) | apply (frames_getattr _ H)
    | apply (frames_hasattr _ H) | apply (frames_setattr _ H)
    | apply (frames_delattr _ H) ].

Lemma kp_import_module host path : keeps_private (import_module host path).
Proof. unfold import_module. kp_basic. Qed.

Lemma kp_exec_module host f l : keeps_private (exec_module host f l).
Proof. unfold exec_module, read_file, exec_text. kp_basic. Qed.

Lemma kp_getattr l name : keeps_private (getattr l name).
Proof. unfold getattr. kp_basic. Qed.

Lemma kp_hasattr l name : keeps_private (hasattr l name).
Proof. unfold hasattr. kp_basic. Qed.

Lemma kp_setattr l name v : keeps_private (setattr l name v).
Proof. unfold setattr. kp_basic. Qed.

Lemma kp_delattr l name : keeps_private (delattr l name).
Proof. unfold delattr. kp_basic. Qed.

Lemma kp_dir l : keeps_private (dir l).
Proof. unfold dir. kp_basic. Qed.

Lemma kp_dir_pep562 call l : keeps_private (dir_pep562 call l).
Proof. unfold dir_pep562. kp_basic. Qed.

Lemma frames_plain host : frames (plain host).
Proof.
  split; simpl; intros.
  - apply kp_import_module.
  - apply kp_exec_module.
  - apply kp_dir.
  - apply kp_getattr.
  - apply kp_hasattr.
  - apply kp_setattr.
  - apply kp_delattr.
Qed.

Lemma frames_pep562 host call : frames (pep562 host call).
Proof.
  split; simpl; intros.
  - apply kp_import_module.
  - apply kp_exec_module.
  - apply kp_dir_pep562.
  - apply kp_getattr.
  - apply kp_hasattr.
  - apply kp_setattr.
  - apply kp_delattr.
Qed.

Section Frames.

Context (py : Python) (Hpy : frames py).

Lemma kp_import_transformers : keeps_private (Protocol.import_transformers py).
Proof. unfold Protocol.import_transformers. repeat first [kp_frames Hpy|kp_step]. Qed.

Lemma kp_import_parents path : keeps_private (Protocol.import_parents py path).
Proof. unfold Protocol.import_parents. repeat first [kp_frames Hpy|kp_step]. Qed.

Lemma kp_apply_attrs custom target names :
  ∀ n, keeps_private (Protocol.apply_attrs py custom target names n).
Proof.
  induction names as [|x names IH]; intros n; simpl; [apply kp_ret|].
  destruct (negb (startswith_underscore x)); [|apply IH].
  apply kp_bind; [kp_frames Hpy|]. intros v.
  apply kp_bind; [kp_frames Hpy|]. intros _. apply IH.
Qed.

Lemma kp_transplant custom target : keeps_private (Protocol.transplant py custom target).
Proof.
  unfold Protocol.transplant. apply kp_bind; [kp_frames Hpy|].
  intros names. apply kp_apply_attrs.
Qed.

Lemma kp_restore_attrs target backup : keeps_private (Protocol.restore_attrs py target backup).
Proof.
  unfold Protocol.restore_attrs. apply kp_for_each. intros [k v]. kp_frames Hpy.
Qed.

Lemma kp_verify_patch_body p : keeps_private (Protocol.verify_patch_body py p).
Proof. unfold Protocol.verify_patch_body. repeat first [kp_frames Hpy|kp_step]. Qed.

End Frames.

Ltac kp H :=
  repeat first
    [ apply (kp_import_transformers _ H) | apply (kp_import_parents _ H)
    | apply (kp_transplant _ H) | apply (kp_restore_attrs _ H)
    | kp_frames H | kp_step ].

(** *** Assertions along a computation *)

Lemma hoare_ret {A} (P : State → Prop) (a : A) Q :
  (∀ s, P s → Q (inr a) s) → hoare P (ret a) Q.
Proof. intros H s Hs. by apply H. Qed.

Lemma hoare_raise {A} (P : State → Prop) e (Q : Exn + A → State → Prop) :
  (∀ s, P s → Q (inl e) s) → hoare P (raise e) Q.
Proof. intros H s Hs. by apply H. Qed.

Lemma hoare_bind {A B} (P : State → Prop) (R : A → State → Prop)
    (c : M A) (k : A → M B) Q :
  hoare P c (λ r s, match r with inl e => Q (inl e) s | inr a => R a s end) →
  (∀ a, hoare (R a) (k a) Q) →
  hoare P (bind c k) Q.
Proof.
  intros Hc Hk s Hs. specialize (Hc s Hs). unfold bind.
  destruct (c s) as [[e|a] s1]; simpl in *; [done|]. by apply Hk.
Qed.

(** A step that leaves the dictionaries alone, under an assertion about
    them only. *)
Lemma hoare_keeps {A B} (P : State → Prop) (c : M A) (k : A → M B) Q :
  keeps_private c → private_closed P →
  (∀ e s, P s → Q (inl e) s) →
  (∀ a, hoare P (k a) Q) →
  hoare P (bind c k) Q.
Proof.
  intros Hc HP Hfail Hk. apply (hoare_bind P (λ _, P)); [|done].
  intros s Hs. pose proof (Hc s) as Hsame.
  assert (P (c s).2) as HP' by (by apply (HP s)).
  destruct (c s) as [[e|a] s1]; simpl in *; [by apply Hfail|done].
Qed.

Lemma hoare_for_each_invariant {A} (P : State → Prop) (body : A → M unit) l :
  (∀ x, hoare P (body x) (λ _, P)) → hoare P (for_each l body) (λ _, P).
Proof.
  intros Hb. induction l as [|x l IH]; simpl; [by intros s Hs|].
  apply (hoare_bind P (λ _, P)); [|done].
  intros s Hs. specialize (Hb x s Hs). by destruct (body x s) as [[e|a] s1].
Qed.

Lemma staged_closed self p b s0 : private_closed (staged self p b s0).
Proof.
  intros s s' (Hd & Hr & Hl) (Hd' & Hr' & Hb). unfold staged, backed in *.
  rewrite Hd, Hr, Hl. done.
Qed.

Lemma same_private_closed s0 : private_closed (same_private s0).
Proof. intros s s' H1 H2. by eapply same_private_trans. Qed.

Lemma staged_failed self p b s0 s : staged self p b s0 s → apply_failed self p b s0 s.
Proof.
  intros (Hd & Hr & Hb). split_and!; [done..|].
  destruct b; [right; by split|by left].
Qed.

Lemma ledger_store_staged self p name v s0 :
  hoare (staged self p true s0) (ledger_store (backup_modules self) p name v)
    (λ _, staged self p true s0).
Proof.
  intros s (Hd & Hr & L & snap & HL & Hs).
  unfold ledger_store, ledger_getitem, ledger_setitem, ledger_at, bind, get_state, ret, modify.
  rewrite Hs, lookup_insert_eq. cbn [fst snd]. rewrite lookup_insert_eq. cbn [fst snd].
  rewrite Hs, lookup_insert_eq. cbn [fst snd].
  split_and!; [done..|]. exists L, (<[name := v]> snap). split; [done|].
  simpl. rewrite Hs. by rewrite !insert_insert_eq.
Qed.

Lemma ledger_setitem_cases b path snap s :
  (ledgers s !! b = None ∧ ledger_setitem b path snap s = (inl SystemError, s)) ∨
  (∃ L, ledgers s !! b = Some L ∧
        ledger_setitem b path snap s
        = (inr tt, set_ledgers <[b := <[path := snap]> L]> s)).
Proof.
  unfold ledger_setitem, ledger_at, bind, get_state, ret, raise, modify.
  destruct (ledgers s !! b) as [L|]; [right; by exists L|by left].
Qed.

(** *** What apply and restore do to the dictionaries *)

Section Footprints.

Context (host : Host) (py : Python) (Hpy : frames py).

(** The backup loop of fixed_patch.py:82-85 rewrites the entry of the path
    and nothing else, however it ends. *)
Lemma backup_loop_staged self p target s0 :
  hoare (staged self p true s0)
    (Protocol.for_public_attrs py target
       (λ attr_name v, ledger_store (backup_modules self) p attr_name v))
    (λ _, staged self p true s0).
Proof.
  unfold Protocol.for_public_attrs.
  apply hoare_keeps; [kp Hpy|apply staged_closed|done|]. intros names.
  apply hoare_for_each_invariant. intros name.
  destruct (negb (startswith_underscore name)); [|by intros s Hs].
  apply hoare_keeps; [kp Hpy|apply staged_closed|done|]. intros v.
  apply ledger_store_staged.
Qed.

Lemma install_patch_footprint self p f b target custom s0 :
  is_Some (dicts s0 !! applied_patches self) →
  hoare (same_private s0) (Protocol.install_patch py self p f b target custom)
    (λ r s1, match r with
             | inl _ => apply_failed self p b s0 s1
             | inr true => apply_done self p f b s0 s1
             | inr false => False
             end).
Proof.
  intros [A HA]. unfold Protocol.install_patch.
  apply (hoare_bind _ (λ _, staged self p b s0)).
  - destruct b.
    + intros s (Hd & Hr & Hl).
      destruct (ledger_setitem_cases (backup_modules self) p ∅ s)
        as [[HL Hset]|(L & HL & Hset)].
      { rewrite (bind_raise _ _ _ _ _ Hset). simpl. split_and!; [done..|by left]. }
      rewrite (bind_ok _ _ _ _ _ Hset).
      set (s' := set_ledgers _ s).
      assert (staged self p true s0 s') as Hs'.
      { split_and!; [done..|]. exists L, ∅. rewrite <- Hl. by split. }
      pose proof (backup_loop_staged self p target s0 s' Hs') as H.
      destruct (Protocol.for_public_attrs py target _ s') as [[e|[]] s1]; simpl in *.
      * by apply staged_failed.
      * done.
    + intros s Hs. simpl. done.
  - intros _.
    apply hoare_keeps; [kp Hpy|apply staged_closed|intros; by apply staged_failed|]. intros n.
    apply hoare_keeps; [kp Hpy|apply staged_closed|intros; by apply staged_failed|]. intros _.
    apply hoare_keeps; [kp Hpy|apply staged_closed|intros; by apply staged_failed|]. intros _.
    apply hoare_keeps; [kp Hpy|apply staged_closed|intros; by apply staged_failed|]. intros _.
    intros s (Hd & Hr & Hb).
    unfold new_record, dict_setitem, dict_at, bind, get_state, modify, ret. simpl.
    rewrite Hd, HA. simpl.
    exists A, (fresh (dom (records s))), n. rewrite Hr.
    split_and!; simpl; rewrite ?Hd, ?Hr; try done.
    apply not_elem_of_dom, is_fresh.
Qed.

Lemma same_private_failed self p b s0 s : same_private s0 s → apply_failed self p b s0 s.
Proof. intros (? & ? & ?). split_and!; [done..|by left]. Qed.

(** What an apply does to the patcher's dictionaries. *)
Lemma apply_footprint self p f b s0 :
  is_Some (dicts s0 !! applied_patches self) →
  let r := Protocol.patch_module_from_file host py self p f b s0 in
  if r.1 then apply_done self p f b s0 r.2 else apply_failed self p b s0 r.2.
Proof.
  intros HA.
  assert (hoare (same_private s0) (Protocol.patch_module_from_file_body host py self p f b)
            (λ r s1, match r with
                     | inl _ => apply_failed self p b s0 s1
                     | inr true => apply_done self p f b s0 s1
                     | inr false => False
                     end)) as H.
  { unfold Protocol.patch_module_from_file_body.
    apply hoare_keeps;
      [kp Hpy|apply same_private_closed|intros; by apply same_private_failed|].
    intros custom_exists.
    destruct (negb custom_exists);
      [apply hoare_raise; intros; by apply same_private_failed|].
    apply hoare_keeps;
      [kp Hpy|apply same_private_closed|intros; by apply same_private_failed|].
    intros _.
    apply hoare_keeps;
      [kp Hpy|apply same_private_closed|intros; by apply same_private_failed|].
    intros target.
    destruct (negb (host_loader_found host f));
      [apply hoare_raise; intros; by apply same_private_failed|].
    apply hoare_keeps;
      [kp Hpy|apply same_private_closed|intros; by apply same_private_failed|].
    intros custom.
    apply hoare_keeps;
      [kp Hpy|apply same_private_closed|intros; by apply same_private_failed|].
    intros _.
    apply hoare_keeps;
      [kp Hpy|apply same_private_closed|intros; by apply same_private_failed|].
    intros _.
    by apply install_patch_footprint. }
  specialize (H s0 (same_private_refl s0)).
  unfold Protocol.patch_module_from_file, returning_False_on_exception. simpl.
  destruct (Protocol.patch_module_from_file_body host py self p f b s0) as [[e|[]] s1];
    simpl in *; done.
Qed.

(** What a restore does to the patcher's dictionaries. *)
Lemma restore_footprint self p s0 :
  let r := Protocol.restore_module py self p s0 in
  if r.1 then restore_done self p s0 r.2 else same_private s0 r.2.
Proof.
  unfold Protocol.restore_module, returning_False_on_exception,
    Protocol.restore_module_body.
  destruct (dicts s0 !! applied_patches self) as [A|] eqn:HA.
  2:{ by rewrite (bind_raise _ _ _ _ _ (dict_contains_dangling _ _ _ HA)). }
  rewrite (bind_ok _ _ _ _ _ (dict_contains_ok _ p _ _ HA)).
  destruct (A !! p) as [rl|] eqn:Hrl.
  2:{ by rewrite bool_decide_eq_false_2 by (by intros [? ?]). }
  rewrite bool_decide_eq_true_2 by (by eexists). cbn [negb].
  rewrite (bind_ok _ _ _ _ _ (dict_getitem_ok _ _ _ _ _ HA Hrl)).
  destruct (records s0 !! rl) as [rec|] eqn:Hrec.
  2:{ by rewrite (bind_raise _ _ _ _ _ (record_at_dangling _ _ Hrec)). }
  rewrite (bind_ok _ _ _ _ _ (record_at_ok _ _ _ Hrec)).
  destruct (backup_available rec) eqn:Hav; cbn [negb]; [|done].
  rewrite bind_get_state.
  destruct (sys_modules s0 !! p) as [target|]; [|done].
  destruct (ledgers s0 !! backup_modules self ≫= (λ L, L !! p)) as [snap|] eqn:Hsnap.
  2:{ destruct (ledger_getitem_missing _ _ _ Hsnap) as [e He].
      by rewrite (bind_raise _ _ _ _ _ He). }
  destruct (ledgers s0 !! backup_modules self) as [L|] eqn:HL; [|done]. simpl in Hsnap.
  rewrite (bind_ok _ _ _ _ _ (ledger_getitem_ok _ _ _ _ _ HL Hsnap)).
  match goal with
  | |- context [bind (Protocol.restore_attrs py target snap) ?k] =>
      assert (hoare (same_private s0) (bind (Protocol.restore_attrs py target snap) k)
                (λ r s1, match r with
                         | inl _ => same_private s0 s1
                         | inr true => restore_done self p s0 s1
                         | inr false => False
                         end)) as H
  end.
  { apply hoare_keeps; [kp Hpy|apply same_private_closed|done|]. intros _.
    apply hoare_keeps; [kp Hpy|apply same_private_closed|done|]. intros has_flag.
    apply hoare_keeps; [kp Hpy|apply same_private_closed|done|]. intros _.
    apply hoare_keeps; [kp Hpy|apply same_private_closed|done|]. intros has_source.
    apply hoare_keeps; [kp Hpy|apply same_private_closed|done|]. intros _.
    intros s (Hd & Hr & Hl).
    erewrite bind_ok; last first.
    { eapply dict_delitem_ok; [by rewrite Hd|done]. }
    erewrite bind_ok; last first.
    { eapply ledger_delitem_ok; [simpl; by rewrite Hl|done]. }
    unfold restore_done. exists A, L, rl, rec. simpl. rewrite Hd, Hr, Hl.
    split_and!; try done. }
  specialize (H s0 (same_private_refl s0)).
  match goal with |- context [bind ?c ?k s0] => destruct (bind c k s0) as [[e|[]] s1] end;
    simpl in *; done.
Qed.

End Footprints.

Lemma verify_patch_state p s : (Fixed.verify_patch p s).2 = s.
Proof.
  unfold Fixed.verify_patch, returning_False_on_exception, Fixed.verify_patch_body.
  rewrite bind_get_state.
  destruct (sys_modules s !! p) as [l|]; [|done].
  unfold hasattr, module_at, bind, get_state, ret, raise.
  by destruct (modules s !! l).
Qed.

Lemma list_patches_inv self s r s1 :
  Fixed.list_patches self s = (r, s1) →
  match r with
  | inl _ => s1 = s
  | inr d => d ≠ applied_patches self ∧ dicts s !! d = None ∧
             is_Some (dicts s !! applied_patches self) ∧
             s1 = set_dicts <[d := record_refs self s]> s
  end.
Proof.
  unfold Fixed.list_patches, dict_copy, dict_at, record_refs.
  unfold bind at 1 2, get_state.
  destruct (dicts s !! applied_patches self) as [A|] eqn:HA.
  - unfold ret at 1. rewrite new_dict_ok. intros [= <- <-].
    assert (dicts s !! fresh (dom (dicts s)) = None) as Hfresh
      by apply not_elem_of_dom, is_fresh.
    split_and!; try done. intros Heq. rewrite Heq in Hfresh. congruence.
  - unfold bind, raise. by intros [= <- <-].
Qed.

(** *** The relation every public operation keeps *)

Lemma apply_invariant strict host py self p f b s :
  frames py →
  (strict = true → b = true) →
  ledger_invariant strict self s →
  ledger_invariant strict self (Protocol.patch_module_from_file host py self p f b s).2.
Proof.
  intros Hpy Hstrict (A & L & HA & HL & Hrec & Hav & Hall).
  pose proof (apply_footprint host py Hpy self p f b s (ex_intro _ A HA)) as H.
  simpl in H.
  destruct (Protocol.patch_module_from_file host py self p f b s) as [[] s1]; simpl in *.
  - destruct H as (A' & rl & n & HA' & Hfresh & Hd & Hr & Hb).
    assert (A' = A) as -> by congruence.
    assert (∀ q rq, A !! q = Some rq → rq ≠ rl) as Hold.
    { intros q rq Hq ->. destruct (Hrec _ _ Hq) as [? ?]. congruence. }
    exists (<[p := rl]> A),
      (if b then <[p := default ∅ (ledgers s1 !! backup_modules self ≫= (λ L', L' !! p))]> L
       else L).
    rewrite Hd, Hr. split_and!.
    + by rewrite lookup_insert_eq.
    + unfold backed in Hb. destruct b.
      * destruct Hb as (L' & snap & HL' & ->). assert (L' = L) as -> by congruence.
        rewrite !lookup_insert_eq. simpl. by rewrite lookup_insert_eq.
      * by rewrite Hb.
    + intros q rq. rewrite lookup_insert. case_decide.
      * intros [= <-]. rewrite lookup_insert_eq. by eexists.
      * intros Hq. rewrite lookup_insert_ne by (symmetry; by eapply Hold).
        by eapply Hrec.
    + intros q rq rec. rewrite lookup_insert. case_decide as Hqp.
      * intros [= <-]. rewrite lookup_insert_eq. intros [= <-]. simpl. intros ->.
        subst q. rewrite lookup_insert_eq. by eexists.
      * intros Hq. rewrite lookup_insert_ne by (symmetry; by eapply Hold).
        intros Hrq Hbq. destruct (Hav _ _ _ Hq Hrq Hbq) as [v Hv].
        destruct b; [|by eexists]. rewrite lookup_insert_ne by done. by eexists.
    + intros Hs q rq rec. rewrite lookup_insert. case_decide.
      * intros [= <-]. rewrite lookup_insert_eq. intros [= <-]. simpl. by apply Hstrict.
      * intros Hq. rewrite lookup_insert_ne by (symmetry; by eapply Hold).
        by eapply Hall.
  - destruct H as (Hd & Hr & [Hl|[-> Hb]]).
    + exists A, L. by rewrite Hd, Hr, Hl.
    + destruct Hb as (L' & snap & HL' & Hl). assert (L' = L) as -> by congruence.
      exists A, (<[p := snap]> L). rewrite Hd, Hr, Hl. split_and!; try done.
      * by rewrite lookup_insert_eq.
      * intros q rq rec Hq Hrq Hbq. destruct (Hav _ _ _ Hq Hrq Hbq) as [v Hv].
        rewrite lookup_insert. case_decide; by eexists.
Qed.

Lemma restore_invariant strict py self p s :
  frames py →
  ledger_invariant strict self s →
  ledger_invariant strict self (Protocol.restore_module py self p s).2.
Proof.
  intros Hpy (A & L & HA & HL & Hrec & Hav & Hall).
  pose proof (restore_footprint py Hpy self p s) as H. simpl in H.
  destruct (Protocol.restore_module py self p s) as [[] s1]; simpl in *.
  - destruct H as (A' & L' & rl & rec & HA' & Hrl & Hr & Hb & HL' & Hsnap & Hd & Hrs & Hl).
    assert (A' = A) as -> by congruence. assert (L' = L) as -> by congruence.
    exists (delete p A), (delete p L). rewrite Hd, Hrs, Hl, !lookup_insert_eq.
    split_and!; try done.
    + intros q rq [_ Hq]%lookup_delete_Some. by eapply Hrec.
    + intros q rq rc [Hne Hq]%lookup_delete_Some Hrq Hbq.
      rewrite lookup_delete_ne by done. by eapply Hav.
    + intros Hs q rq rc [Hne Hq]%lookup_delete_Some. by eapply Hall.
  - destruct H as (Hd & Hr & Hl). exists A, L. by rewrite Hd, Hr, Hl.
Qed.

Lemma restore_each_invariant strict py self paths :
  frames py →
  ∀ success s,
    ledger_invariant strict self s →
    ledger_invariant strict self (Protocol.restore_each py self paths success s).2.
Proof.
  intros Hpy. induction paths as [|p paths IH]; intros success s Hinv; simpl; [done|].
  unfold bind, call. apply IH. by apply restore_invariant.
Qed.

Lemma restore_all_invariant strict py self s :
  frames py →
  ledger_invariant strict self s →
  ledger_invariant strict self (Protocol.restore_all py self s).2.
Proof.
  intros Hpy Hinv. unfold Protocol.restore_all.
  pose proof Hinv as (A & L & HA & _).
  assert (dict_keys (applied_patches self) s = (inr (map_to_list A).*1, s)) as Hkeys.
  { unfold dict_keys, dict_at, bind, get_state, ret. by rewrite HA. }
  rewrite (bind_ok _ _ _ _ _ Hkeys). by apply restore_each_invariant.
Qed.

Lemma verify_patch_private py p s :
  frames py → same_private s (Protocol.verify_patch py p s).2.
Proof.
  intros Hpy. pose proof (kp_verify_patch_body py Hpy p s) as H.
  unfold Protocol.verify_patch, returning_False_on_exception.
  by destruct (Protocol.verify_patch_body py p s) as [[e|b] s1].
Qed.

Lemma invariant_private strict self s s' :
  same_private s s' → ledger_invariant strict self s → ledger_invariant strict self s'.
Proof.
  intros (Hd & Hr & Hl) (A & L & H). exists A, L. by rewrite Hd, Hr, Hl.
Qed.

Lemma list_patches_invariant strict self s :
  ledger_invariant strict self s →
  ledger_invariant strict self (Fixed.list_patches self s).2.
Proof.
  intros Hinv.
  destruct (Fixed.list_patches self s) as [[e|d] s1] eqn:H;
    apply list_patches_inv in H; simpl.
  - by subst.
  - destruct H as (Hne & _ & _ & ->).
    destruct Hinv as (A & L & HA & HL & Hrest).
    exists A, L. simpl. by rewrite lookup_insert_ne.
Qed.

Lemma run_op_invariant strict host py self op s :
  frames py →
  (strict = true → default_backup op = true) →
  ledger_invariant strict self s →
  ledger_invariant strict self (Protocol.run_op host py self op s).
Proof.
  intros Hpy Hs Hinv. destruct op; simpl.
  - by apply apply_invariant.
  - by apply restore_invariant.
  - by apply restore_all_invariant.
  - eapply invariant_private; [by apply verify_patch_private|done].
  - by apply list_patches_invariant.
Qed.

Lemma run_ops_invariant strict host py self ops :
  frames py →
  (strict = true → forallb default_backup ops = true) →
  ∀ s, ledger_invariant strict self s →
       ledger_invariant strict self (Protocol.run_ops host py self ops s).
Proof.
  intros Hpy. unfold Protocol.run_ops.
  induction ops as [|op ops IH]; intros Hs s Hinv; simpl; [done|].
  apply IH.
  - intros Hst. specialize (Hs Hst). simpl in Hs. by apply andb_prop in Hs as [_ ?].
  - apply run_op_invariant; [done| |done].
    intros Hst. specialize (Hs Hst). simpl in Hs. by apply andb_prop in Hs as [? _].
Qed.

Lemma init_invariant strict world :
  ledger_invariant strict (Fixed.init world).1 (Fixed.init world).2.
Proof. exists ∅, ∅. simpl. rewrite !lookup_insert_eq. by split_and!. Qed.

Lemma lookup_patch_records self s p rec :
  patch_records self s !! p = Some rec ↔
  ∃ rl, record_refs self s !! p = Some rl ∧ records s !! rl = Some rec.
Proof.
  unfold patch_records. rewrite lookup_omap.
  destruct (record_refs self s !! p) as [rl|]; simpl; split.
  - intros H. by exists rl.
  - by intros (rl' & [= <-] & H).
  - done.
  - by intros (rl & ? & _).
Qed.

(** C3, as amended: after any sequence of public operations on a new patch
    manager, whatever the attribute operations, the imports and the replacement
    files do short of reaching into the manager's two dictionaries, a path whose
    record says [backup_available] has a backup snapshot; and when every apply
    of the sequence keeps the default [backup=True], every path with a patch
    record has a backup snapshot.  (An apply with [backup=False] records the
    patch without a snapshot.) *)
Theorem C3_ledger_and_records host py world ops :
  frames py →
  let self := (Fixed.init world).1 in
  let s := Protocol.run_ops host py self ops (Fixed.init world).2 in
  (∀ p rec, patch_records self s !! p = Some rec → backup_available rec = true →
            is_Some (backup_ledger self s !! p)) ∧
  (forallb default_backup ops = true →
   ∀ p, is_Some (patch_records self s !! p) → is_Some (backup_ledger self s !! p)).
Proof.
  intros Hpy self s.
  assert (∀ strict, (strict = true → forallb default_backup ops = true) →
                    ledger_invariant strict self s) as Hinv.
  { intros strict Hs. apply run_ops_invariant; [done..|]. apply init_invariant. }
  assert (ledger_invariant false self s) as (A & L & HA & HL & Hrec & Hav & _)
    by (by apply Hinv).
  assert (record_refs self s = A) as HA' by (unfold record_refs; by rewrite HA).
  assert (backup_ledger self s = L) as HL' by (unfold backup_ledger; by rewrite HL).
  rewrite HL'. split.
  - intros p rec (rl & Hrl & Hr)%lookup_patch_records. rewrite HA' in Hrl.
    by eapply Hav.
  - intros Hdef p [rec (rl & Hrl & Hr)%lookup_patch_records].
    destruct (Hinv true (λ _, Hdef)) as (A2 & L2 & HA2 & HL2 & _ & Hav2 & Hall2).
    assert (A2 = A) as -> by congruence. assert (L2 = L) as -> by congruence.
    rewrite HA' in Hrl. eapply Hav2; [done..|]. by eapply Hall2.
Qed.

Lemma C3_witness :
  is_Some (patch_records Hooked.self
             (Protocol.run_ops Hooked.host Hooked.python Hooked.self Hooked.ops Hooked.s0)
           !! "pkg.mod") ∧
  is_Some (backup_ledger Hooked.self
             (Protocol.run_ops Hooked.host Hooked.python Hooked.self Hooked.ops Hooked.s0)
           !! "pkg.mod").
Proof.
  assert (is_Some (patch_records Hooked.self
             (Protocol.run_ops Hooked.host Hooked.python Hooked.self Hooked.ops Hooked.s0)
           !! "pkg.mod")) as Hrec by (vm_compute; by eexists).
  split; [exact Hrec|].
  apply (proj2 (C3_ledger_and_records Hooked.host Hooked.python Scenario.world Hooked.ops
                  (frames_pep562 Hooked.host Hooked.call))).
  - vm_compute; reflexivity.
  - exact Hrec.
Defined.

(** C3 as stated fails in both directions.  After one apply with
    [backup=False] the path has a patch record and no backup snapshot.  And
    after an apply with the backup enabled that fails in the transplant (the
    replacement's [__dir__] lists a name the module does not bind) the path has
    a backup snapshot and no patch record. *)
Lemma C3_counterexample :
  (is_Some (patch_records NoBackup.self NoBackup.s !! "pkg.mod") ∧
   backup_ledger NoBackup.self NoBackup.s !! "pkg.mod" = None ∧
   ¬ (is_Some (backup_ledger NoBackup.self NoBackup.s !! "pkg.mod") ↔
      is_Some (patch_records NoBackup.self NoBackup.s !! "pkg.mod"))) ∧
  (Hooked.failed.1 = false ∧
   backup_ledger Hooked.self Hooked.failed.2 !! "pkg.mod"
     = Some (<["foo" := VInt 1]> (<["bar" := VStr "x"]> ∅)) ∧
   patch_records Hooked.self Hooked.failed.2 !! "pkg.mod" = None ∧
   ¬ (is_Some (backup_ledger Hooked.self Hooked.failed.2 !! "pkg.mod") ↔
      is_Some (patch_records Hooked.self Hooked.failed.2 !! "pkg.mod"))).
Proof.
  assert (patch_records NoBackup.self NoBackup.s !! "pkg.mod"
          = Some (mkRecord "/patch/replacement.py" 1 false)) as Hrec
    by (vm_compute; reflexivity).
  assert (backup_ledger NoBackup.self NoBackup.s !! "pkg.mod" = None) as Hled
    by (vm_compute; reflexivity).
  assert (backup_ledger Hooked.self Hooked.failed.2 !! "pkg.mod"
          = Some (<["foo" := VInt 1]> (<["bar" := VStr "x"]> ∅))) as Hled'
    by (vm_compute; reflexivity).
  assert (patch_records Hooked.self Hooked.failed.2 !! "pkg.mod" = None) as Hrec'
    by (vm_compute; reflexivity).
  split; split_and!.
  - rewrite Hrec. by eexists.
  - done.
  - rewrite Hrec, Hled. intros [_ H]. destruct H as [? ?]; [by eexists|done].
  - vm_compute; reflexivity.
  - done.
  - done.
  - rewrite Hrec', Hled'. intros [H _]. destruct H as [? ?]; [by eexists|done].
Qed.

(** ** The context manager *)

(** C8: [patched_mllama_processor] makes one call to apply on entry and hands
    its result to the body; however the body is left (it completes, returns
    early or raises), the way it was left is passed on, and the calls made
    are that apply followed by exactly one restore of the mllama processor
    path when apply returned true, and by no restore when it returned false. *)
Theorem C8_scoped_patch {Σ P R : Type}
    (new_patcher : Σ → P * Σ)
    (patch_mllama_processor : P → option string → Σ → bool * Σ)
    (restore_module : P → string → Σ → bool * Σ)
    (custom_file_path : option string)
    (body : bool → Σ → Example.body_exit R * Σ) (s : Σ) :
  let patcher := (new_patcher s).1 in
  let applied := patch_mllama_processor patcher custom_file_path (new_patcher s).2 in
  let left := body applied.1 applied.2 in
  let run :=
    Example.with_statement
      (Example.patched_mllama_processor
         (Example.recording_new new_patcher)
         (Example.recording_apply patch_mllama_processor)
         (Example.recording_restore restore_module)
         custom_file_path)
      (Example.recording_body body) (s, []) in
  run.1 = left.1 ∧
  run.2.2 = Example.CallApply custom_file_path ::
            (if applied.1 then [Example.CallRestore mllama_path] else []) ∧
  run.2.1 = (if applied.1 then (restore_module patcher mllama_path left.2).2 else left.2).
Proof.
  intros patcher applied left run. subst run.
  unfold Example.with_statement, Example.patched_mllama_processor,
    Example.enter, Example.finally_block,
    Example.recording_new, Example.recording_apply, Example.recording_restore,
    Example.recording_body.
  simpl. fold patcher. fold applied. fold left.
  by destruct (applied.1).
Qed.

(** ** The mapping returned by [list_patches] *)

Lemma mapping_ops_frame self d ops :
  d ≠ applied_patches self →
  ∀ s r s1,
    for_each ops (run_mapping_op d) s = (r, s1) →
    dicts s1 !! applied_patches self = dicts s !! applied_patches self ∧
    records s1 = records s ∧ ledgers s1 = ledgers s ∧
    modules s1 = modules s ∧ sys_modules s1 = sys_modules s.
Proof.
  intros Hne.
  assert (∀ op s r s1, run_mapping_op d op s = (r, s1) →
            dicts s1 !! applied_patches self = dicts s !! applied_patches self ∧
            records s1 = records s ∧ ledgers s1 = ledgers s ∧
            modules s1 = modules s ∧ sys_modules s1 = sys_modules s) as Hop.
  { intros op s r s1. destruct op; simpl;
      unfold dict_setitem, dict_delitem, dict_at, bind, get_state, ret, raise, modify;
      destruct (dicts s !! d) as [m|]; try (by intros [= <- <-]).
    - intros [= <- <-]. simpl. by rewrite lookup_insert_ne.
    - destruct (m !! key); intros [= <- <-]; [|done]. simpl. by rewrite lookup_insert_ne.
    - intros [= <- <-]. simpl. by rewrite lookup_insert_ne. }
  induction ops as [|op ops IH]; intros s r s1; simpl.
  - by intros [= <- <-].
  - intros [(e & H & _)|([] & s' & H & Hrest)]%bind_inv.
    + by eapply Hop.
    + apply Hop in H as (H1 & H2 & H3 & H4 & H5).
      apply IH in Hrest as (H1' & H2' & H3' & H4' & H5').
      split_and!; congruence.
Qed.

(** C9, as amended: [list_patches] returns a new dictionary with the
    bindings of [applied_patches]; whatever the caller then sets, deletes or
    clears in the returned dictionary, the patch manager's records stay as they
    were.  The record of a path is the same object in both dictionaries. *)
Theorem C9_list_patches_copy self s d s1 :
  Fixed.list_patches self s = (inr d, s1) →
  d ≠ applied_patches self ∧
  dicts s1 !! d = Some (record_refs self s) ∧
  patch_records self s1 = patch_records self s ∧
  (∀ ops r s2,
     for_each ops (run_mapping_op d) s1 = (r, s2) →
     record_refs self s2 = record_refs self s ∧
     patch_records self s2 = patch_records self s) ∧
  (∀ p, (dicts s1 !! d ≫= λ m, m !! p) = record_refs self s1 !! p).
Proof.
  intros H. apply list_patches_inv in H as (Hne & Hd & [A HA] & ->).
  assert (record_refs self (set_dicts <[d := record_refs self s]> s) = record_refs self s)
    as Hrefs by (unfold record_refs; simpl; by rewrite lookup_insert_ne).
  split_and!; try done.
  - simpl. by rewrite lookup_insert_eq.
  - unfold patch_records. by rewrite Hrefs.
  - intros ops r s2 Hops.
    apply (mapping_ops_frame self) in Hops as (Hd2 & Hr2 & _); [|done].
    assert (record_refs self s2 = record_refs self s) as Hrefs2.
    { unfold record_refs in *. by rewrite Hd2. }
    split; [done|]. unfold patch_records. by rewrite Hrefs2, Hr2.
  - intros p. rewrite Hrefs. simpl. by rewrite lookup_insert_eq.
Qed.

Lemma C9_witness :
  Listing.d ≠ applied_patches Scenario.self ∧
  dicts Listing.s_listed !! Listing.d = Some (record_refs Scenario.self Scenario.s1) ∧
  patch_records Scenario.self Listing.s_listed = patch_records Scenario.self Scenario.s1 ∧
  (∀ ops r s2,
     for_each ops (run_mapping_op Listing.d) Listing.s_listed = (r, s2) →
     record_refs Scenario.self s2 = record_refs Scenario.self Scenario.s1 ∧
     patch_records Scenario.self s2 = patch_records Scenario.self Scenario.s1) ∧
  (∀ p, (dicts Listing.s_listed !! Listing.d ≫= λ m, m !! p)
        = record_refs Scenario.self Listing.s_listed !! p).
Proof.
  apply (C9_list_patches_copy Scenario.self Scenario.s1 Listing.d Listing.s_listed).
  vm_compute; reflexivity.
Defined.

(** C9 as stated fails: the caller sets [patch_count] of the record found in
    the returned dictionary, and the patch manager's record of the path has
    changed. *)
Lemma C9_counterexample :
  Fixed.list_patches Scenario.self Scenario.s1 = (inr Listing.d, Listing.s_listed) ∧
  (set_patch_count Listing.d "pkg.mod" 99 Listing.s_listed).1 = inr tt ∧
  patch_records Scenario.self Scenario.s1 !! "pkg.mod"
    = Some (mkRecord "/patch/replacement.py" 1 true) ∧
  patch_records Scenario.self Listing.s_mutated !! "pkg.mod"
    = Some (mkRecord "/patch/replacement.py" 99 true) ∧
  patch_records Scenario.self Listing.s_mutated ≠ patch_records Scenario.self Scenario.s1.
Proof.
  assert (patch_records Scenario.self Scenario.s1 !! "pkg.mod"
          = Some (mkRecord "/patch/replacement.py" 1 true)) as H1
    by (vm_compute; reflexivity).
  assert (patch_records Scenario.self Listing.s_mutated !! "pkg.mod"
          = Some (mkRecord "/patch/replacement.py" 99 true)) as H2
    by (vm_compute; reflexivity).
  split; [vm_compute; reflexivity|].
  split; [vm_compute; reflexivity|].
  split; [exact H1|]. split; [exact H2|].
  intros H. rewrite H, H1 in H2. injection H2 as H2. discriminate H2.
Qed.

(** ** The patch record of an apply *)

(** The count stored in the patch record is the number of public names of
    the custom module, and each of them is on the target after the apply. *)
Lemma apply_transplants_and_counts host self p f b s s1 :
  Fixed.patch_module_from_file host self p f b s = (true, s1) →
  ∃ c,
    custom_namespace host f = Some c ∧
    patch_records self s1 !! p = Some (mkRecord f (size (public_part c)) b) ∧
    (∀ name v, c !! name = Some v → is_public name = true →
               live_attr s1 p name = Some v).
Proof.
  intros H. apply patch_success_view in H
    as (t & c & rl & Hc & _ & Hlive & _ & _ & Hrec & _ & Hd).
  exists c. split_and!; [done| |].
  - apply lookup_patch_records. exists rl.
    unfold record_refs. rewrite Hd, Hrec, !lookup_insert_eq. simpl.
    by rewrite lookup_insert_eq.
  - intros name v Hv Hp. unfold live_attr. rewrite Hlive.
    by rewrite lookup_patched_namespace, Hv.
Qed.

(** ** The scenario of the specification *)

(** The target exposes [foo = 1] and [bar = "x"], the replacement defines
    [foo = 2]. *)
Example scenario_apply_then_restore :
  (Scenario.apply "/patch/replacement.py" Scenario.s0).1 = true ∧
  live_attr Scenario.s1 "pkg.mod" "foo" = Some (VInt 2) ∧
  live_attr Scenario.s1 "pkg.mod" "bar" = Some (VStr "x") ∧
  (Fixed.verify_patch "pkg.mod" Scenario.s1).1 = true ∧
  (Fixed.restore_module Scenario.self "pkg.mod" Scenario.s1).1 = true ∧
  live_attr (Fixed.restore_module Scenario.self "pkg.mod" Scenario.s1).2 "pkg.mod" "foo"
    = Some (VInt 1) ∧
  (Fixed.verify_patch "pkg.mod"
     (Fixed.restore_module Scenario.self "pkg.mod" Scenario.s1).2).1 = false.
Proof. split_and!; vm_compute; reflexivity. Qed.

(** ** simple_patch.py and runtime_patch.py *)

(** [restore_mllama_processor_simple] on a loaded, unpatched module. *)
Lemma simple_restore_unpatched host s (m : module) :
  live_module s mllama_path = Some m →
  m !! "_runtime_patched" = None →
  Simple.restore_mllama_processor_simple host s = (false, s).
Proof.
  unfold live_module. intros Hlive Hflag.
  destruct (sys_modules s !! mllama_path) as [l|] eqn:Hl; [|done]. simpl in Hlive.
  unfold Simple.restore_mllama_processor_simple, returning_False_on_exception,
    Simple.restore_mllama_processor_simple_body.
  assert (import_module host mllama_path s = (inr l, s)) as Himp.
  { unfold import_module. rewrite bind_get_state, Hl.
    by rewrite (bind_ok _ _ _ _ _ (module_at_ok _ _ _ Hlive)). }
  rewrite (bind_ok _ _ _ _ _ Himp).
  rewrite (bind_ok _ _ _ _ _ (hasattr_ok _ _ _ _ Hlive)), Hflag.
  by rewrite bool_decide_eq_false_2 by (by intros [? ?]).
Qed.

(** The simple variant on the mllama processor: the marker follows apply and
    restore; a second apply saves the patched values as the backup; a name the
    patch added survives the restore. *)
Example simple_variant :
  (Simple.patch_mllama_processor_simple Mllama.host Mllama.s0).1 = true ∧
  (Simple.verify_patch_simple Mllama.host Mllama.simple_once).1 = true ∧
  live_attr Mllama.simple_once mllama_path "_backup"
    = Some (VDict (<["MllamaProcessor" := VObj 1]> (<["make_list_of_images" := VObj 2]> ∅))) ∧
  (Simple.patch_mllama_processor_simple Mllama.host Mllama.simple_once).1 = true ∧
  live_attr Mllama.simple_twice mllama_path "_backup"
    = Some (VDict (<["MllamaProcessor" := VObj 10]>
                     (<["ImageInput" := VObj 11]> (<["make_list_of_images" := VObj 2]> ∅)))) ∧
  (Simple.restore_mllama_processor_simple Mllama.host Mllama.simple_once).1 = true ∧
  (Simple.verify_patch_simple Mllama.host Mllama.simple_restored).1 = false ∧
  live_attr Mllama.simple_restored mllama_path "MllamaProcessor" = Some (VObj 1) ∧
  live_attr Mllama.simple_restored mllama_path "ImageInput" = Some (VObj 11).
Proof. split_and!; vm_compute; reflexivity. Qed.

(** The first variant on a replacement without relative imports: only names
    the target already had are saved; a second apply saves the patched values;
    a name the patch added survives the restore; [verify_patch] looks for a
    marker on the class and is not moved by apply. *)
Example runtime_variant :
  (Runtime.patch_mllama_processor Mllama.host_plain Mllama.s0).1 = true ∧
  live_attr Mllama.runtime_once mllama_path "_original_backup"
    = Some (VDict (<["MllamaProcessor" := VObj 1]> ∅)) ∧
  (Runtime.patch_mllama_processor Mllama.host_plain Mllama.runtime_once).1 = true ∧
  live_attr Mllama.runtime_twice mllama_path "_original_backup"
    = Some (VDict (<["MllamaProcessor" := VObj 10]> (<["ImageInput" := VObj 11]> ∅))) ∧
  (Runtime.restore_original_processor Mllama.host_plain Mllama.runtime_once).1 = true ∧
  live_attr Mllama.runtime_restored mllama_path "MllamaProcessor" = Some (VObj 1) ∧
  live_attr Mllama.runtime_restored mllama_path "ImageInput" = Some (VObj 11) ∧
  (Runtime.verify_patch Mllama.host_plain Mllama.runtime_once).1 = false ∧
  (Runtime.patch_mllama_processor Mllama.host Mllama.s0).1 = false.
Proof. split_and!; vm_compute; reflexivity. Qed.

(** The [with] block on the fixed patcher: the body's exception is passed on
    and the processor is back in place, unmarked. *)
Example scoped_patch_body_raises :
  Scoped.run.1 = Example.Raises ExecError ∧
  live_attr Scoped.run.2 mllama_path "MllamaProcessor" = Some (VObj 1) ∧
  (Fixed.verify_patch mllama_path Scoped.run.2).1 = false.
Proof. split_and!; vm_compute; reflexivity. Qed.

(** * Further properties of the patch tools *)

(** ** fixed_patch.py: more on [restore_module] *)

Lemma restore_module_ok self p s (A : gmap string loc) rl rec target (t : module)
    (L : gmap string snapshot) (snap : snapshot) :
  dicts s !! applied_patches self = Some A → A !! p = Some rl →
  records s !! rl = Some rec → backup_available rec = true →
  sys_modules s !! p = Some target → modules s !! target = Some t →
  ledgers s !! backup_modules self = Some L → L !! p = Some snap →
  Fixed.restore_module self p s = (true, restored self p target snap t s).
Proof.
  intros HA Hrl Hrec Hav Hp Ht HL Hsnap.
  destruct (Fixed.restore_module self p s) as [[] s1] eqn:H.
  - apply restore_success in H
      as (A' & rl' & rec' & target' & t' & L' & snap' & ? & ? & ? & ? & ? & ? & ? & ? & ->).
    by simplify_eq.
  - exfalso. unfold Fixed.restore_module, returning_False_on_exception in H.
    destruct (Fixed.restore_module_body self p s) as [r s2] eqn:Hb.
    unfold Fixed.restore_module_body in Hb.
    rewrite (bind_ok _ _ _ _ _ (dict_contains_ok _ p _ _ HA)) in Hb.
    rewrite bool_decide_eq_true_2 in Hb by (by eexists). simpl in Hb.
    rewrite (bind_ok _ _ _ _ _ (dict_getitem_ok _ _ _ _ _ HA Hrl)) in Hb.
    rewrite (bind_ok _ _ _ _ _ (record_at_ok _ _ _ Hrec)), Hav in Hb. simpl in Hb.
    rewrite bind_get_state, Hp in Hb.
    rewrite (bind_ok _ _ _ _ _ (ledger_getitem_ok _ _ _ _ _ HL Hsnap)) in Hb.
    rewrite (bind_ok _ _ _ _ _ (restore_attrs_ok _ snap _ _ Ht)) in Hb.
    erewrite clear_marker_ok in Hb by (simpl; by rewrite lookup_insert_eq).
    erewrite clear_marker_ok in Hb by (simpl; by rewrite lookup_insert_eq).
    erewrite bind_ok in Hb; last by eapply dict_delitem_ok.
    erewrite bind_ok in Hb; last by eapply ledger_delitem_ok.
    injection Hb as <- <-. done.
Qed.

Lemma restore_without_record self p s :
  record_refs self s !! p = None → Fixed.restore_module self p s = (false, s).
Proof.
  intros Hp.
  unfold Fixed.restore_module, returning_False_on_exception, Fixed.restore_module_body.
  unfold record_refs in Hp.
  destruct (dicts s !! applied_patches self) as [A|] eqn:HA; simpl in Hp.
  - rewrite (bind_ok _ _ _ _ _ (dict_contains_ok _ p _ _ HA)), Hp.
    by rewrite bool_decide_eq_false_2 by (by intros [? ?]).
  - by rewrite (bind_raise _ _ _ _ _ (dict_contains_dangling _ _ _ HA)).
Qed.

Lemma restore_without_backup self p s (A : gmap string loc) rl rec :
  dicts s !! applied_patches self = Some A → A !! p = Some rl →
  records s !! rl = Some rec → backup_available rec = false →
  Fixed.restore_module self p s = (false, s).
Proof.
  intros HA Hrl Hrec Hav.
  unfold Fixed.restore_module, returning_False_on_exception, Fixed.restore_module_body.
  rewrite (bind_ok _ _ _ _ _ (dict_contains_ok _ p _ _ HA)).
  rewrite bool_decide_eq_true_2 by (by eexists). simpl.
  rewrite (bind_ok _ _ _ _ _ (dict_getitem_ok _ _ _ _ _ HA Hrl)).
  by rewrite (bind_ok _ _ _ _ _ (record_at_ok _ _ _ Hrec)), Hav.
Qed.

Lemma patch_success_raw host self p f b s s1 :
  Fixed.patch_module_from_file host self p f b s = (true, s1) →
  ∃ (A : gmap string loc) rl target (t c : module),
    dicts s1 !! applied_patches self = Some A ∧ A !! p = Some rl ∧
    records s1 !! rl = Some (mkRecord f (size (public_part c)) b) ∧
    sys_modules s1 !! p = Some target ∧
    modules s1 !! target = Some (patched_namespace f c t) ∧
    (b = true → ∃ L : gmap string snapshot,
        ledgers s1 !! backup_modules self = Some L ∧ L !! p = Some (public_part t)) ∧
    (∀ m, live_module s p = Some m → t = m) ∧
    custom_namespace host f = Some c.
Proof.
  intros H. apply patch_success in H
    as (s' & target & custom & t & c & A & Hg & Hp & Ht & Hc & Hne & Hns & HA & Hb & ->).
  exists (<[p := fresh (dom (records s))]> A), (fresh (dom (records s))), target, t, c.
  pose proof Hg as (_ & _ & Hd & Hr & Hl).
  simpl. rewrite Hr, !lookup_insert_eq. split_and!; try done.
  - intros ->. eexists. rewrite lookup_insert_eq. split; [done|].
    by rewrite lookup_insert_eq.
  - intros m Hm. apply (grows_live_module _ _ _ _ Hg) in Hm.
    unfold live_module in Hm. rewrite Hp in Hm. simpl in Hm. congruence.
Qed.

(** X1: [restore_module] is all or nothing: when it returns [False], for
    whatever reason (no record, no backup, the module gone from [sys.modules],
    no snapshot), the whole state is as before the call. *)
Theorem X1_restore_all_or_nothing self p s s1 :
  Fixed.restore_module self p s = (false, s1) → s1 = s.
Proof. apply restore_failure. Qed.

Lemma X1_witness : (Fixed.restore_module NoBackup.self "pkg.mod" NoBackup.s).2 = NoBackup.s.
Proof.
  apply (X1_restore_all_or_nothing NoBackup.self "pkg.mod" NoBackup.s).
  vm_compute; reflexivity.
Defined.

(** X2: an apply that returns [False] records nothing, on whatever path it
    failed and whatever the attribute operations, the imports and the
    replacement file do short of reaching into the patcher's dictionaries: the
    patch records are as before, the backup of every other path is as before,
    and with [backup=False] the backups are untouched.  (The backup of the
    target path itself may have been taken again.) *)
Theorem X2_failed_apply_records_nothing host py self p f b s s1 :
  frames py →
  is_Some (dicts s !! applied_patches self) →
  Protocol.patch_module_from_file host py self p f b s = (false, s1) →
  patch_records self s1 = patch_records self s ∧
  (∀ q, q ≠ p → backup_ledger self s1 !! q = backup_ledger self s !! q) ∧
  (b = false → backup_ledger self s1 = backup_ledger self s).
Proof.
  intros Hpy HA H.
  pose proof (apply_footprint host py Hpy self p f b s HA) as Hf.
  rewrite H in Hf. simpl in Hf. destruct Hf as (Hd & Hr & Hl).
  split_and!.
  - unfold patch_records, record_refs. by rewrite Hd, Hr.
  - intros q Hq. unfold backup_ledger.
    destruct Hl as [->|[_ (L & snap & HL & ->)]]; [done|].
    rewrite lookup_insert_eq, HL. simpl. by rewrite lookup_insert_ne.
  - intros ->. unfold backup_ledger. by destruct Hl as [->|[? _]].
Qed.

Lemma X2_witness :
  patch_records Hooked.self Hooked.failed.2 = patch_records Hooked.self Hooked.s0 ∧
  (∀ q, q ≠ "pkg.mod" →
        backup_ledger Hooked.self Hooked.failed.2 !! q
        = backup_ledger Hooked.self Hooked.s0 !! q) ∧
  (true = false →
   backup_ledger Hooked.self Hooked.failed.2 = backup_ledger Hooked.self Hooked.s0).
Proof.
  apply (X2_failed_apply_records_nothing Hooked.host Hooked.python Hooked.self
           "pkg.mod" "/patch/hooked.py" true Hooked.s0).
  - apply frames_pep562.
  - vm_compute. by eexists.
  - vm_compute; reflexivity.
Defined.

(** X3: a successful apply changes on the target only the public names of
    the replacement and the two markers: every other name, private names
    included, keeps the value it had. *)
Theorem X3_apply_keeps_other_names host self p f b s s1 m0 :
  live_module s p = Some m0 →
  Fixed.patch_module_from_file host self p f b s = (true, s1) →
  ∃ c m1,
    custom_namespace host f = Some c ∧
    live_module s1 p = Some m1 ∧
    ∀ name,
      name ≠ "_runtime_patched" → name ≠ "_patch_source" →
      public_part c !! name = None →
      m1 !! name = m0 !! name.
Proof.
  intros Hm0 H. apply patch_success_view in H
    as (t & c & rl & Hc & Ht & Hlive & _).
  pose proof (Ht _ Hm0) as ->.
  exists c, (patched_namespace f c m0). split_and!; [done..|].
  intros name H1 H2 Hn. unfold patched_namespace.
  rewrite !lookup_insert_ne by done. by rewrite lookup_union_r.
Qed.

Lemma X3_witness :
  ∃ c m1,
    custom_namespace Scenario.host "/patch/replacement.py" = Some c ∧
    live_module Scenario.s1 "pkg.mod" = Some m1 ∧
    ∀ name,
      name ≠ "_runtime_patched" → name ≠ "_patch_source" →
      public_part c !! name = None →
      m1 !! name = Scenario.target_ns !! name.
Proof.
  apply (X3_apply_keeps_other_names Scenario.host Scenario.self "pkg.mod"
           "/patch/replacement.py" true Scenario.s0 Scenario.s1);
    vm_compute; reflexivity.
Defined.

(** X5: right after a successful apply with the backup enabled, restore of
    the same path succeeds, and the path has neither a patch record nor a
    backup snapshot afterwards. *)
Theorem X5_restore_after_apply_succeeds host self p f s s1 :
  Fixed.patch_module_from_file host self p f true s = (true, s1) →
  (Fixed.restore_module self p s1).1 = true ∧
  patch_records self (Fixed.restore_module self p s1).2 !! p = None ∧
  backup_ledger self (Fixed.restore_module self p s1).2 !! p = None.
Proof.
  intros H. apply patch_success_raw in H
    as (A & rl & target & t & c & HA & Hrl & Hrec & Hp & Ht & Hb & _).
  destruct (Hb eq_refl) as (L & HL & Hsnap).
  rewrite (restore_module_ok self p s1 A rl _ target _ L _ HA Hrl Hrec eq_refl Hp Ht HL Hsnap).
  simpl. split_and!; [done| |].
  - unfold patch_records, record_refs at 1. simpl. rewrite lookup_insert_eq. simpl.
    by rewrite lookup_omap, lookup_delete_eq.
  - unfold backup_ledger at 1. simpl. rewrite lookup_insert_eq. simpl.
    by rewrite lookup_delete_eq.
Qed.

Lemma X5_witness :
  (Fixed.restore_module Scenario.self "pkg.mod" Scenario.s1).1 = true ∧
  patch_records Scenario.self (Fixed.restore_module Scenario.self "pkg.mod" Scenario.s1).2
    !! "pkg.mod" = None ∧
  backup_ledger Scenario.self (Fixed.restore_module Scenario.self "pkg.mod" Scenario.s1).2
    !! "pkg.mod" = None.
Proof.
  apply (X5_restore_after_apply_succeeds Scenario.host Scenario.self "pkg.mod"
           "/patch/replacement.py" Scenario.s0 Scenario.s1).
  vm_compute; reflexivity.
Defined.

(** X6: after a successful apply with [backup=False], restore of the path
    returns [False] and changes nothing: the module stays patched and
    [verify_patch] still returns true. *)
Theorem X6_restore_refused_without_backup host self p f s s1 :
  Fixed.patch_module_from_file host self p f false s = (true, s1) →
  Fixed.restore_module self p s1 = (false, s1) ∧
  (Fixed.verify_patch p s1).1 = true.
Proof.
  intros H. apply patch_success_raw in H
    as (A & rl & target & t & c & HA & Hrl & Hrec & Hp & Ht & _).
  split.
  - by eapply restore_without_backup.
  - unfold Fixed.verify_patch, returning_False_on_exception, Fixed.verify_patch_body.
    rewrite bind_get_state, Hp, (hasattr_ok _ _ _ _ Ht). simpl.
    apply bool_decide_eq_true. unfold patched_namespace.
    rewrite lookup_insert_ne by done. rewrite lookup_insert_eq. by eexists.
Qed.

Lemma X6_witness :
  Fixed.restore_module NoBackup.self "pkg.mod" NoBackup.s = (false, NoBackup.s) ∧
  (Fixed.verify_patch "pkg.mod" NoBackup.s).1 = true.
Proof.
  apply (X6_restore_refused_without_backup Scenario.host NoBackup.self "pkg.mod"
           "/patch/replacement.py" (Fixed.init Scenario.world).2 NoBackup.s).
  vm_compute; reflexivity.
Defined.

(** X8: a restore cannot be repeated: after a successful restore of a path,
    a second restore of it returns [False] and changes nothing. *)
Theorem X8_second_restore_fails self p s s1 :
  Fixed.restore_module self p s = (true, s1) →
  Fixed.restore_module self p s1 = (false, s1).
Proof.
  intros H. apply restore_success_view in H
    as (t & snap & rl & rec & _ & _ & _ & _ & _ & _ & _ & Hrefs & _).
  apply restore_without_record. by rewrite Hrefs, lookup_delete_eq.
Qed.

Lemma X8_witness :
  Fixed.restore_module Scenario.self "pkg.mod" Scenario.s_restored
  = (false, Scenario.s_restored).
Proof.
  apply (X8_second_restore_fails Scenario.self "pkg.mod" Scenario.s1_extended).
  vm_compute; reflexivity.
Defined.

(** ** fixed_patch.py: [restore_all] *)

Lemma restore_true_iff_restorable self p s :
  (Fixed.restore_module self p s).1 = true ↔ restorable self p s.
Proof.
  split.
  - destruct (Fixed.restore_module self p s) as [[] s1] eqn:H; [|done]. intros _.
    apply restore_success in H
      as (A & rl & rec & target & t & L & snap & ? & ? & ? & ? & ? & ? & ? & ? & _).
    by exists A, rl, rec, target, t, L, snap.
  - intros (A & rl & rec & target & t & L & snap & HA & Hrl & Hrec & Hav & Hp & Ht & HL & Hs).
    by rewrite (restore_module_ok self p s A rl rec target t L snap).
Qed.

Lemma restore_refs self p s :
  record_refs self (Fixed.restore_module self p s).2
  = if (Fixed.restore_module self p s).1 then delete p (record_refs self s)
    else record_refs self s.
Proof.
  destruct (Fixed.restore_module self p s) as [[] s1] eqn:H; simpl.
  - by apply restore_success_view in H as (? & ? & ? & ? & _ & _ & _ & _ & _ & _ & _ & ? & _).
  - by apply restore_failure in H as ->.
Qed.

(** A restore of one path does not make another path restorable. *)
Lemma restorable_before_restore self p q s :
  restorable self q (Fixed.restore_module self p s).2 → restorable self q s.
Proof.
  destruct (Fixed.restore_module self p s) as [[] s1] eqn:H; simpl.
  - apply restore_success in H
      as (A & rl & rec & target & t & L & snap & HA & Hrl & Hrec & Hav & Hp & Ht & HL & Hs & ->).
    intros (A' & rl' & rec' & target' & t' & L' & snap' & HA' & Hrl' & Hrec' & Hav' & Hp'
            & Ht' & HL' & Hs').
    unfold restored, record_refs, backup_ledger in *. simpl in *.
    rewrite HA, HL in *. simpl in *.
    rewrite lookup_insert_eq in HA'. rewrite lookup_insert_eq in HL'. simplify_eq.
    apply lookup_delete_Some in Hrl' as [Hne Hrl'].
    apply lookup_delete_Some in Hs' as [_ Hs'].
    assert (is_Some (modules s !! target')) as [t0 Ht0].
    { destruct (decide (target' = target)) as [->|Hnt]; [by eexists|].
      rewrite lookup_insert_ne in Ht' by done. by eexists. }
    by exists A, rl', rec', target', t0, L, snap'.
  - by apply restore_failure in H as ->.
Qed.

Lemma restore_each_spec self paths :
  ∀ success s,
    let out := Fixed.restore_each self paths success s in
    record_refs self out.2 ⊆ record_refs self s ∧
    (∀ q, q ∉ paths → record_refs self out.2 !! q = record_refs self s !! q) ∧
    (∀ q, restorable self q out.2 → restorable self q s) ∧
    (∀ q, q ∈ paths → record_refs self out.2 !! q = None ∨ ¬ restorable self q out.2) ∧
    ∃ b, out.1 = inr b ∧
         (b = true → success = true ∧ ∀ q, q ∈ paths → record_refs self out.2 !! q = None).
Proof.
  induction paths as [|p paths IH]; intros success s; simpl.
  - split_and!; try done.
    + intros q Hq. by apply not_elem_of_nil in Hq.
    + exists success. split; [done|].
      intros ->. split; [done|]. intros q Hq. by apply not_elem_of_nil in Hq.
  - unfold bind, call.
    set (ok := (Fixed.restore_module self p s).1).
    set (s' := (Fixed.restore_module self p s).2).
    specialize (IH (if negb ok then false else success) s').
    destruct IH as (Hsub & Hout & Hback & Hleft & b & Hb & Htrue).
    assert (record_refs self s' ⊆ record_refs self s) as Hsub'.
    { unfold s'. rewrite restore_refs. fold ok.
      destruct ok; [apply delete_subseteq|done]. }
    split_and!.
    + by etrans.
    + intros q [Hqp Hq]%not_elem_of_cons. rewrite Hout by done.
      unfold s'. rewrite restore_refs. fold ok.
      destruct ok; [by rewrite lookup_delete_ne|done].
    + intros q Hq. apply (restorable_before_restore self p). by apply Hback.
    + intros q [->|Hq]%elem_of_cons; [|by apply Hleft].
      destruct ok eqn:Hok.
      * left. eapply lookup_weaken_None; [|exact Hsub].
        unfold s'. rewrite restore_refs. fold ok. rewrite Hok. apply lookup_delete_eq.
      * right. intros Hr. apply Hback in Hr.
        apply (restorable_before_restore self p) in Hr.
        apply restore_true_iff_restorable in Hr. fold ok in Hr. congruence.
    + exists b. split; [done|].
      intros Hbt. destruct (Htrue Hbt) as [Hs Hall].
      destruct ok eqn:Hok; [|done]. simpl in Hs. split; [done|].
      intros q [->|Hq]%elem_of_cons; [|by apply Hall].
      eapply lookup_weaken_None; [|exact Hsub].
      unfold s'. rewrite restore_refs. fold ok. rewrite Hok. apply lookup_delete_eq.
Qed.

Lemma restore_each_false self paths :
  NoDup paths →
  ∀ success s,
    (∀ q, q ∈ paths → is_Some (record_refs self s !! q)) →
    (Fixed.restore_each self paths success s).1 = inr false →
    success = false ∨
    ∃ q, q ∈ paths ∧
         is_Some (record_refs self (Fixed.restore_each self paths success s).2 !! q).
Proof.
  induction 1 as [|p paths Hp Hnd IH]; intros success s Hall; simpl.
  - intros [= ->]. by left.
  - unfold bind, call.
    set (ok := (Fixed.restore_module self p s).1).
    set (s' := (Fixed.restore_module self p s).2).
    assert (∀ q, q ≠ p → record_refs self s' !! q = record_refs self s !! q) as Hother.
    { intros q Hq. unfold s'. rewrite restore_refs. fold ok.
      destruct ok; [by rewrite lookup_delete_ne|done]. }
    intros Hf. apply IH in Hf as [Hs|(q & Hq & Hsome)].
    + destruct ok eqn:Hok; simpl in Hs; [by left|].
      right. exists p. split; [left|].
      destruct (restore_each_spec self paths false s') as (_ & Hout & _).
      simpl in Hout. rewrite Hout by done.
      unfold s'. rewrite restore_refs. fold ok. rewrite Hok. apply Hall. left.
    + right. exists q. split; [by right|done].
    + intros q Hq. rewrite Hother by (intros ->; done). apply Hall. by right.
Qed.

(** X9: [restore_all] returns [True] exactly when no patch record is left
    once it has run. *)
Theorem X9_restore_all_true_iff_no_record_left self s b s1 :
  Fixed.restore_all self s = (inr b, s1) →
  (b = true ↔ record_refs self s1 = ∅).
Proof.
  unfold Fixed.restore_all.
  destruct (dicts s !! applied_patches self) as [A|] eqn:HA.
  2:{ unfold dict_keys, dict_at, bind, get_state, raise. by rewrite HA. }
  assert (dict_keys (applied_patches self) s = (inr (map_to_list A).*1, s)) as Hkeys.
  { unfold dict_keys, dict_at, bind, get_state, ret. by rewrite HA. }
  rewrite (bind_ok _ _ _ _ _ Hkeys). intros H.
  assert (record_refs self s = A) as Hrefs by (unfold record_refs; by rewrite HA).
  assert (∀ q, q ∈ (map_to_list A).*1 ↔ is_Some (A !! q)) as Hin.
  { intros q. rewrite list_elem_of_fmap. split.
    - intros ([q' r] & -> & Hqr%elem_of_map_to_list). by eexists.
    - intros [r Hr]. exists (q, r). by rewrite elem_of_map_to_list. }
  destruct (restore_each_spec self (map_to_list A).*1 true s)
    as (Hsub & _ & _ & _ & b' & Hb' & Htrue).
  rewrite H in Hsub, Hb', Htrue. simpl in *. injection Hb' as <-.
  split.
  - intros Hb. destruct (Htrue Hb) as [_ Hall].
    apply map_eq. intros q. rewrite lookup_empty.
    destruct (A !! q) as [r|] eqn:Hq.
    + apply Hall, Hin. by eexists.
    + eapply lookup_weaken_None; [|exact Hsub]. by rewrite Hrefs.
  - intros Hempty. destruct b; [done|]. exfalso.
    pose proof (restore_each_false self (map_to_list A).*1
                  (NoDup_fst_map_to_list A) true s) as Hf.
    rewrite H in Hf. simpl in Hf.
    destruct Hf as [?|(q & _ & [r Hr])]; [|done|done|].
    + intros q Hq. rewrite Hrefs. by apply Hin.
    + by rewrite Hempty, lookup_empty in Hr.
Qed.

Lemma X9_witness :
  (true = true ↔ record_refs Scenario.self (Fixed.restore_all Scenario.self Scenario.s1).2 = ∅).
Proof.
  apply (X9_restore_all_true_iff_no_record_left Scenario.self Scenario.s1).
  vm_compute; reflexivity.
Defined.

(** X10: [restore_all] goes on after a restore that fails: once it has run,
    every path that still has a patch record is one whose restore returns
    [False]. *)
Theorem X10_restore_all_leaves_unrestorable self s r s1 :
  Fixed.restore_all self s = (r, s1) →
  ∀ q, is_Some (record_refs self s1 !! q) →
       Fixed.restore_module self q s1 = (false, s1).
Proof.
  unfold Fixed.restore_all.
  destruct (dicts s !! applied_patches self) as [A|] eqn:HA.
  2:{ unfold dict_keys, dict_at, bind, get_state, raise. rewrite HA.
      intros [= <- <-] q. unfold record_refs. rewrite HA. simpl.
      rewrite lookup_empty. by intros [? ?]. }
  assert (dict_keys (applied_patches self) s = (inr (map_to_list A).*1, s)) as Hkeys.
  { unfold dict_keys, dict_at, bind, get_state, ret. by rewrite HA. }
  rewrite (bind_ok _ _ _ _ _ Hkeys). intros H q [rq Hq].
  assert (record_refs self s = A) as Hrefs by (unfold record_refs; by rewrite HA).
  destruct (restore_each_spec self (map_to_list A).*1 true s)
    as (Hsub & _ & _ & Hleft & _).
  rewrite H in Hsub, Hleft. simpl in *.
  assert (q ∈ (map_to_list A).*1) as Hin.
  { apply list_elem_of_fmap. exists (q, rq). split; [done|].
    apply elem_of_map_to_list. rewrite <- Hrefs. by apply (lookup_weaken _ _ _ _ Hq Hsub). }
  destruct (Hleft q Hin) as [Hnone|Hnr]; [congruence|].
  destruct (Fixed.restore_module self q s1) as [[] s2] eqn:Hres.
  - exfalso. apply Hnr. apply restore_true_iff_restorable. by rewrite Hres.
  - by apply restore_failure in Hres as ->.
Qed.

Lemma X10_witness :
  Fixed.restore_module NoBackup.self "pkg.mod" (Fixed.restore_all NoBackup.self NoBackup.s).2
  = (false, (Fixed.restore_all NoBackup.self NoBackup.s).2).
Proof.
  apply (X10_restore_all_leaves_unrestorable NoBackup.self NoBackup.s
           (Fixed.restore_all NoBackup.self NoBackup.s).1).
  - vm_compute; reflexivity.
  - vm_compute. by eexists.
Defined.

(** X11: after a successful apply the patch record of the path holds the
    file the patch came from, the number of public names of the replacement
    and the backup flag of the call, and every public name of the replacement
    is bound on the target to the replacement's value. *)
Theorem X11_patch_record_contents host self p f b s s1 :
  Fixed.patch_module_from_file host self p f b s = (true, s1) →
  ∃ c,
    custom_namespace host f = Some c ∧
    patch_records self s1 !! p = Some (mkRecord f (size (public_part c)) b) ∧
    (∀ name v, c !! name = Some v → is_public name = true →
               live_attr s1 p name = Some v).
Proof. apply apply_transplants_and_counts. Qed.

Lemma X11_witness :
  ∃ c,
    custom_namespace Scenario.host "/patch/extended.py" = Some c ∧
    patch_records Scenario.self Scenario.s1_extended !! "pkg.mod"
      = Some (mkRecord "/patch/extended.py" (size (public_part c)) true) ∧
    (∀ name v, c !! name = Some v → is_public name = true →
               live_attr Scenario.s1_extended "pkg.mod" name = Some v).
Proof.
  apply (X11_patch_record_contents Scenario.host Scenario.self "pkg.mod"
           "/patch/extended.py" true Scenario.s0 Scenario.s1_extended).
  vm_compute; reflexivity.
Defined.

(** ** fixed_patch.py: the parent packages *)

(** ** simple_patch.py *)

Lemma import_transformers_inv host s r s1 :
  import_transformers host s = (r, s1) → grows s s1.
Proof.
  unfold import_transformers.
  intros [(e & H & _)|(l & s2 & H & H')]%bind_inv.
  - apply import_module_inv in H as ->. apply grows_refl.
  - apply import_module_inv in H as (Hg & _).
    unfold getattr, module_at, bind, get_state, ret, raise in H'.
    destruct (modules s2 !! l) as [m|]; [destruct (m !! "__version__")|];
      by simplify_eq.
Qed.

Lemma backup_attrs_ok target (t : module) (l : list (string * pyval)) :
  (∀ k v, (k, v) ∈ l → t !! k = Some v) →
  ∀ (backup : snapshot) s,
    modules s !! target = Some t →
    Simple.backup_attrs target l.*1 backup s = (inr (foldl copy_public backup l), s).
Proof.
  induction l as [|[k v] l IH]; intros Hl backup s Ht; simpl; [done|].
  assert (t !! k = Some v) as Hk by (apply Hl; left).
  assert (∀ k v, (k, v) ∈ l → t !! k = Some v) as Hl' by (intros; apply Hl; by right).
  unfold copy_public at 2. simpl.
  destruct (is_public k) eqn:Hpub; unfold is_public in Hpub; rewrite Hpub.
  - rewrite (bind_ok _ _ _ _ _ (getattr_ok _ _ _ _ _ Ht Hk)). by apply IH.
  - by apply IH.
Qed.

(** Either the loading steps fail, and the state has only grown, or the
    patch goes through. *)
Lemma simple_patch_body_inv host s r s1 :
  Simple.patch_mllama_processor_simple_body host s = (r, s1) →
  (∃ e, r = inl e ∧ grows s s1) ∨
  (∃ s' target (t c : module),
     grows s s' ∧ sys_modules s' !! mllama_path = Some target ∧
     modules s' !! target = Some t ∧ rewritten_namespace host = Some c ∧
     r = inr true ∧
     s1 = set_modules <[target := simple_patched_namespace c t]> s').
Proof.
  unfold Simple.patch_mllama_processor_simple_body.
  intros [(e & H & ->)|([] & sA & HA & H)]%bind_inv.
  { apply import_transformers_inv in H. left. by eexists. }
  apply import_transformers_inv in HA as HgA.
  apply bind_inv in H as [(e & H & ->)|(target & sB & HB & H)].
  { apply import_module_inv in H as ->. left. by eexists. }
  apply import_module_inv in HB as (HgB & Hp & [t Ht]).
  assert (grows s sB) as HgsB by (by eapply grows_trans).
  unfold path_exists in H. unfold bind at 1, ret at 1 in H.
  case_bool_decide as Hf; simpl in H.
  2:{ injection H as <- <-. left. by eexists. }
  destruct Hf as [text Hf].
  unfold read_file in H. rewrite Hf in H. unfold bind at 1, ret at 1 in H.
  unfold module_from_spec in H. unfold bind at 1 in H. rewrite new_module_ok in H.
  set (custom := fresh (dom (modules sB))) in *.
  assert (modules sB !! custom = None) as Hfresh by apply not_elem_of_dom, is_fresh.
  assert (custom ≠ target) as Hne by (intros ->; congruence).
  unfold exec_text in H.
  destruct (host_run host (Simple.rewrite_imports text)) as [e|c] eqn:Hrun.
  { unfold bind at 1, raise in H. injection H as <- <-. left. eexists. split; [done|].
    eapply grows_trans; [done|]. apply grows_new_module. }
  erewrite bind_ok in H; last first.
  { erewrite bind_ok; last first.
    { apply module_at_ok. simpl. by rewrite lookup_insert_eq. }
    reflexivity. }
  set (sC := set_modules <[custom := c]> (set_modules <[custom := ∅]> sB)) in *.
  assert (modules sC !! target = Some t) as HtC
    by (simpl; by rewrite !lookup_insert_ne).
  assert (modules sC !! custom = Some c) as HcC
    by (simpl; by rewrite lookup_insert_eq).
  rewrite (bind_ok _ _ _ _ _ (dir_ok _ _ _ HtC)) in H.
  rewrite (bind_ok _ _ _ _ _
             (backup_attrs_ok target t (map_to_list t)
                (λ k v Hkv, proj1 (elem_of_map_to_list _ _ _) Hkv) ∅ sC HtC)) in H.
  rewrite (bind_ok _ _ _ _ _ (transplant_ok custom target c t sC Hne HcC HtC)) in H.
  erewrite bind_ok in H; last first.
  { eapply setattr_ok. simpl. by rewrite lookup_insert_eq. }
  erewrite bind_ok in H; last first.
  { eapply setattr_ok. simpl. by rewrite lookup_insert_eq. }
  injection H as <- <-.
  right. exists sC, target, t, c. split_and!; try done.
  - eapply grows_trans; [done|].
    unfold grows, sC; simpl. split_and!; try done.
    rewrite insert_insert_eq. by apply insert_subseteq.
  - unfold rewritten_namespace. rewrite Hf. simpl. by rewrite Hrun.
  - unfold simple_patched_namespace, set_modules; simpl.
    rewrite !insert_insert_eq.
    by rewrite foldl_copy_public_map, (right_id_L ∅ (∪)).
Qed.

Lemma delattr_ok l (m : module) name s :
  modules s !! l = Some m → is_Some (m !! name) →
  delattr l name s = (inr tt, set_modules <[l := delete name m]> s).
Proof.
  intros Hl [v Hv]. unfold delattr.
  rewrite (bind_ok _ _ _ _ _ (module_at_ok _ _ _ Hl)). by rewrite Hv.
Qed.

Lemma import_loaded host path l (m : module) s :
  sys_modules s !! path = Some l → modules s !! l = Some m →
  import_module host path s = (inr l, s).
Proof.
  intros Hl Hm. unfold import_module. rewrite bind_get_state, Hl.
  by rewrite (bind_ok _ _ _ _ _ (module_at_ok _ _ _ Hm)).
Qed.

Lemma simple_verify_loaded host l (m : module) s :
  sys_modules s !! mllama_path = Some l → modules s !! l = Some m →
  Simple.verify_patch_simple host s
  = (bool_decide (is_Some (m !! "_runtime_patched")), s).
Proof.
  intros Hl Hm.
  unfold Simple.verify_patch_simple, returning_False_on_exception,
    Simple.verify_patch_simple_body.
  rewrite (bind_ok _ _ _ _ _ (import_loaded host _ _ _ _ Hl Hm)).
  by rewrite (hasattr_ok _ _ _ _ Hm).
Qed.

Lemma fixed_verify_loaded path l (m : module) s :
  sys_modules s !! path = Some l → modules s !! l = Some m →
  Fixed.verify_patch path s = (bool_decide (is_Some (m !! "_runtime_patched")), s).
Proof.
  intros Hl Hm.
  unfold Fixed.verify_patch, returning_False_on_exception, Fixed.verify_patch_body.
  by rewrite bind_get_state, Hl, (hasattr_ok _ _ _ _ Hm).
Qed.

Lemma simple_restore_ok host l (t b : module) s :
  sys_modules s !! mllama_path = Some l → modules s !! l = Some t →
  is_Some (t !! "_runtime_patched") → t !! "_backup" = Some (VDict b) →
  Simple.restore_mllama_processor_simple host s
  = (true, set_modules <[l := simple_restored_namespace b t]> s).
Proof.
  intros Hl Ht Hflag Hb.
  unfold Simple.restore_mllama_processor_simple, returning_False_on_exception,
    Simple.restore_mllama_processor_simple_body.
  rewrite (bind_ok _ _ _ _ _ (import_loaded host _ _ _ _ Hl Ht)).
  rewrite (bind_ok _ _ _ _ _ (hasattr_ok _ _ _ _ Ht)).
  rewrite bool_decide_eq_true_2 by done. simpl.
  rewrite (bind_ok _ _ _ _ _ (hasattr_ok _ _ _ _ Ht)).
  rewrite bool_decide_eq_true_2 by (by eexists). simpl.
  rewrite (bind_ok _ _ _ _ _ (getattr_ok _ _ _ _ _ Ht Hb)).
  rewrite (bind_ok _ _ _ _ _ (restore_attrs_ok _ b _ _ Ht)).
  erewrite bind_ok; last first.
  { eapply delattr_ok; [simpl; by rewrite lookup_insert_eq|].
    destruct Hflag as [v Hv]. destruct (b !! "_runtime_patched") as [w|] eqn:Hw.
    - exists w. by apply lookup_union_Some_l.
    - exists v. by rewrite lookup_union_r. }
  erewrite bind_ok; last first.
  { eapply delattr_ok; [simpl; by rewrite lookup_insert_eq|].
    rewrite lookup_delete_ne by done.
    destruct (b !! "_backup") as [w|] eqn:Hw.
    - exists w. by apply lookup_union_Some_l.
    - eexists. by rewrite lookup_union_r. }
  unfold ret, set_modules, simple_restored_namespace; simpl.
  by rewrite !insert_insert_eq.
Qed.

Lemma simple_restore_refused host l (m : module) s :
  sys_modules s !! mllama_path = Some l → modules s !! l = Some m →
  m !! "_runtime_patched" = None ∨ m !! "_backup" = None →
  Simple.restore_mllama_processor_simple host s = (false, s).
Proof.
  intros Hl Hm Hno.
  unfold Simple.restore_mllama_processor_simple, returning_False_on_exception,
    Simple.restore_mllama_processor_simple_body.
  rewrite (bind_ok _ _ _ _ _ (import_loaded host _ _ _ _ Hl Hm)).
  rewrite (bind_ok _ _ _ _ _ (hasattr_ok _ _ _ _ Hm)).
  case_bool_decide as Hflag; simpl; [|done].
  rewrite (bind_ok _ _ _ _ _ (hasattr_ok _ _ _ _ Hm)).
  destruct Hno as [Hno|Hno].
  - rewrite Hno in Hflag. by destruct Hflag.
  - rewrite Hno. by rewrite bool_decide_eq_false_2 by (by intros [? ?]).
Qed.

Lemma simple_patch_success host s s1 (t : module) :
  live_module s mllama_path = Some t →
  Simple.patch_mllama_processor_simple host s = (true, s1) →
  ∃ target c,
    rewritten_namespace host = Some c ∧
    sys_modules s1 !! mllama_path = Some target ∧
    modules s1 !! target = Some (simple_patched_namespace c t).
Proof.
  intros Hlive H%returning_true.
  apply simple_patch_body_inv in H as [(e & ? & _)|H]; [done|].
  destruct H as (s' & target & t' & c & Hg & Hp & Ht & Hc & _ & ->).
  apply (grows_live_module _ _ _ _ Hg) in Hlive.
  unfold live_module in Hlive. rewrite Hp in Hlive. simpl in Hlive.
  assert (t' = t) as -> by congruence.
  exists target, c. simpl. by rewrite lookup_insert_eq.
Qed.

(** X13: after a successful [patch_mllama_processor_simple] on the loaded
    processor module, the module run was the rewritten text of the custom file,
    each of its public names is bound on the target, [_backup] holds the public
    attributes the target had, and both [verify_patch_simple] and the patch
    manager's [verify_patch] return true. *)
Theorem X13_simple_apply host s s1 (t : module) :
  live_module s mllama_path = Some t →
  Simple.patch_mllama_processor_simple host s = (true, s1) →
  ∃ c,
    rewritten_namespace host = Some c ∧
    (∀ name v, c !! name = Some v → is_public name = true →
               live_attr s1 mllama_path name = Some v) ∧
    live_attr s1 mllama_path "_backup" = Some (VDict (public_part t)) ∧
    (Simple.verify_patch_simple host s1).1 = true ∧
    (Fixed.verify_patch mllama_path s1).1 = true.
Proof.
  intros Hlive H.
  destruct (simple_patch_success host s s1 t Hlive H) as (target & c & Hc & Hp & Hm).
  assert (live_module s1 mllama_path = Some (simple_patched_namespace c t)) as Hlive1
    by (unfold live_module; rewrite Hp; done).
  assert (is_Some (simple_patched_namespace c t !! "_runtime_patched")) as Hflag.
  { unfold simple_patched_namespace. rewrite lookup_insert_ne by done.
    rewrite lookup_insert_eq. by eexists. }
  exists c. split_and!; [done| | | |].
  - intros name v Hv Hpub. unfold live_attr. rewrite Hlive1.
    unfold simple_patched_namespace.
    rewrite !lookup_insert_ne by (intros <-; done).
    apply lookup_union_Some_l. by rewrite lookup_public_part, Hpub.
  - unfold live_attr. rewrite Hlive1. apply lookup_insert_eq.
  - rewrite (simple_verify_loaded host _ _ _ Hp Hm). simpl.
    by apply bool_decide_eq_true.
  - rewrite (fixed_verify_loaded _ _ _ _ Hp Hm). simpl.
    by apply bool_decide_eq_true.
Qed.

Lemma X13_witness :
  ∃ c,
    rewritten_namespace Mllama.host = Some c ∧
    (∀ name v, c !! name = Some v → is_public name = true →
               live_attr Mllama.simple_once mllama_path name = Some v) ∧
    live_attr Mllama.simple_once mllama_path "_backup"
      = Some (VDict (public_part Mllama.original_ns)) ∧
    (Simple.verify_patch_simple Mllama.host Mllama.simple_once).1 = true ∧
    (Fixed.verify_patch mllama_path Mllama.simple_once).1 = true.
Proof.
  apply (X13_simple_apply Mllama.host Mllama.s0 Mllama.simple_once Mllama.original_ns);
    vm_compute; reflexivity.
Defined.

(** X14: after a successful [patch_mllama_processor_simple],
    [restore_mllama_processor_simple] succeeds: every public attribute the
    target had is bound to its earlier value, a public name only the replacement
    had stays, the marker and [_backup] are gone and [verify_patch_simple]
    returns false. *)
Theorem X14_simple_round_trip host s s1 (t : module) :
  live_module s mllama_path = Some t →
  Simple.patch_mllama_processor_simple host s = (true, s1) →
  (Simple.restore_mllama_processor_simple host s1).1 = true ∧
  ∃ c m2,
    rewritten_namespace host = Some c ∧
    live_module (Simple.restore_mllama_processor_simple host s1).2 mllama_path = Some m2 ∧
    (∀ name, is_public name = true → is_Some (t !! name) → m2 !! name = t !! name) ∧
    (∀ name, is_public name = true → t !! name = None → m2 !! name = c !! name) ∧
    m2 !! "_runtime_patched" = None ∧ m2 !! "_backup" = None ∧
    (Simple.verify_patch_simple host
       (Simple.restore_mllama_processor_simple host s1).2).1 = false.
Proof.
  intros Hlive H.
  destruct (simple_patch_success host s s1 t Hlive H) as (target & c & Hc & Hp & Hm).
  rewrite (simple_restore_ok host target (simple_patched_namespace c t) (public_part t) s1
             Hp Hm).
  2:{ unfold simple_patched_namespace. rewrite lookup_insert_ne by done.
      rewrite lookup_insert_eq. by eexists. }
  2:{ apply lookup_insert_eq. }
  simpl. split; [done|].
  set (m2 := simple_restored_namespace (public_part t) (simple_patched_namespace c t)).
  assert (∀ name, is_public name = true →
            m2 !! name = match t !! name with Some v => Some v | None => c !! name end)
    as Hpub.
  { intros name Hn. unfold m2, simple_restored_namespace, simple_patched_namespace.
    rewrite !lookup_delete_ne by (intros <-; done).
    rewrite lookup_union, lookup_public_part, Hn.
    rewrite !lookup_insert_ne by (intros <-; done).
    rewrite lookup_union, lookup_public_part, Hn.
    by destruct (t !! name), (c !! name). }
  assert (m2 !! "_runtime_patched" = None) as Hflag.
  { unfold m2, simple_restored_namespace. rewrite lookup_delete_ne by done.
    apply lookup_delete_eq. }
  exists c, m2. split_and!; try done.
  - unfold live_module. simpl. rewrite Hp. simpl. by rewrite lookup_insert_eq.
  - intros name Hn [v Hv]. by rewrite Hpub, Hv.
  - intros name Hn Hnone. by rewrite Hpub, Hnone.
  - apply lookup_delete_eq.
  - erewrite simple_verify_loaded; [|exact Hp|simpl; by rewrite lookup_insert_eq].
    simpl. fold m2. rewrite Hflag. by apply bool_decide_eq_false_2; intros [? ?].
Qed.

Lemma X14_witness :
  (Simple.restore_mllama_processor_simple Mllama.host Mllama.simple_once).1 = true ∧
  ∃ c m2,
    rewritten_namespace Mllama.host = Some c ∧
    live_module (Simple.restore_mllama_processor_simple Mllama.host Mllama.simple_once).2
      mllama_path = Some m2 ∧
    (∀ name, is_public name = true → is_Some (Mllama.original_ns !! name) →
             m2 !! name = Mllama.original_ns !! name) ∧
    (∀ name, is_public name = true → Mllama.original_ns !! name = None →
             m2 !! name = c !! name) ∧
    m2 !! "_runtime_patched" = None ∧ m2 !! "_backup" = None ∧
    (Simple.verify_patch_simple Mllama.host
       (Simple.restore_mllama_processor_simple Mllama.host Mllama.simple_once).2).1 = false.
Proof.
  apply (X14_simple_round_trip Mllama.host Mllama.s0 Mllama.simple_once Mllama.original_ns);
    vm_compute; reflexivity.
Defined.

(** X15: [restore_mllama_processor_simple] on the loaded processor module
    returns [False] and changes nothing when the module has no
    [_runtime_patched] marker, and also when it has the marker and no
    [_backup]. *)
Theorem X15_simple_restore_refused host s (m : module) :
  live_module s mllama_path = Some m →
  m !! "_runtime_patched" = None ∨ m !! "_backup" = None →
  Simple.restore_mllama_processor_simple host s = (false, s).
Proof.
  unfold live_module. intros Hlive Hno.
  destruct (sys_modules s !! mllama_path) as [l|] eqn:Hl; [|done].
  by eapply simple_restore_refused.
Qed.

Lemma X15_witness :
  Simple.restore_mllama_processor_simple Mllama.host Mllama.s0 = (false, Mllama.s0).
Proof.
  apply (X15_simple_restore_refused Mllama.host Mllama.s0 Mllama.original_ns).
  - vm_compute; reflexivity.
  - left. vm_compute; reflexivity.
Defined.

(** X16: the two variants keep their backups in different places: after the
    patch manager has patched the processor module, [verify_patch_simple]
    returns true, and [restore_mllama_processor_simple] returns [False] and
    changes nothing, the module having no [_backup] attribute. *)
Theorem X16_simple_restore_after_fixed_apply host host' self f b s s1 (t : module) :
  live_module s mllama_path = Some t →
  t !! "_backup" = None →
  Fixed.patch_module_from_file host self mllama_path f b s = (true, s1) →
  (Simple.verify_patch_simple host' s1).1 = true ∧
  Simple.restore_mllama_processor_simple host' s1 = (false, s1).
Proof.
  intros Hlive Hback H. apply patch_success_raw in H
    as (A & rl & target & t' & c & _ & _ & _ & Hp & Ht & _ & Hm & Hc).
  pose proof (Hm _ Hlive) as ->.
  split.
  - rewrite (simple_verify_loaded host' _ _ _ Hp Ht). simpl.
    apply bool_decide_eq_true. unfold patched_namespace.
    rewrite lookup_insert_ne by done. rewrite lookup_insert_eq. by eexists.
  - eapply simple_restore_refused; [done..|]. right.
    unfold patched_namespace. rewrite !lookup_insert_ne by done.
    rewrite lookup_union_r; [done|]. by rewrite lookup_public_part.
Qed.

Lemma X16_witness :
  (Simple.verify_patch_simple Mllama.host
     (Fixed.patch_module_from_file Mllama.host_plain (Fixed.init Mllama.s0).1 mllama_path
        "/patch/processing_mllama.py" true (Fixed.init Mllama.s0).2).2).1 = true ∧
  Simple.restore_mllama_processor_simple Mllama.host
    (Fixed.patch_module_from_file Mllama.host_plain (Fixed.init Mllama.s0).1 mllama_path
       "/patch/processing_mllama.py" true (Fixed.init Mllama.s0).2).2
  = (false,
     (Fixed.patch_module_from_file Mllama.host_plain (Fixed.init Mllama.s0).1 mllama_path
        "/patch/processing_mllama.py" true (Fixed.init Mllama.s0).2).2).
Proof.
  apply (X16_simple_restore_after_fixed_apply Mllama.host_plain Mllama.host
           (Fixed.init Mllama.s0).1 "/patch/processing_mllama.py" true
           (Fixed.init Mllama.s0).2 _ Mllama.original_ns);
    vm_compute; reflexivity.
Defined.

(** ** runtime_patch.py *)

Lemma filter_public_names (l : list (string * pyval)) :
  List.filter (λ attr, negb (startswith_underscore attr)) l.*1
  = (filter (λ kv : string * pyval, is_public kv.1 = true) l).*1.
Proof.
  induction l as [|[k v] l IH]; [done|].
  rewrite fmap_cons, filter_cons. simpl.
  destruct (decide (is_public k = true)) as [Hk|Hk]; unfold is_public in Hk.
  - rewrite Hk. by rewrite fmap_cons, IH.
  - apply not_true_is_false in Hk. by rewrite Hk.
Qed.

Lemma runtime_loop_ok custom original (c : module) (l : list (string * pyval)) :
  custom ≠ original →
  (∀ k v, (k, v) ∈ l → c !! k = Some v ∧ k ≠ "_original_backup") →
  ∀ (n d : module) s,
    modules s !! custom = Some c →
    modules s !! original = Some n →
    n !! "_original_backup" = Some (VDict d) →
    for_each l.*1 (λ attr_name,
      (present <- hasattr original attr_name ;;
       (if present
        then v <- getattr original attr_name ;;
             Runtime.original_backup_store original attr_name v
        else ret tt) ;;;
       v <- getattr custom attr_name ;;
       setattr original attr_name v)%py) s
    = (inr tt, set_modules <[original := foldl runtime_step n l]> s).
Proof.
  intros Hne. induction l as [|[k v] l IH]; intros Hl n d s Hc Hn Hd; simpl.
  - by rewrite set_modules_insert_id.
  - destruct (Hl k v) as [Hk Hkb]; [left|].
    assert (∀ k v, (k, v) ∈ l → c !! k = Some v ∧ k ≠ "_original_backup") as Hl'
      by (intros; apply Hl; by right).
    unfold runtime_step at 2. simpl. rewrite Hd.
    destruct (n !! k) as [w|] eqn:Hw.
    + set (n1 := <["_original_backup" := VDict (<[k := w]> d)]> n).
      erewrite (bind_ok _ _ s tt (set_modules <[original := <[k := v]> n1]> s));
        last first.
      { rewrite (bind_ok _ _ _ _ _ (hasattr_ok _ _ k _ Hn)), Hw.
        rewrite bool_decide_eq_true_2 by (by eexists).
        erewrite (bind_ok _ _ s tt (set_modules <[original := n1]> s)); last first.
        { rewrite (bind_ok _ _ _ _ _ (getattr_ok _ _ _ _ _ Hn Hw)).
          unfold Runtime.original_backup_store.
          rewrite (bind_ok _ _ _ _ _ (getattr_ok _ _ _ _ _ Hn Hd)).
          by apply setattr_ok. }
        erewrite (bind_ok _ _ _ v); last first.
        { eapply getattr_ok; [|exact Hk]. simpl. by rewrite lookup_insert_ne. }
        erewrite setattr_ok; last by (simpl; rewrite lookup_insert_eq).
        unfold set_modules; simpl. by rewrite insert_insert_eq. }
      erewrite (IH Hl' _ (<[k := w]> d)); simpl.
      * unfold set_modules; simpl. by rewrite !insert_insert_eq.
      * by rewrite !lookup_insert_ne.
      * by rewrite lookup_insert_eq.
      * unfold n1. rewrite lookup_insert_ne by done. by rewrite lookup_insert_eq.
    + erewrite (bind_ok _ _ s tt (set_modules <[original := <[k := v]> n]> s));
        last first.
      { rewrite (bind_ok _ _ _ _ _ (hasattr_ok _ _ k _ Hn)), Hw.
        rewrite bool_decide_eq_false_2 by (by intros [? ?]).
        erewrite (bind_ok _ _ s tt s); last reflexivity.
        rewrite (bind_ok _ _ _ _ _ (getattr_ok _ _ _ _ _ Hc Hk)).
        by apply setattr_ok. }
      erewrite (IH Hl' _ d); simpl.
      * unfold set_modules; simpl. by rewrite !insert_insert_eq.
      * by rewrite lookup_insert_ne.
      * by rewrite lookup_insert_eq.
      * by rewrite lookup_insert_ne.
Qed.

Lemma runtime_fold_spec (l : list (string * pyval)) :
  NoDup l.*1 →
  (∀ k v, (k, v) ∈ l → k ≠ "_original_backup") →
  ∀ (n d : module),
    n !! "_original_backup" = Some (VDict d) →
    ∃ d' : module,
      foldl runtime_step n l !! "_original_backup" = Some (VDict d') ∧
      (∀ k, k ∈ l.*1 →
            d' !! k = match n !! k with Some w => Some w | None => d !! k end) ∧
      (∀ k, k ∉ l.*1 → d' !! k = d !! k) ∧
      (∀ k, k ≠ "_original_backup" →
            foldl runtime_step n l !! k
            = match (list_to_map l : module) !! k with Some v => Some v | None => n !! k end).
Proof.
  induction l as [|[k0 v0] l IH]; intros Hnd Hl n d Hd.
  - exists d. split_and!; [done| | |].
    + by intros k ?%not_elem_of_nil.
    + done.
    + intros k _. simpl. by rewrite lookup_empty.
  - inversion Hnd as [|?? Hk0 Hnd']; subst.
    assert (k0 ≠ "_original_backup") as Hk0b by (eapply Hl; left).
    assert (∀ k v, (k, v) ∈ l → k ≠ "_original_backup") as Hl'
      by (intros; eapply Hl; by right).
    assert (∀ k, k ∈ l.*1 → k ≠ k0) as Hneq by (intros k Hin ->; done).
    assert (∀ k, k ∈ l.*1 → k ≠ "_original_backup") as Hnob.
    { intros k ([k' v'] & -> & Hin)%list_elem_of_fmap. by eapply Hl'. }
    rewrite fmap_cons. cbn [foldl fst snd list_to_map foldr].
    assert (∀ (n1 d1 : module),
              n1 !! "_original_backup" = Some (VDict d1) →
              (∀ k, k ≠ k0 → k ≠ "_original_backup" → n1 !! k = n !! k) →
              n1 !! k0 = Some v0 →
              d1 !! k0 = match n !! k0 with Some w => Some w | None => d !! k0 end →
              (∀ k, k ≠ k0 → d1 !! k = d !! k) →
              ∃ d' : module,
                foldl runtime_step n1 l !! "_original_backup" = Some (VDict d') ∧
                (∀ k, k ∈ k0 :: l.*1 →
                   d' !! k = match n !! k with Some w => Some w | None => d !! k end) ∧
                (∀ k, k ∉ k0 :: l.*1 → d' !! k = d !! k) ∧
                (∀ k, k ≠ "_original_backup" →
                   foldl runtime_step n1 l !! k
                   = match (<[k0 := v0]> (list_to_map l) : module) !! k with
                     | Some v => Some v | None => n !! k end)) as Hstep.
    { intros n1 d1 Hd1 Hn1 Hn1k Hd1k Hd1o.
      destruct (IH Hnd' Hl' n1 d1 Hd1) as (d' & Hd' & Hin & Hnin & Hother).
      exists d'. split_and!; [done| | |].
      - intros k [->|Hk]%elem_of_cons.
        + by rewrite Hnin, Hd1k.
        + rewrite Hin by done. rewrite Hn1 by auto. by rewrite Hd1o by auto.
      - intros k [Hk1 Hk2]%not_elem_of_cons. rewrite Hnin by done. by apply Hd1o.
      - intros k Hkb. rewrite Hother by done.
        destruct (decide (k = k0)) as [->|Hkk].
        + rewrite lookup_insert_eq.
          by rewrite (not_elem_of_list_to_map_1 l k0), Hn1k.
        + rewrite lookup_insert_ne by done. by rewrite Hn1. }
    assert (runtime_step n (k0, v0)
            = match n !! k0 with
              | Some w => <[k0 := v0]> (<["_original_backup" := VDict (<[k0 := w]> d)]> n)
              | None => <[k0 := v0]> n
              end) as ->.
    { unfold runtime_step. cbn [fst snd]. rewrite Hd. by destruct (n !! k0). }
    destruct (n !! k0) as [w|] eqn:Hw.
    + apply (Hstep _ (<[k0 := w]> d)).
      * rewrite lookup_insert_ne by done. by rewrite lookup_insert_eq.
      * intros k H1 H2. by rewrite !lookup_insert_ne.
      * by rewrite lookup_insert_eq.
      * by rewrite lookup_insert_eq.
      * intros k H1. by rewrite lookup_insert_ne.
    + apply (Hstep _ d).
      * by rewrite lookup_insert_ne.
      * intros k H1 H2. by rewrite lookup_insert_ne.
      * by rewrite lookup_insert_eq.
      * done.
      * done.
Qed.

Lemma public_pairs_spec (c : module) :
  let l := filter (λ kv : string * pyval, is_public kv.1 = true) (map_to_list c) in
  NoDup l.*1 ∧
  (list_to_map l : module) = public_part c ∧
  (∀ k v, (k, v) ∈ l → c !! k = Some v ∧ k ≠ "_original_backup") ∧
  (∀ k, k ∈ l.*1 ↔ is_Some (public_part c !! k)).
Proof.
  intros l.
  assert (∀ k v, (k, v) ∈ l ↔ c !! k = Some v ∧ is_public k = true) as Hin.
  { intros k v. unfold l. rewrite list_elem_of_filter, elem_of_map_to_list. simpl. tauto. }
  split_and!.
  - eapply NoDup_fmap_fst.
    + intros k v1 v2 [H1 _]%Hin [H2 _]%Hin. congruence.
    + apply NoDup_filter, NoDup_map_to_list.
  - unfold l, public_part. by rewrite map_filter_alt.
  - intros k v [Hk Hp]%Hin. split; [done|]. by intros ->.
  - intros k. rewrite list_elem_of_fmap. split.
    + intros ([k' v] & -> & [Hk Hp]%Hin). exists v. simpl.
      by rewrite lookup_public_part, Hp.
    + intros [v Hv]. rewrite lookup_public_part in Hv.
      destruct (is_public k) eqn:Hp; [|done]. exists (k, v). split; [done|]. by apply Hin.
Qed.

Lemma runtime_fold_closed (c t : module) :
  foldl runtime_step (<["_original_backup" := VDict ∅]> t)
    (filter (λ kv : string * pyval, is_public kv.1 = true) (map_to_list c))
  = runtime_patched_namespace c t.
Proof.
  destruct (public_pairs_spec c) as (Hnd & Hmap & Hl & Hin).
  destruct (runtime_fold_spec _ Hnd (λ k v H, proj2 (Hl k v H))
              (<["_original_backup" := VDict ∅]> t) ∅ (lookup_insert_eq _ _ _))
    as (d' & Hd' & Hback & Hnot & Hother).
  rewrite Hmap in Hother.
  assert (d' = runtime_backup c t) as ->.
  { apply map_eq. intros k. unfold runtime_backup.
    destruct (public_part c !! k) as [v|] eqn:Hk.
    - rewrite Hback by (apply Hin; by eexists).
      assert (k ≠ "_original_backup") as Hkb.
      { intros ->. by rewrite lookup_public_part in Hk. }
      rewrite lookup_insert_ne by done. rewrite lookup_empty.
      destruct (t !! k) as [w|] eqn:Hw.
      + symmetry. apply map_lookup_filter_Some. split; [done|]. simpl. by rewrite Hk.
      + symmetry. apply map_lookup_filter_None. by left.
    - rewrite Hnot by (rewrite Hin, Hk; by intros [? ?]).
      rewrite lookup_empty. symmetry. apply map_lookup_filter_None. right.
      intros w _. simpl. rewrite Hk. by intros [? ?]. }
  apply map_eq. intros k. unfold runtime_patched_namespace. rewrite lookup_union.
  destruct (decide (k = "_original_backup")) as [->|Hkb].
  - rewrite Hd', lookup_public_part. simpl. by rewrite lookup_insert_eq.
  - rewrite Hother by done. rewrite !lookup_insert_ne by done.
    by destruct (public_part c !! k), (t !! k).
Qed.

Lemma exec_module_ok host f text (c m : module) l s :
  host_files host !! f = Some text → host_run host text = inr c →
  modules s !! l = Some m →
  exec_module host f l s = (inr tt, set_modules <[l := c]> s).
Proof.
  intros Hf Hrun Hl. unfold exec_module, read_file, exec_text. rewrite Hf.
  unfold bind at 1, ret at 1. rewrite Hrun.
  by rewrite (bind_ok _ _ _ _ _ (module_at_ok _ _ _ Hl)).
Qed.

Lemma exec_module_raises host f text e l s :
  host_files host !! f = Some text → host_run host text = inl e →
  exec_module host f l s = (inl e, s).
Proof.
  intros Hf Hrun. unfold exec_module, read_file, exec_text. rewrite Hf.
  unfold bind at 1, ret at 1. by rewrite Hrun.
Qed.

(** The state after a successful [Runtime.patch_mllama_processor] on the
    module object [l] with namespace [t]. *)
Lemma runtime_patch_cases host s l (t : module) :
  sys_modules s !! mllama_path = Some l → modules s !! l = Some t →
  (∃ c, custom_namespace host (default_custom_file host) = Some c ∧
        Runtime.patch_mllama_processor host s
        = (true,
           set_sys_modules <[mllama_path := l]>
             (set_modules (λ ms, <[l := runtime_patched_namespace c t]>
                                   (<[fresh (dom (modules s)) := c]> ms)) s))) ∨
  (custom_namespace host (default_custom_file host) = None ∧
   (Runtime.patch_mllama_processor host s).1 = false ∧
   grows s (Runtime.patch_mllama_processor host s).2).
Proof.
  intros Hl Ht.
  unfold Runtime.patch_mllama_processor, returning_False_on_exception,
    Runtime.patch_mllama_processor_body, custom_namespace.
  assert (path_exists host (default_custom_file host) s
          = (inr (bool_decide (is_Some (host_files host !! default_custom_file host))), s))
    as Hex by done.
  rewrite (bind_ok _ _ _ _ _ Hex).
  destruct (host_files host !! default_custom_file host) as [text|] eqn:Hf.
  2:{ right. rewrite bool_decide_eq_false_2 by (by intros [? ?]).
      split_and!; [done..|apply grows_refl]. }
  rewrite bool_decide_eq_true_2 by (by eexists). cbn [negb mbind option_bind].
  unfold module_from_spec. rewrite (bind_ok _ _ _ _ _ (new_module_ok ∅ s)).
  set (custom := fresh (dom (modules s))).
  assert (modules s !! custom = None) as Hfresh by apply not_elem_of_dom, is_fresh.
  assert (custom ≠ l) as Hne by (intros ->; congruence).
  set (s0 := set_modules <[custom := ∅]> s).
  assert (modules s0 !! custom = Some ∅) as Hc0 by (simpl; by rewrite lookup_insert_eq).
  destruct (host_run host text) as [e|c] eqn:Hrun.
  { right. rewrite (bind_raise _ _ _ _ _ (exec_module_raises host _ _ e custom s0 Hf Hrun)).
    simpl. split_and!; [done..|]. apply grows_new_module. }
  left. exists c. split; [done|].
  rewrite (bind_ok _ _ _ _ _ (exec_module_ok host _ _ c _ custom s0 Hf Hrun Hc0)).
  set (sC := set_modules <[custom := c]> s0).
  assert (modules sC !! l = Some t) as HtC by (simpl; by rewrite !lookup_insert_ne).
  assert (modules sC !! custom = Some c) as HcC by (simpl; by rewrite lookup_insert_eq).
  assert (sys_modules sC !! mllama_path = Some l) as HlC by done.
  rewrite (bind_ok _ _ _ _ _ (import_loaded host _ _ _ _ HlC HtC)).
  rewrite (bind_ok _ _ _ _ _ (setattr_ok _ _ "_original_backup" (VDict ∅) _ HtC)).
  erewrite bind_ok; last first.
  { apply (dir_ok custom c). simpl. by rewrite lookup_insert_ne, lookup_insert_eq. }
  rewrite filter_public_names.
  destruct (public_pairs_spec c) as (_ & _ & Hpairs & _).
  erewrite bind_ok; last first.
  { eapply (runtime_loop_ok custom l c _ Hne Hpairs _ ∅).
    - simpl. by rewrite lookup_insert_ne, lookup_insert_eq.
    - simpl. by rewrite lookup_insert_eq.
    - by rewrite lookup_insert_eq. }
  rewrite runtime_fold_closed.
  unfold bind, modify, ret, set_sys_modules, set_modules; simpl.
  do 2 f_equal. by rewrite !insert_insert_eq.
Qed.

Lemma lookup_runtime_backup (c t : module) name :
  runtime_backup c t !! name
  = if is_public name then c !! name ≫= λ _, t !! name else None.
Proof.
  unfold runtime_backup. pose proof (lookup_public_part c name) as Hc.
  destruct (is_public name).
  - rewrite <- Hc. destruct (public_part c !! name) as [v|] eqn:Hv; simpl.
    + destruct (t !! name) as [w|] eqn:Hw.
      * apply map_lookup_filter_Some. split; [done|]. simpl. by rewrite Hv.
      * apply map_lookup_filter_None. by left.
    + apply map_lookup_filter_None. right. intros w _. simpl. rewrite Hv. by intros [? ?].
  - apply map_lookup_filter_None. right. intros w _. simpl. rewrite Hc. by intros [? ?].
Qed.

Lemma runtime_patch_success host s s1 (t : module) :
  live_module s mllama_path = Some t →
  Runtime.patch_mllama_processor host s = (true, s1) →
  ∃ l c,
    custom_namespace host (default_custom_file host) = Some c ∧
    sys_modules s1 !! mllama_path = Some l ∧
    modules s1 !! l = Some (runtime_patched_namespace c t).
Proof.
  unfold live_module. intros Hlive H.
  destruct (sys_modules s !! mllama_path) as [l|] eqn:Hl; [|done]. simpl in Hlive.
  destruct (runtime_patch_cases host s l t Hl Hlive) as [(c & Hc & Hs)|(_ & Hf & _)].
  - rewrite Hs in H. injection H as <-. exists l, c. simpl.
    by rewrite !lookup_insert_eq.
  - rewrite H in Hf. done.
Qed.

Lemma runtime_restore_ok host l (t b : module) s :
  sys_modules s !! mllama_path = Some l → modules s !! l = Some t →
  t !! "_original_backup" = Some (VDict b) →
  Runtime.restore_original_processor host s
  = (true, set_modules <[l := delete "_original_backup" (b ∪ t)]> s).
Proof.
  intros Hl Ht Hb.
  unfold Runtime.restore_original_processor, returning_False_on_exception,
    Runtime.restore_original_processor_body.
  rewrite (bind_ok _ _ _ _ _ (import_loaded host _ _ _ _ Hl Ht)).
  rewrite (bind_ok _ _ _ _ _ (hasattr_ok _ _ _ _ Ht)).
  rewrite bool_decide_eq_true_2 by (by eexists).
  rewrite (bind_ok _ _ _ _ _ (getattr_ok _ _ _ _ _ Ht Hb)).
  rewrite (bind_ok _ _ _ _ _ (restore_attrs_ok _ b _ _ Ht)).
  erewrite bind_ok; last first.
  { eapply delattr_ok; [simpl; by rewrite lookup_insert_eq|].
    destruct (b !! "_original_backup") as [w|] eqn:Hw.
    - exists w. by apply lookup_union_Some_l.
    - eexists. by rewrite lookup_union_r. }
  unfold ret, set_modules; simpl. by rewrite !insert_insert_eq.
Qed.

(** X18: after a successful [patch_mllama_processor] of runtime_patch.py on
    the loaded processor module, every public name of the custom module is
    bound on the target; [_original_backup] holds exactly the public names of
    the custom module that the target already had, with the target's values;
    and no [_runtime_patched] marker has been written. *)
Theorem X18_runtime_apply host s s1 (t : module) :
  live_module s mllama_path = Some t →
  Runtime.patch_mllama_processor host s = (true, s1) →
  ∃ c backup,
    custom_namespace host (default_custom_file host) = Some c ∧
    (∀ name v, c !! name = Some v → is_public name = true →
               live_attr s1 mllama_path name = Some v) ∧
    live_attr s1 mllama_path "_original_backup" = Some (VDict backup) ∧
    (∀ name w, backup !! name = Some w ↔
               t !! name = Some w ∧ is_public name = true ∧ is_Some (c !! name)) ∧
    live_attr s1 mllama_path "_runtime_patched" = t !! "_runtime_patched".
Proof.
  intros Hlive H.
  destruct (runtime_patch_success host s s1 t Hlive H) as (l & c & Hc & Hl & Hm).
  assert (live_module s1 mllama_path = Some (runtime_patched_namespace c t)) as Hlive1
    by (unfold live_module; by rewrite Hl).
  exists c, (runtime_backup c t). unfold live_attr. rewrite Hlive1.
  unfold runtime_patched_namespace. split_and!; [done| | | |].
  - intros name v Hv Hp. apply lookup_union_Some_l. by rewrite lookup_public_part, Hp.
  - rewrite lookup_union_r by (by rewrite lookup_public_part).
    apply lookup_insert_eq.
  - intros name w. rewrite lookup_runtime_backup.
    destruct (is_public name); [|split; [done|by intros (_ & ? & _)]].
    destruct (c !! name); simpl; [|split; [done|by intros (_ & _ & [? ?])]].
    split; [intros ->; split_and!; eauto|by intros [? _]].
  - rewrite lookup_union_r by (by rewrite lookup_public_part).
    by rewrite lookup_insert_ne.
Qed.

Lemma X18_witness :
  ∃ c backup,
    custom_namespace Mllama.host_plain (default_custom_file Mllama.host_plain) = Some c ∧
    (∀ name v, c !! name = Some v → is_public name = true →
               live_attr Mllama.runtime_once mllama_path name = Some v) ∧
    live_attr Mllama.runtime_once mllama_path "_original_backup" = Some (VDict backup) ∧
    (∀ name w, backup !! name = Some w ↔
               Mllama.original_ns !! name = Some w ∧ is_public name = true ∧
               is_Some (c !! name)) ∧
    live_attr Mllama.runtime_once mllama_path "_runtime_patched"
    = Mllama.original_ns !! "_runtime_patched".
Proof.
  apply (X18_runtime_apply Mllama.host_plain Mllama.s0 Mllama.runtime_once
           Mllama.original_ns); vm_compute; reflexivity.
Defined.

(** X19: after a successful [patch_mllama_processor] of runtime_patch.py,
    [restore_original_processor] succeeds: every public attribute the target
    had is bound to its earlier value, a public name only the custom module had
    stays, and [_original_backup] is gone. *)
Theorem X19_runtime_round_trip host s s1 (t : module) :
  live_module s mllama_path = Some t →
  Runtime.patch_mllama_processor host s = (true, s1) →
  (Runtime.restore_original_processor host s1).1 = true ∧
  ∃ c m2,
    custom_namespace host (default_custom_file host) = Some c ∧
    live_module (Runtime.restore_original_processor host s1).2 mllama_path = Some m2 ∧
    (∀ name, is_public name = true → is_Some (t !! name) → m2 !! name = t !! name) ∧
    (∀ name, is_public name = true → t !! name = None → m2 !! name = c !! name) ∧
    m2 !! "_original_backup" = None.
Proof.
  intros Hlive H.
  destruct (runtime_patch_success host s s1 t Hlive H) as (l & c & Hc & Hl & Hm).
  rewrite (runtime_restore_ok host l (runtime_patched_namespace c t) (runtime_backup c t) s1
             Hl Hm).
  2:{ unfold runtime_patched_namespace.
      rewrite lookup_union_r by (by rewrite lookup_public_part). apply lookup_insert_eq. }
  simpl. split; [done|].
  set (m2 := delete "_original_backup"
               (runtime_backup c t ∪ runtime_patched_namespace c t)).
  assert (∀ name, is_public name = true →
            m2 !! name = match t !! name with Some v => Some v | None => c !! name end)
    as Hpub.
  { intros name Hn. unfold m2, runtime_patched_namespace.
    rewrite lookup_delete_ne by (intros <-; done).
    rewrite !lookup_union, lookup_runtime_backup, lookup_public_part, Hn.
    rewrite lookup_insert_ne by (intros <-; done).
    by destruct (t !! name), (c !! name). }
  exists c, m2. split_and!; [done| | | |].
  - unfold live_module. simpl. rewrite Hl. simpl. by rewrite lookup_insert_eq.
  - intros name Hn [v Hv]. by rewrite Hpub, Hv.
  - intros name Hn Hnone. by rewrite Hpub, Hnone.
  - apply lookup_delete_eq.
Qed.

Lemma X19_witness :
  (Runtime.restore_original_processor Mllama.host_plain Mllama.runtime_once).1 = true ∧
  ∃ c m2,
    custom_namespace Mllama.host_plain (default_custom_file Mllama.host_plain) = Some c ∧
    live_module (Runtime.restore_original_processor Mllama.host_plain Mllama.runtime_once).2
      mllama_path = Some m2 ∧
    (∀ name, is_public name = true → is_Some (Mllama.original_ns !! name) →
             m2 !! name = Mllama.original_ns !! name) ∧
    (∀ name, is_public name = true → Mllama.original_ns !! name = None →
             m2 !! name = c !! name) ∧
    m2 !! "_original_backup" = None.
Proof.
  apply (X19_runtime_round_trip Mllama.host_plain Mllama.s0 Mllama.runtime_once
           Mllama.original_ns); vm_compute; reflexivity.
Defined.

(** X20: [restore_original_processor] on a loaded processor module without
    [_original_backup] returns [False] and changes nothing; so a second restore
    after a successful one is refused. *)
Theorem X20_runtime_restore_refused host s (m : module) :
  live_module s mllama_path = Some m →
  m !! "_original_backup" = None →
  Runtime.restore_original_processor host s = (false, s).
Proof.
  unfold live_module. intros Hlive Hno.
  destruct (sys_modules s !! mllama_path) as [l|] eqn:Hl; [|done]. simpl in Hlive.
  unfold Runtime.restore_original_processor, returning_False_on_exception,
    Runtime.restore_original_processor_body.
  rewrite (bind_ok _ _ _ _ _ (import_loaded host _ _ _ _ Hl Hlive)).
  rewrite (bind_ok _ _ _ _ _ (hasattr_ok _ _ _ _ Hlive)), Hno.
  by rewrite bool_decide_eq_false_2 by (by intros [? ?]).
Qed.

Lemma X20_witness :
  Runtime.restore_original_processor Mllama.host_plain Mllama.runtime_restored
  = (false, Mllama.runtime_restored).
Proof.
  apply (X20_runtime_restore_refused Mllama.host_plain Mllama.runtime_restored
           (<["ImageInput" := VObj 11]> Mllama.original_ns)); vm_compute; reflexivity.
Defined.

(** ** The two verify operations *)

Lemma runtime_verify_after_patch host s s1 (t c : module) v :
  live_module s mllama_path = Some t →
  Runtime.patch_mllama_processor host s = (true, s1) →
  custom_namespace host (default_custom_file host) = Some c →
  c !! "MllamaProcessor" = Some v →
  Runtime.verify_patch host s1 = (host_obj_hasattr host v "_is_custom_patched", s1).
Proof.
  intros Hlive H Hc Hv.
  destruct (runtime_patch_success host s s1 t Hlive H) as (l & c' & Hc' & Hl & Hm).
  assert (c' = c) as -> by congruence.
  unfold Runtime.verify_patch, returning_False_on_exception, Runtime.verify_patch_body.
  rewrite (bind_ok _ _ _ _ _ (import_loaded host _ _ _ _ Hl Hm)).
  erewrite bind_ok; [done|].
  unfold try_except. erewrite getattr_ok; [done|exact Hm|].
  unfold runtime_patched_namespace. apply lookup_union_Some_l.
  by rewrite lookup_public_part.
Qed.

(** C5, as amended: for the patch manager of fixed_patch.py, right after a
    successful apply [verify_patch] on the target path returns true, and right
    after a successful restore it returns false.  [verify_patch] of
    runtime_patch.py takes no path and tests no marker of the patch: right
    after a successful [patch_mllama_processor] it returns whether the object
    the replacement binds to [MllamaProcessor] has the attribute
    [_is_custom_patched], and the state is as it was. *)
Theorem C5_marker_consistency host self p :
  (∀ f b s s1,
     Fixed.patch_module_from_file host self p f b s = (true, s1) →
     (Fixed.verify_patch p s1).1 = true) ∧
  (∀ s s1,
     Fixed.restore_module self p s = (true, s1) →
     (Fixed.verify_patch p s1).1 = false) ∧
  (∀ s s1 (t c : module) v,
     live_module s mllama_path = Some t →
     Runtime.patch_mllama_processor host s = (true, s1) →
     custom_namespace host (default_custom_file host) = Some c →
     c !! "MllamaProcessor" = Some v →
     Runtime.verify_patch host s1 = (host_obj_hasattr host v "_is_custom_patched", s1)).
Proof.
  split_and!.
  - intros f b s s1 H.
    apply patch_success_view in H as (t & c & rl & _ & _ & Hlive & _).
    unfold live_module in Hlive.
    destruct (sys_modules s1 !! p) as [l|] eqn:Hl; [|done]. simpl in Hlive.
    unfold Fixed.verify_patch, returning_False_on_exception, Fixed.verify_patch_body.
    rewrite bind_get_state, Hl, (hasattr_ok _ _ _ _ Hlive). simpl.
    apply bool_decide_eq_true. unfold patched_namespace.
    rewrite lookup_insert_ne by done. rewrite lookup_insert_eq. by eexists.
  - intros s s1 H.
    apply restore_success_view in H
      as (t & snap & rl & rec & _ & _ & _ & _ & _ & Hlive & _).
    unfold live_module in Hlive.
    destruct (sys_modules s1 !! p) as [l|] eqn:Hl; [|done]. simpl in Hlive.
    unfold Fixed.verify_patch, returning_False_on_exception, Fixed.verify_patch_body.
    rewrite bind_get_state, Hl, (hasattr_ok _ _ _ _ Hlive). simpl.
    apply bool_decide_eq_false. unfold restored_namespace.
    rewrite lookup_delete_ne by done. rewrite lookup_delete_eq. by intros [? ?].
  - intros s s1 t c v. apply runtime_verify_after_patch.
Qed.

Lemma C5_witness :
  (Fixed.verify_patch "pkg.mod" Scenario.s1).1 = true ∧
  (Fixed.verify_patch "pkg.mod" Scenario.s_restored).1 = false ∧
  Runtime.verify_patch Packaged.host Packaged.runtime_once
  = (host_obj_hasattr Packaged.host (VObj 10) "_is_custom_patched", Packaged.runtime_once).
Proof.
  split_and!.
  - apply (proj1 (C5_marker_consistency Scenario.host Scenario.self "pkg.mod")
             "/patch/replacement.py" true Scenario.s0).
    vm_compute; reflexivity.
  - apply (proj1 (proj2 (C5_marker_consistency Scenario.host Scenario.self "pkg.mod"))
             Scenario.s1_extended).
    vm_compute; reflexivity.
  - apply (proj2 (proj2 (C5_marker_consistency Packaged.host Scenario.self "pkg.mod"))
             Packaged.s0 Packaged.runtime_once Packaged.processor_ns Packaged.replacement_ns);
      vm_compute; reflexivity.
Defined.

(** C5 as stated fails for runtime_patch.py: the replacement defines a class
    [MllamaProcessor] without the attribute [_is_custom_patched]; the patch
    succeeds and binds that class on the processor module, and [verify_patch]
    returns false right after it. *)
Lemma C5_counterexample :
  (Runtime.patch_mllama_processor Packaged.host Packaged.s0).1 = true ∧
  live_attr Packaged.runtime_once mllama_path "MllamaProcessor" = Some (VObj 10) ∧
  (Runtime.verify_patch Packaged.host Packaged.runtime_once).1 = false.
Proof. split_and!; vm_compute; reflexivity. Qed.

(** ** The context manager on the patch manager of fixed_patch.py *)

(** ** The decorators *)





(** ** The patch step of complete_example.py *)

(** X24: when step 1 of [main] says to go on, the processor module is
    registered and marked, so the check of step 4, [verify_patch_simple],
    returns true whichever of the two patches applied; and when the simple patch
    applied, the patch manager was not called: its records are as before. *)
Theorem X24_patch_step_then_verify host global_patcher s s1 :
  CompleteExample.apply_patch_step host global_patcher s = (true, s1) →
  (Simple.verify_patch_simple host s1).1 = true ∧
  ((Simple.patch_mllama_processor_simple host s).1 = true →
   patch_records global_patcher s1 = patch_records global_patcher s).
Proof.
  unfold CompleteExample.apply_patch_step, returning_False_on_exception, bind, call.
  destruct (Simple.patch_mllama_processor_simple host s) as [[] sA] eqn:Hs; simpl.
  - unfold ret. intros [= <-].
    apply returning_true in Hs.
    apply simple_patch_body_inv in Hs as [(e & ? & _)|Hs]; [done|].
    destruct Hs as (s' & tg & t' & c' & (_ & _ & Hd & Hr & _) & Hp & _ & _ & _ & ->).
    split.
    + erewrite (simple_verify_loaded host tg); [|exact Hp|simpl; apply lookup_insert_eq].
      simpl. apply bool_decide_eq_true. unfold simple_patched_namespace.
      rewrite lookup_insert_ne by done. rewrite lookup_insert_eq. by eexists.
    + intros _. unfold patch_records, record_refs. simpl. by rewrite Hd, Hr.
  - destruct (Fixed.patch_mllama_processor host global_patcher None sA) as [[] sB] eqn:Hf;
      simpl; unfold ret; intros [= <-].
    unfold Fixed.patch_mllama_processor in Hf.
    apply patch_success_raw in Hf
      as (A & rl & target & t' & c & _ & _ & _ & Hp & Hm & _).
    split; [|done].
    rewrite (simple_verify_loaded host _ _ _ Hp Hm). simpl.
    apply bool_decide_eq_true. unfold patched_namespace.
    rewrite lookup_insert_ne by done. rewrite lookup_insert_eq. by eexists.
Qed.

Lemma X24_witness :
  (Simple.verify_patch_simple Packaged.host
     (CompleteExample.apply_patch_step Packaged.host Packaged.patcher Packaged.started).2).1
  = true ∧
  ((Simple.patch_mllama_processor_simple Packaged.host Packaged.started).1 = true →
   patch_records Packaged.patcher
     (CompleteExample.apply_patch_step Packaged.host Packaged.patcher Packaged.started).2
   = patch_records Packaged.patcher Packaged.started).
Proof.
  apply (X24_patch_step_then_verify Packaged.host Packaged.patcher Packaged.started).
  vm_compute; reflexivity.
Defined.

(** ** The import rewriter again *)

Lemma startswith_app p q s : startswith (p ++ q) s = true → startswith p s = true.
Proof.
  revert s. induction p as [|a p IH]; intros s; simpl; [done|].
  destruct s as [|b s]; [done|]. destruct (Ascii.eqb a b); [apply IH|done].
Qed.

Lemma contains_app p q s : contains p s = false → contains (p ++ q) s = false.
Proof.
  induction s as [|b s IH]; simpl.
  - intros [H _]%orb_false_elim. apply orb_false_intro; [|done].
    destruct (startswith (p ++ q) "") eqn:Hs; [|done].
    apply startswith_app in Hs. congruence.
  - intros [H1 H2]%orb_false_elim. apply orb_false_intro; [|by apply IH].
    change (startswith p (String b s) = false) in H1.
    destruct (startswith (p ++ q) (String b s)) eqn:Hs; [|done].
    apply startswith_app in Hs. congruence.
Qed.

(** X25: a text with no occurrence of [from .] comes out of the import
    rewriter as it went in: a replacement file without relative imports is run
    unchanged by the simple variant. *)
Theorem X25_rewrite_without_relative_import content :
  contains "from ." content = false →
  Simple.rewrite_imports content = content.
Proof.
  intros H. apply rewrite_imports_fail_open.
  - apply (contains_app "from ." "..feature_extraction_utils import BatchFeature" _ H).
  - apply (contains_app "from ." "..image_utils import ImageInput" _ H).
  - apply (contains_app "from ."
      "..processing_utils import ImagesKwargs, ProcessingKwargs, ProcessorMixin, Unpack" _ H).
  - apply (contains_app "from ." "..tokenization_utils_base import" _ H).
  - apply (contains_app "from ." "image_processing_mllama import make_list_of_images" _ H).
Qed.

Lemma X25_witness :
  Simple.rewrite_imports "from transformers import AutoProcessor; class MllamaProcessor: pass"
  = "from transformers import AutoProcessor; class MllamaProcessor: pass".
Proof.
  apply (X25_rewrite_without_relative_import
           "from transformers import AutoProcessor; class MllamaProcessor: pass").
  vm_compute; reflexivity.
Defined.
